(** * Step-and-repeat optimizer: a shallow embedding of [js/app.js]

    The development embeds [optimizeStepAndRepeat] and [commitChanges]
    of the two source variants (the current [js/app.js] and the older
    copy of the same script) and proves the properties of the
    specification about them.

    Modelling decisions.

    - Numbers.  A JavaScript number is an IEEE double, and two models
      are used.  The main one takes numbers as exact rationals ([Q]),
      the specification's "real number", compared by value ([Qeq],
      [Qle], [Qlt]); [NaN], the infinities and the rounding of doubles
      are outside it.  It serves the properties that rounding does not
      touch: defaults, signs, errors, the order of the steps, what is
      mutated.  Module [Binary64] embeds [optimizeStepAndRepeat] on
      doubles, with the operations of [SpecFloat] at precision 53, and
      serves the properties that depend on them: whether the counting
      loops end, and what they count.
    - Objects.  [props] is an object whose own properties are
      enumerated by [for (let k in props)] in insertion order, and the
      error raised names the first [null] property in that order, so an
      object is an association list from keys to values: assigning to an
      existing key keeps its place, assigning to a new key appends it.
    - Effects.  [optimizeStepAndRepeat] mutates the object it is given
      and returns that same object.  The function is therefore embedded
      in a state-and-exception monad whose state is the content of the
      caller's object; the state survives a [throw].
    - Loops.  The two counting loops carry fuel: one unit per iteration,
      [Diverge] when it is used up. *)

From Stdlib Require Import QArith Qround Qminmax ZArith List String Ascii Bool Lia Lqa SpecFloat.
Import ListNotations.
Local Open Scope string_scope.
Local Open Scope list_scope.
Local Open Scope Q_scope.

(** ** JavaScript values and objects *)

Inductive value : Type :=
| VUndefined
| VNull
| VNum (q : Q).

Definition object : Type := list (string * value).

(** [props[k]]: an absent property reads as [undefined]. *)
Fixpoint get (k : string) (o : object) : value :=
  match o with
  | [] => VUndefined
  | (k', v) :: o' => if String.eqb k k' then v else get k o'
  end.

(** [props[k] = v]. *)
Fixpoint set (k : string) (v : value) (o : object) : object :=
  match o with
  | [] => [(k, v)]
  | (k', v') :: o' =>
      if String.eqb k k' then (k', v) :: o' else (k', v') :: set k v o'
  end.

(** The keys visited by [for (let k in props)]. *)
Definition keys (o : object) : list string := map fst o.

(** [a ?? b] *)
Definition nullish (a b : value) : value :=
  match a with
  | VUndefined | VNull => b
  | VNum _ => a
  end.

(** [v === null] *)
Definition isNull (v : value) : bool :=
  match v with
  | VNull => true
  | _ => false
  end.

(** Comparisons of numbers, as the source writes them. *)
Definition gt (a b : Q) : bool := negb (Qle_bool a b).   (* a > b  *)
Definition ge (a b : Q) : bool := Qle_bool b a.          (* a >= b *)
Definition le (a b : Q) : bool := Qle_bool a b.          (* a <= b *)
Definition neq (a b : Q) : bool := negb (Qeq_bool a b).  (* a != b *)

(** [0 > v]: [null] converts to [0] and [undefined] to [NaN], and both
    comparisons are false. *)
Definition negative (v : value) : bool :=
  match v with
  | VNum q => gt 0 q
  | _ => false
  end.

(** [v * -1], used only on a negative number. *)
Definition timesMinusOne (v : value) : value :=
  match v with
  | VNum q => VNum (q * (-1 # 1))
  | _ => v
  end.

(** ** Errors and completions *)

Inductive error : Type :=
| PropertyIsNull (k : string)      (* Property "k" is null *)
| TooMuchMarginWidth               (* Too much margin; document width below zero (0) *)
| TooMuchMarginHeight.             (* Too much margin; document height below zero (0) *)

(** The text of the [Error] thrown. *)
Definition message (e : error) : string :=
  match e with
  | PropertyIsNull k =>
      ("Property " ++ String "034"%char k ++ String "034"%char " is null")%string
  | TooMuchMarginWidth => "Too much margin; document width below zero (0)"
  | TooMuchMarginHeight => "Too much margin; document height below zero (0)"
  end.

(** How a call ends.  [NotANumber] stands for arithmetic on a value that
    is not a number (JavaScript would produce [NaN]);
    [optimize_numeric] below shows that the optimizer never gets there. *)
Inductive completion (A : Type) : Type :=
| Normal (a : A)
| Throw (e : error)
| Diverge
| NotANumber.

Arguments Normal {A} a.
Arguments Throw {A} e.
Arguments Diverge {A}.
Arguments NotANumber {A}.

(** The monad: the state is the content of [props]. *)
Definition M (A : Type) : Type := object -> completion A * object.

Definition ret {A} (a : A) : M A := fun o => (Normal a, o).

Definition bind {A B} (c : M A) (f : A -> M B) : M B :=
  fun o =>
    match c o with
    | (Normal a, o') => f a o'
    | (Throw e, o') => (Throw e, o')
    | (Diverge, o') => (Diverge, o')
    | (NotANumber, o') => (NotANumber, o')
    end.

Definition throw {A} (e : error) : M A := fun o => (Throw e, o).
Definition diverge {A} : M A := fun o => (Diverge, o).
Definition read (k : string) : M value := fun o => (Normal (get k o), o).
Definition assign (k : string) (v : value) : M unit :=
  fun o => (Normal tt, set k v o).
Definition ownKeys : M (list string) := fun o => (Normal (keys o), o).

(** Reading a property in a numeric position. *)
Definition readNum (k : string) : M Q :=
  fun o =>
    match get k o with
    | VNum q => (Normal q, o)
    | _ => (NotANumber, o)
    end.

Declare Scope js_scope.
Delimit Scope js_scope with js.
Notation "x <- c ;; k" := (bind c (fun x => k))
  (at level 61, c at next level, right associativity) : js_scope.
Notation "c ;; k" := (bind c (fun _ => k))
  (at level 61, right associativity) : js_scope.
Local Open Scope js_scope.

(** ** [optimizeStepAndRepeat] *)

(** Lines 54-58: the five [??] assignments. *)
Definition applyDefaults : M unit :=
  v <- read "documentWidth";;
  assign "documentWidth" (nullish v VNull);;
  v <- read "documentHeight";;
  assign "documentHeight" (nullish v VNull);;
  v <- read "documentMargin";;
  assign "documentMargin" (nullish v (VNum (127 # 10)));;
  v <- read "itemWidth";;
  assign "itemWidth" (nullish v VNull);;
  v <- read "itemHeight";;
  assign "itemHeight" (nullish v VNull).

(** Lines 63-64. *)
Definition keepReal : M unit :=
  v <- read "documentWidth";;
  assign "documentWidthReal" v;;
  v <- read "documentHeight";;
  assign "documentHeightReal" v.

(** Lines 67-77: the body of the [for ... in] loop, over the keys that
    the loop enumerates. *)
Fixpoint sanitize (ks : list string) : M unit :=
  match ks with
  | [] => ret tt
  | k :: ks' =>
      v <- read k;;
      if isNull v then throw (PropertyIsNull k)
      else
        (if negative v then assign k (timesMinusOne v) else ret tt);;
        sanitize ks'
  end.

(** Lines 82-94. *)
Definition applyMargin : M unit :=
  m <- readNum "documentMargin";;
  if neq m 0 then
    w <- readNum "documentWidth";;
    m <- readNum "documentMargin";;
    assign "documentWidth" (VNum (w - m * 2));;
    h <- readNum "documentHeight";;
    m <- readNum "documentMargin";;
    assign "documentHeight" (VNum (h - m * 2));;
    w <- readNum "documentWidth";;
    if ge 0 w then throw TooMuchMarginWidth
    else
      h <- readNum "documentHeight";;
      if ge 0 h then throw TooMuchMarginHeight
      else ret tt
  else ret tt.

(** The counting loop
    [for (let i = 0, accum = 0; i <= props[dim];) { if (OUT) break; accum += props[item]; ++count; }]
    where [i] stays [0] and [outOfBounds (accum + item) dim] is the
    test [OUT] of the variant. *)
Fixpoint countLoop (outOfBounds : Q -> Q -> bool) (dim item : string)
    (fuel : nat) (accum : Q) (count : Z) : M Z :=
  match fuel with
  | O => diverge
  | S fuel' =>
      d <- readNum dim;;
      if le 0 d then
        s <- readNum item;;
        d <- readNum dim;;
        if outOfBounds (accum + s) d then ret count
        else countLoop outOfBounds dim item fuel' (accum + s) (count + 1)%Z
      else ret count
  end.

(** Lines 67: [for (let k in props)] over the own keys of [props]. *)
Definition sanitizeAll : M unit :=
  ks <- ownKeys;;
  sanitize ks.

Section Optimizer.

(** The "item out of bounds" test of the row loop, which is where the
    two variants differ. *)
Variable rowOutOfBounds : Q -> Q -> bool.

(** Lines 97-123: the two loops and the two final assignments. *)
Definition determine (fuel : nat) : M unit :=
  maxColumns <- countLoop gt "documentWidth" "itemWidth" fuel 0 0%Z;;
  maxRows <- countLoop rowOutOfBounds "documentHeight" "itemHeight" fuel 0 0%Z;;
  assign "maxRows" (VNum (inject_Z maxRows));;
  assign "maxColumns" (VNum (inject_Z maxColumns)).

(** The whole function.  [Normal tt] is [return props]: the object
    returned is the object received, whose final content is the state. *)
Definition optimizeWith (fuel : nat) : M unit :=
  applyDefaults;;
  keepReal;;
  sanitizeAll;;
  applyMargin;;
  determine fuel.

End Optimizer.

(** The object literal of a call
    [optimizeStepAndRepeat({documentWidth: w, documentHeight: h, documentMargin: m, itemWidth: iw, itemHeight: ih})]. *)
Definition request (w h m iw ih : Q) : object :=
  [ ("documentWidth", VNum w);
    ("documentHeight", VNum h);
    ("documentMargin", VNum m);
    ("itemWidth", VNum iw);
    ("itemHeight", VNum ih) ].

(** ** [commitChanges] *)

(** The global [state]: the five controls after [parseFloat], and the
    scrolling flag of [js/app.js]. *)
Record State : Type := {
  documentWidth : Q;
  documentHeight : Q;
  documentMargin : Q;
  itemWidth : Q;
  itemHeight : Q;
  scrollToResult : bool
}.

(** The global [results]; [None] is a property not assigned yet. *)
Record Results : Type := {
  square : option object;
  landscape : option object;
  portrait : option object
}.

(** What a commit does that can be seen from outside.  [Call] records
    each entry into [optimizeStepAndRepeat] with the object literal it is
    given; the rendering of a preview is one event, and the [reference]
    to the rendered element that it stores is not modelled. *)
Inductive event : Type :=
| Call (props : object)
| Alert (e : error)
| ClearDocumentPreview
| GenerateDocumentPreview (result : object) (identifier : string)
| ScrollTo.

(** [result.maxRows * result.maxColumns] *)
Definition itemsCount (result : object) : option Q :=
  match get "maxRows" result, get "maxColumns" result with
  | VNum r, VNum c => Some (r * c)
  | _, _ => None
  end.

(** Lines 575-583: [(lowest, highest)]. *)
Definition lowestHighest (docWidth docHeight : Q) : Q * Q :=
  if gt docWidth docHeight then (docHeight, docWidth)
  else (docWidth, docHeight).

(** [js/app.js]: both loops break on [accum + item > dim]; a commit
    catches the errors of the optimizer and renders one preview. *)
Module AppJs.

Definition optimizeStepAndRepeat : nat -> M unit := optimizeWith gt.

Definition commitChanges (fuel : nat) (useScroll : bool)
    (state : State) (results : Results)
  : completion unit * Results * list event :=
  let docWidth := documentWidth state in
  let docHeight := documentHeight state in
  let isDocumentSquare := Qeq_bool docWidth docHeight in
  if isDocumentSquare then
    let props := request docWidth docHeight (documentMargin state)
                   (itemWidth state) (itemHeight state) in
    match optimizeStepAndRepeat fuel props with
    | (Normal _, result) =>
        (Normal tt,
         {| square := Some result;
            landscape := landscape results;
            portrait := portrait results |},
         [Call props; ClearDocumentPreview;
          GenerateDocumentPreview result "square"])
    | (Throw e, _) =>
        (Normal tt, results, [Call props; Alert e; ClearDocumentPreview])
    | (Diverge, _) => (Diverge, results, [Call props])
    | (NotANumber, _) => (NotANumber, results, [Call props])
    end
  else
    let results1 := {| square := square results;
                       landscape := Some [];
                       portrait := Some [] |} in
    let (lowest, highest) := lowestHighest docWidth docHeight in
    let propsL := request highest lowest (documentMargin state)
                    (itemWidth state) (itemHeight state) in
    let propsP := request lowest highest (documentMargin state)
                    (itemWidth state) (itemHeight state) in
    match optimizeStepAndRepeat fuel propsL with
    | (Normal _, resultL) =>
        let results2 := {| square := square results;
                           landscape := Some resultL;
                           portrait := Some [] |} in
        match optimizeStepAndRepeat fuel propsP with
        | (Normal _, resultP) =>
            let results3 := {| square := square results;
                               landscape := Some resultL;
                               portrait := Some resultP |} in
            match itemsCount resultP, itemsCount resultL with
            | Some portraitItemsCount, Some landscapeItemsCount =>
                (Normal tt, results3,
                 [Call propsL; Call propsP; ClearDocumentPreview]
                 ++ (if gt portraitItemsCount landscapeItemsCount
                     then [GenerateDocumentPreview resultP "portrait"]
                     else [GenerateDocumentPreview resultL "landscape"])
                 ++ (if useScroll && scrollToResult state
                     then [ScrollTo] else []))
            | _, _ =>
                (NotANumber, results3,
                 [Call propsL; Call propsP; ClearDocumentPreview])
            end
        | (Throw e, _) =>
            (Normal tt, results2,
             [Call propsL; Call propsP; Alert e; ClearDocumentPreview])
        | (Diverge, _) => (Diverge, results2, [Call propsL; Call propsP])
        | (NotANumber, _) =>
            (NotANumber, results2, [Call propsL; Call propsP])
        end
    | (Throw e, _) =>
        (Normal tt, results1, [Call propsL; Alert e; ClearDocumentPreview])
    | (Diverge, _) => (Diverge, results1, [Call propsL])
    | (NotANumber, _) => (NotANumber, results1, [Call propsL])
    end.

End AppJs.

(** The older variant: the row loop breaks on [accum + item >= dim]; a
    commit lets the errors of the optimizer through and renders both
    previews, the portrait one first. *)
Module Older.

Definition optimizeStepAndRepeat : nat -> M unit := optimizeWith ge.

Definition commitChanges (fuel : nat) (state : State) (results : Results)
  : completion unit * Results * list event :=
  let docWidth := documentWidth state in
  let docHeight := documentHeight state in
  let isDocumentSquare := Qeq_bool docWidth docHeight in
  if isDocumentSquare then
    let props := request docWidth docHeight (documentMargin state)
                   (itemWidth state) (itemHeight state) in
    match optimizeStepAndRepeat fuel props with
    | (Normal _, result) =>
        (Normal tt,
         {| square := Some result;
            landscape := landscape results;
            portrait := portrait results |},
         [Call props; ClearDocumentPreview;
          GenerateDocumentPreview result "square"])
    | (Throw e, _) => (Throw e, results, [Call props])
    | (Diverge, _) => (Diverge, results, [Call props])
    | (NotANumber, _) => (NotANumber, results, [Call props])
    end
  else
    let results1 := {| square := square results;
                       landscape := Some [];
                       portrait := Some [] |} in
    let (lowest, highest) := lowestHighest docWidth docHeight in
    let propsL := request highest lowest (documentMargin state)
                    (itemWidth state) (itemHeight state) in
    let propsP := request lowest highest (documentMargin state)
                    (itemWidth state) (itemHeight state) in
    match optimizeStepAndRepeat fuel propsL with
    | (Normal _, resultL) =>
        let results2 := {| square := square results;
                           landscape := Some resultL;
                           portrait := Some [] |} in
        match optimizeStepAndRepeat fuel propsP with
        | (Normal _, resultP) =>
            (Normal tt,
             {| square := square results;
                landscape := Some resultL;
                portrait := Some resultP |},
             [Call propsL; Call propsP; ClearDocumentPreview;
              GenerateDocumentPreview resultP "portrait";
              GenerateDocumentPreview resultL "landscape"])
        | (Throw e, _) => (Throw e, results2, [Call propsL; Call propsP])
        | (Diverge, _) => (Diverge, results2, [Call propsL; Call propsP])
        | (NotANumber, _) =>
            (NotANumber, results2, [Call propsL; Call propsP])
        end
    | (Throw e, _) => (Throw e, results1, [Call propsL])
    | (Diverge, _) => (Diverge, results1, [Call propsL])
    | (NotANumber, _) => (NotANumber, results1, [Call propsL])
    end.

End Older.

(** The optimizer calls of a commit, in order, and its previews. *)
Definition calls (evs : list event) : list object :=
  flat_map (fun ev => match ev with Call props => [props] | _ => [] end) evs.

Definition previews (evs : list event) : list (object * string) :=
  flat_map (fun ev => match ev with
                      | GenerateDocumentPreview r i => [(r, i)]
                      | _ => []
                      end) evs.

(** ** Definitions used in the statements *)

(** What the loop body does to one value. *)
Definition absv (v : value) : value :=
  if negative v then timesMinusOne v else v.

(** The same on a number. *)
Definition absQ (q : Q) : Q := if gt 0 q then q * (-1 # 1) else q.

(** One pass of the loop body over key [k]. *)
Definition flipped (k : string) (o : object) : object :=
  if negative (get k o) then set k (timesMinusOne (get k o)) o else o.

(** The object after lines 54-58 and after lines 63-64. *)
Definition defaulted (o : object) : object := snd (applyDefaults o).
Definition recorded (o : object) : object := snd (keepReal o).

(** The object after the margin has been subtracted. *)
Definition margined (o : object) (w h m : Q) : object :=
  set "documentHeight" (VNum (h - m * 2)) (set "documentWidth" (VNum (w - m * 2)) o).

(** The usable dimension: the magnitude of [d], less twice the magnitude
    of the margin when that is not zero. *)
Definition usable (d m : Q) : Q :=
  if neq (absQ m) 0 then absQ d - absQ m * 2 else absQ d.

(** Iterations that are enough for a dimension [d] and an item size [s]:
    one more than the whole quotient. *)
Definition fuelFor (d s : Q) : nat := Z.to_nat (Qfloor (d / s) + 1).

(** A request all of whose fields are numbers: [w], [h], [iw], [ih] are
    the values of the four dimension fields, [m] is the margin, or the
    default when the margin is omitted, and no other property of the
    object is [null], apart from those that the function overwrites
    before it looks at them. *)
Record numeric (o : object) (w h m iw ih : Q) : Prop := {
  num_width : get "documentWidth" o = VNum w;
  num_height : get "documentHeight" o = VNum h;
  num_margin : nullish (get "documentMargin" o) (VNum (127 # 10)) = VNum m;
  num_itemWidth : get "itemWidth" o = VNum iw;
  num_itemHeight : get "itemHeight" o = VNum ih;
  num_others : forall k, get k o = VNull ->
    k = "documentMargin" \/ k = "documentWidthReal" \/ k = "documentHeightReal"
}.

(** What a successful call leaves in the object: the normalised fields,
    the usable dimensions, the real dimensions and the two counts. *)
Record optimized (o' : object) (w h m iw ih : Q) (c r : Z) : Prop := {
  opt_width : get "documentWidth" o' = VNum (usable w m);
  opt_height : get "documentHeight" o' = VNum (usable h m);
  opt_margin : get "documentMargin" o' = VNum (absQ m);
  opt_itemWidth : get "itemWidth" o' = VNum (absQ iw);
  opt_itemHeight : get "itemHeight" o' = VNum (absQ ih);
  opt_widthReal : get "documentWidthReal" o' = VNum (absQ w);
  opt_heightReal : get "documentHeightReal" o' = VNum (absQ h);
  opt_maxColumns : get "maxColumns" o' = VNum (inject_Z c);
  opt_maxRows : get "maxRows" o' = VNum (inject_Z r);
  opt_columns_nonneg : (0 <= c)%Z;
  opt_rows_nonneg : (0 <= r)%Z
}.

Arguments nullish : simpl never.



(** A field that is absent or [null]: [v ?? null] is [null]. *)
Definition missing (v : value) : Prop := nullish v VNull = VNull.



(** ** [filterString], [filterMathExpr] and [mathExpressionEvaluator] *)

(** An argument that is expected to be a string. *)
Inductive argument : Type :=
| AString (s : string)
| ANotString.

(** [set.includes(character)], for a single character. *)
Definition includes (set : string) (character : ascii) : bool :=
  existsb (Ascii.eqb character) (list_ascii_of_string set).

(** The loop [while (currentIndex != maxIndex)] of [filterString];
    [steps] is [maxIndex - currentIndex].  The index stays below the
    length, so the character is always there. *)
Fixpoint filterLoop (input set : string) (keep : bool)
    (steps currentIndex : nat) (buffer : string) : string :=
  match steps with
  | O => buffer
  | S steps' =>
      match String.get currentIndex input with
      | Some character =>
          filterLoop input set keep steps' (S currentIndex)
            (if includes set character
             then if keep then (buffer ++ String character "")%string
                  else buffer
             else buffer)
      | None => buffer
      end
  end.

(** [filterString(input, set, keep)]. *)
Definition filterString (input set : argument) (keep : bool) : string :=
  match input with
  | ANotString => ""
  | AString input =>
      if (String.length input =? 0)%nat then ""
      else
        match set with
        | ANotString => ""
        | AString set =>
            if (String.length set =? 0)%nat then ""
            else filterLoop input set keep (String.length input) 0 ""
        end
  end.

(** The characters of a mathematical expression. *)
Definition mathCharacters : string := "0123456789 +-/*^()%.,".

Definition filterMathExpr (input : argument) : string :=
  filterString input (AString mathCharacters) true.

(** How [mathExpressionEvaluator] ends: the error for an argument that
    is not a string, [null] for an expression without any character
    left, or the evaluation of the code given to [Function]. *)
Inductive evaluation : Type :=
| MustBeAString
| ReturnsNull
| Evaluates (code : string).

Definition mathExpressionEvaluator (expr : argument) : evaluation :=
  match expr with
  | ANotString => MustBeAString
  | AString _ =>
      let expr := filterMathExpr expr in
      if (String.length expr =? 0)%nat then ReturnsNull
      else Evaluates ("'use strict'; return " ++ expr ++ ";")%string
  end.

(** ** [filterNumerical] *)

(** The value of a decimal digit. *)
Definition digitValue (c : ascii) : option Z :=
  let n := nat_of_ascii c in
  if (48 <=? n)%nat && (n <=? 57)%nat then Some (Z.of_nat n - 48)%Z else None.

(** The digits that a string starts with, and what follows them. *)
Fixpoint leadingDigits (s : string) : list Z * string :=
  match s with
  | EmptyString => ([], EmptyString)
  | String c rest =>
      match digitValue c with
      | Some d => let (ds, after) := leadingDigits rest in (d :: ds, after)
      | None => ([], s)
      end
  end.

(** The number written by a list of digits. *)
Definition digitsValue (ds : list Z) : Z :=
  fold_left (fun acc d => (acc * 10 + d)%Z) ds 0%Z.

(** [parseFloat] on a string of digits and dots, which is what
    [filterNumerical] gives it: the number written by the longest
    prefix of the form [digits], [digits.], [digits.digits] or
    [.digits]; [None] is [NaN], when there is no such prefix. *)
Definition parseFloatDecimal (s : string) : option Q :=
  let (whole, after) := leadingDigits s in
  match after with
  | String "." after' =>
      let (fraction, _) := leadingDigits after' in
      match whole, fraction with
      | [], [] => None
      | _, _ =>
          Some (inject_Z (digitsValue whole)
                + inject_Z (digitsValue fraction)
                  / inject_Z (10 ^ Z.of_nat (List.length fraction)))
      end
  | _ =>
      match whole with
      | [] => None
      | _ => Some (inject_Z (digitsValue whole))
      end
  end.

Definition numericalCharacters : string := "0123456789.".

(** [filterNumerical(input)]: [x || null] is [null], here [None], for
    [NaN] and for zero. *)
Definition filterNumerical (input : argument) : option Q :=
  match parseFloatDecimal (filterString input (AString numericalCharacters) true) with
  | Some q => if Qeq_bool q 0 then None else Some q
  | None => None
  end.

(** ** [generateDocumentPreview] of [js/app.js] *)

(** [millimeterToPixel]: a quarter of the value. *)
Definition millimeterToPixel (mm : Q) : Q := mm * (25 # 100).

(** The integral part of a number, towards zero. *)
Definition trunc (x : Q) : Z := if Qle_bool 0 x then Qfloor x else Qceiling x.

(** [a % b == 0]: the remainder is [a - b * trunc (a / b)], and the
    remainder by zero is [NaN], which is not equal to zero. *)
Definition remainderIsZero (a b : Q) : bool :=
  if Qeq_bool b 0 then false
  else Qeq_bool (a - b * inject_Z (trunc (a / b))) 0.

(** What stands for [!docItems!]: the items with their offsets, or the
    notice that there are too many. *)
Inductive items : Type :=
| TooManyItems
| Items (positions : list (Z * Z)).

(** The values that the template of a preview is filled with. *)
Record preview : Type := {
  docIdentifier : string;
  pxDocumentWidth : Z;
  pxDocumentHeight : Z;
  pxDocumentMargin : Z;
  pxItemWidth : Z;
  pxItemHeight : Z;
  rowCount : Q;
  columnCount : Q;
  itemCount : Q;
  translateMarginX : Z;
  translateMarginY : Z;
  docItems : items
}.

(** Lines 214-223: the loop over the items; each item is the pair
    [(offsetLeft, offsetTop)] of its [--itemX] and [--itemY]. *)
Fixpoint itemsLoop (fuel : nat) (itemsCount maxColumns : Q)
    (offsetLeftIncrement offsetTopIncrement : Z)
    (i offsetLeft offsetTop : Z) : option (list (Z * Z)) :=
  match fuel with
  | O => None
  | S fuel' =>
      if gt itemsCount (inject_Z i) then
        let breakLine :=
          negb (i =? 0)%Z && remainderIsZero (inject_Z i) maxColumns in
        let offsetLeft' := if breakLine then 0%Z else offsetLeft in
        let offsetTop' :=
          if breakLine then (offsetTop + offsetTopIncrement)%Z else offsetTop in
        option_map (cons (offsetLeft', offsetTop'))
          (itemsLoop fuel' itemsCount maxColumns
             offsetLeftIncrement offsetTopIncrement
             (i + 1)%Z (offsetLeft' + offsetLeftIncrement)%Z offsetTop')
      else Some []
  end.

(** A property read as a number. *)
Definition number (k : string) (o : object) : option Q :=
  match get k o with
  | VNum q => Some q
  | _ => None
  end.

(** [generateDocumentPreview(result, identifier)]: nothing for a
    [null] identifier, otherwise the values of the template.  The loop
    over the items runs at most 200 times, since more items than that
    are not rendered. *)
Definition generateDocumentPreview (result : object) (identifier : option string)
  : completion (option preview) :=
  match identifier with
  | None => Normal None
  | Some identifier =>
      match number "documentWidthReal" result,
            number "documentHeightReal" result,
            number "documentMargin" result,
            number "itemWidth" result,
            number "itemHeight" result with
      | Some widthReal, Some heightReal, Some margin, Some itemW, Some itemH =>
          match number "maxColumns" result, number "maxRows" result,
                number "documentWidth" result, number "documentHeight" result with
          | Some maxColumns, Some maxRows, Some width, Some height =>
              let translateX := width - maxColumns * itemW in
              let translateY := height - maxRows * itemH in
              let itemsCount := maxRows * maxColumns in
              let rendered :=
                if gt itemsCount 200 then Some TooManyItems
                else
                  option_map Items
                    (itemsLoop 201 itemsCount maxColumns
                       (Qfloor (millimeterToPixel itemW))
                       (Qfloor (millimeterToPixel itemH)) 0 0 0) in
              match rendered with
              | Some rendered =>
                  Normal (Some
                    {| docIdentifier := identifier;
                       pxDocumentWidth := Qfloor (millimeterToPixel widthReal);
                       pxDocumentHeight := Qfloor (millimeterToPixel heightReal);
                       pxDocumentMargin := Qfloor (millimeterToPixel margin);
                       pxItemWidth := Qfloor (millimeterToPixel itemW);
                       pxItemHeight := Qfloor (millimeterToPixel itemH);
                       rowCount := maxRows;
                       columnCount := maxColumns;
                       itemCount := maxRows * maxColumns;
                       translateMarginX := Qfloor (translateX * (125 # 1000));
                       translateMarginY := Qfloor (translateY * (125 # 1000));
                       docItems := rendered |})
              | None => Diverge
              end
          | _, _, _, _ => NotANumber
          end
      | _, _, _, _, _ => NotANumber
      end
  end.

(** The grid that the items of a preview are laid on: item [i] of [n],
    in rows of [columns], at steps of [dx] and [dy]. *)
Definition grid (columns : Z) (n : nat) (dx dy : Z) : list (Z * Z) :=
  map (fun i => ((Z.of_nat i mod columns) * dx, (Z.of_nat i / columns) * dy)%Z)
      (seq 0 n).

(** The characters of a string that belong to a set, in their order. *)
Definition kept (set input : string) : string :=
  string_of_list_ascii (filter (includes set) (list_ascii_of_string input)).

(** The offsets that the loop holds when it reaches item [i]. *)
Definition offsetsAt (c dx dy : Z) (i : nat) : Z * Z :=
  match i with
  | O => (0, 0)%Z
  | S j => ((Z.of_nat j mod c + 1) * dx, (Z.of_nat j / c) * dy)%Z
  end.

Definition place (c dx dy : Z) (i : nat) : Z * Z :=
  ((Z.of_nat i mod c) * dx, (Z.of_nat i / c) * dy)%Z.

(** ** [inputMathExpressionEvaluation] *)

(** The numbers that an evaluated expression can be: here [NaN] and the
    infinities are told apart from the finite numbers, because the
    handler tests for them. *)
Inductive jsnumber : Type :=
| NaN
| Infinity
| NegInfinity
| Finite (q : Q).

(** What [mathExpressionEvaluator] can return. *)
Inductive jsvalue : Type :=
| JNull
| JUndefined
| JNumber (n : jsnumber).

(** How the call of [mathExpressionEvaluator] ends: with an exception
    and its message, or with a value. *)
Inductive outcome : Type :=
| Throws (message : string)
| Returns (v : jsvalue).

(** [mathExpressionEvaluator(currentValue)]; [run] stands for
    [Function(code)()], the evaluation of the filtered expression by
    the JavaScript engine, which is not modelled. *)
Definition evaluateExpression (run : string -> outcome) (currentValue : string)
  : outcome :=
  match mathExpressionEvaluator (AString currentValue) with
  | MustBeAString => Throws "Expression must be a string"
  | ReturnsNull => Returns JNull
  | Evaluates code => run code
  end.

(** [evaluated == 'Infinity']: the string converts to the number. *)
Definition equalsInfinity (v : jsvalue) : bool :=
  match v with
  | JNumber Infinity => true
  | _ => false
  end.

(** [isNaN(evaluated)]: [undefined] converts to [NaN], [null] to [0]. *)
Definition isNaN (v : jsvalue) : bool :=
  match v with
  | JUndefined => true
  | JNumber NaN => true
  | _ => false
  end.

(** [typeof evaluated === 'undefined'] *)
Definition isUndefined (v : jsvalue) : bool :=
  match v with
  | JUndefined => true
  | _ => false
  end.

(** [0 >= evaluated]: [null] converts to [0]; a comparison with [NaN]
    is false. *)
Definition zeroOrNegative (v : jsvalue) : bool :=
  match v with
  | JNull => true
  | JUndefined => false
  | JNumber NaN => false
  | JNumber Infinity => false
  | JNumber NegInfinity => true
  | JNumber (Finite q) => ge 0 q
  end.

(** One of the four checks:
    [if (test) { if (useThrow) { throw new Error(message); } else { evaluated = 0; } }]. *)
Definition check (test : jsvalue -> bool) (message : string) (useThrow : bool)
    (evaluated : jsvalue) : string + jsvalue :=
  if test evaluated then
    if useThrow then inl message else inr (JNumber (Finite 0))
  else inr evaluated.

(** The four checks of the [try] block, in their order. *)
Definition checks (useThrow : bool) (evaluated : jsvalue) : string + jsvalue :=
  match check equalsInfinity "Infinity value" useThrow evaluated with
  | inl e => inl e
  | inr evaluated =>
      match check isNaN "NaN value" useThrow evaluated with
      | inl e => inl e
      | inr evaluated =>
          match check isUndefined "undefined" useThrow evaluated with
          | inl e => inl e
          | inr evaluated =>
              check zeroOrNegative "Negative or zero values not allowed"
                useThrow evaluated
          end
      end
  end.

(** The text of a control: the value kept in [state] followed by the
    unit, or an evaluated value followed by the unit.  The conversion
    of the number to its digits is not modelled. *)
Inductive text : Type :=
| OriginalValue
| Evaluated (v : jsvalue).

(** [evaluated == '0 ' + currentUnit], on the text built from
    [evaluated]: the digits are ["0"] for zero only. *)
Definition isZeroText (v : jsvalue) : bool :=
  match v with
  | JNumber (Finite q) => Qeq_bool q 0
  | _ => false
  end.

(** What the handler does to the page: the new text of the control if
    it is assigned, the message of the alert if there is one, whether
    the text is selected, and the class given to the body if it is
    set. *)
Record handled : Type := {
  newValue : option text;
  alerted : option string;
  selected : bool;
  bodyClass : option string
}.

Definition nothingHandled : handled :=
  {| newValue := None; alerted := None; selected := false; bodyClass := None |}.

(** The [extra] argument: each flag may be absent. *)
Record extras : Type := {
  useAlert : option bool;
  useThrow : option bool;
  restoreOriginalValue : option bool
}.

Definition orTrue (flag : option bool) : bool :=
  match flag with
  | Some b => b
  | None => true
  end.

(** [inputMathExpressionEvaluation(event, extra)] of [js/app.js], for
    the control [id], given whether the target is an input element,
    the key, and the trimmed text of the control. *)
Definition inputMathExpressionEvaluation (run : string -> outcome)
    (id : string) (isInputElement : bool) (key : string)
    (currentValue : string) (extra : extras) : handled :=
  let isMargin := String.eqb id "documentMargin" in
  let useAlert := if isMargin then false else orTrue (useAlert extra) in
  let useThrow := if isMargin then false else orTrue (useThrow extra) in
  let restoreOriginalValue :=
    if isMargin then true else orTrue (restoreOriginalValue extra) in
  if negb isInputElement then nothingHandled
  else if negb (String.eqb key "Enter") then nothingHandled
  else
    let caught (message : string) :=
      {| newValue := if restoreOriginalValue then Some OriginalValue else None;
         alerted := if useAlert then Some message else None;
         selected := restoreOriginalValue;
         bodyClass := None |} in
    match evaluateExpression run currentValue with
    | Throws message => caught message
    | Returns evaluated =>
        match checks useThrow evaluated with
        | inl message => caught message
        | inr evaluated =>
            {| newValue := Some (Evaluated evaluated);
               alerted := None;
               selected := false;
               bodyClass :=
                 if isMargin
                 then Some (if isZeroText evaluated
                            then "noPreviewMargin" else "")
                 else None |}
        end
    end.

(** The handler of the older variant: no [extra], no special case for
    the margin. *)
Definition inputMathExpressionEvaluationOlder (run : string -> outcome)
    (isInputElement : bool) (key : string) (currentValue : string) : handled :=
  if negb isInputElement then nothingHandled
  else if negb (String.eqb key "Enter") then nothingHandled
  else
    let caught (message : string) :=
      {| newValue := Some OriginalValue;
         alerted := Some message;
         selected := true;
         bodyClass := None |} in
    match evaluateExpression run currentValue with
    | Throws message => caught message
    | Returns evaluated =>
        match checks true evaluated with
        | inl message => caught message
        | inr evaluated =>
            {| newValue := Some (Evaluated evaluated);
               alerted := None;
               selected := false;
               bodyClass := None |}
        end
    end.

(** The controls as the page loads them, their request, and its
    results in the two variants: the examples of the statements. *)
Definition defaultState : State :=
  {| documentWidth := 330; documentHeight := 488; documentMargin := 127 # 10;
     itemWidth := 90; itemHeight := 50; scrollToResult := true |}.

Definition defaultRequest : object := request 330 488 (127 # 10) 90 50.

Definition defaultResult : object :=
  snd (AppJs.optimizeStepAndRepeat 10 defaultRequest).

Definition defaultResultOlder : object :=
  snd (Older.optimizeStepAndRepeat 10 defaultRequest).

Definition noResults : Results :=
  {| square := None; landscape := None; portrait := None |}.

(** ** [optimizeStepAndRepeat] on IEEE doubles *)

(** The same function with the numbers of JavaScript: binary64 values,
    with the operations that [SpecFloat] specifies, at precision 53 and
    with exponents up to 1024.  Every sum, difference and product is
    rounded to the nearest double, ties to even; [NaN] and the
    infinities are values like the others. *)
Module Binary64.

Definition number : Type := spec_float.

Definition prec : Z := 53%Z.
Definition emax : Z := 1024%Z.

Definition plus : number -> number -> number := SFadd prec emax.    (* a + b *)
Definition minus : number -> number -> number := SFsub prec emax.   (* a - b *)
Definition times : number -> number -> number := SFmul prec emax.   (* a * b *)
Definition divide : number -> number -> number := SFdiv prec emax.  (* a / b *)

Definition gt (a b : number) : bool := SFltb b a.         (* a > b  *)
Definition ge (a b : number) : bool := SFleb b a.         (* a >= b *)
Definition le (a b : number) : bool := SFleb a b.         (* a <= b *)
Definition neq (a b : number) : bool := negb (SFeqb a b). (* a != b *)

(** The double of an integer literal, and of a decimal literal
    [z / 10^digits]: numerator and denominator are doubles, and their
    quotient is rounded once, like the literal. *)
Definition integer (z : Z) : number := binary_normalize prec emax z 0%Z false.

Definition decimal (z : Z) (digits : nat) : number :=
  divide (integer z) (integer (10 ^ Z.of_nat digits)%Z).

Definition NaN : number := S754_nan.
Definition Infinity : number := S754_infinity false.

Inductive value : Type :=
| VUndefined
| VNull
| VNum (x : number).

Definition object : Type := list (string * value).

Fixpoint get (k : string) (o : object) : value :=
  match o with
  | [] => VUndefined
  | (k', v) :: o' => if String.eqb k k' then v else get k o'
  end.

Fixpoint set (k : string) (v : value) (o : object) : object :=
  match o with
  | [] => [(k, v)]
  | (k', v') :: o' =>
      if String.eqb k k' then (k', v) :: o' else (k', v') :: set k v o'
  end.

Definition keys (o : object) : list string := map fst o.

(** [a ?? b] *)
Definition nullish (a b : value) : value :=
  match a with
  | VUndefined | VNull => b
  | VNum _ => a
  end.

(** [v === null] *)
Definition isNull (v : value) : bool :=
  match v with
  | VNull => true
  | _ => false
  end.

(** A value in a numeric position: [undefined] converts to [NaN] and
    [null] to [0]. *)
Definition toNumber (v : value) : number :=
  match v with
  | VUndefined => NaN
  | VNull => integer 0
  | VNum x => x
  end.

(** [v != x] for a number [x]: [null] and [undefined] are loosely equal
    to each other only. *)
Definition looselyUnequal (v : value) (x : number) : bool :=
  match v with
  | VNum y => neq y x
  | _ => true
  end.

Definition M (A : Type) : Type := object -> completion A * object.

Definition ret {A} (a : A) : M A := fun o => (Normal a, o).

Definition bind {A B} (c : M A) (f : A -> M B) : M B :=
  fun o =>
    match c o with
    | (Normal a, o') => f a o'
    | (Throw e, o') => (Throw e, o')
    | (Diverge, o') => (Diverge, o')
    | (NotANumber, o') => (NotANumber, o')
    end.

Definition throw {A} (e : error) : M A := fun o => (Throw e, o).
Definition diverge {A} : M A := fun o => (Diverge, o).
Definition read (k : string) : M value := fun o => (Normal (get k o), o).
Definition readNum (k : string) : M number :=
  fun o => (Normal (toNumber (get k o)), o).
Definition assign (k : string) (v : value) : M unit :=
  fun o => (Normal tt, set k v o).
Definition ownKeys : M (list string) := fun o => (Normal (keys o), o).

Declare Scope double_scope.
Notation "x <- c ;; k" := (bind c (fun x => k))
  (at level 61, c at next level, right associativity) : double_scope.
Notation "c ;; k" := (bind c (fun _ => k))
  (at level 61, right associativity) : double_scope.
Local Open Scope double_scope.

(** Lines 54-58. *)
Definition applyDefaults : M unit :=
  v <- read "documentWidth";;
  assign "documentWidth" (nullish v VNull);;
  v <- read "documentHeight";;
  assign "documentHeight" (nullish v VNull);;
  v <- read "documentMargin";;
  assign "documentMargin" (nullish v (VNum (decimal 127 1)));;
  v <- read "itemWidth";;
  assign "itemWidth" (nullish v VNull);;
  v <- read "itemHeight";;
  assign "itemHeight" (nullish v VNull).

(** Lines 63-64. *)
Definition keepReal : M unit :=
  v <- read "documentWidth";;
  assign "documentWidthReal" v;;
  v <- read "documentHeight";;
  assign "documentHeightReal" v.

(** Lines 67-77. *)
Fixpoint sanitize (ks : list string) : M unit :=
  match ks with
  | [] => ret tt
  | k :: ks' =>
      v <- read k;;
      if isNull v then throw (PropertyIsNull k)
      else
        (if gt (integer 0) (toNumber v)
         then assign k (VNum (times (toNumber v) (integer (-1))))
         else ret tt);;
        sanitize ks'
  end.

Definition sanitizeAll : M unit :=
  ks <- ownKeys;;
  sanitize ks.

(** Lines 82-94. *)
Definition applyMargin : M unit :=
  m <- read "documentMargin";;
  if looselyUnequal m (integer 0) then
    w <- readNum "documentWidth";;
    m <- readNum "documentMargin";;
    assign "documentWidth" (VNum (minus w (times m (integer 2))));;
    h <- readNum "documentHeight";;
    m <- readNum "documentMargin";;
    assign "documentHeight" (VNum (minus h (times m (integer 2))));;
    w <- readNum "documentWidth";;
    if ge (integer 0) w then throw TooMuchMarginWidth
    else
      h <- readNum "documentHeight";;
      if ge (integer 0) h then throw TooMuchMarginHeight
      else ret tt
  else ret tt.

(** Lines 54-94: everything before the two loops. *)
Definition prepare : M unit :=
  applyDefaults;;
  keepReal;;
  sanitizeAll;;
  applyMargin.

(** The counting loop
    [for (let i = 0, accum = 0; i <= props[dim];) { if (OUT) break; accum += props[item]; ++count; }]:
    [i] stays [0], the sum [accum + props[item]] is rounded at every
    iteration, and the counter is a number like the others. *)
Fixpoint countLoop (outOfBounds : number -> number -> bool) (dim item : string)
    (fuel : nat) (accum count : number) : M number :=
  match fuel with
  | O => diverge
  | S fuel' =>
      d <- readNum dim;;
      if le (integer 0) d then
        s <- readNum item;;
        d <- readNum dim;;
        if outOfBounds (plus accum s) d then ret count
        else countLoop outOfBounds dim item fuel' (plus accum s)
               (plus count (integer 1))
      else ret count
  end.

(** The whole function; [rowOutOfBounds] is the test of the row loop,
    where the two variants differ. *)
Definition optimizeWith (rowOutOfBounds : number -> number -> bool)
    (fuel : nat) : M unit :=
  prepare;;
  maxColumns <- countLoop gt "documentWidth" "itemWidth" fuel
                  (integer 0) (integer 0);;
  maxRows <- countLoop rowOutOfBounds "documentHeight" "itemHeight" fuel
               (integer 0) (integer 0);;
  assign "maxRows" (VNum maxRows);;
  assign "maxColumns" (VNum maxColumns).

(** [js/app.js], and the older variant. *)
Definition optimizeStepAndRepeat : nat -> M unit := optimizeWith gt.
Definition optimizeStepAndRepeatOlder : nat -> M unit := optimizeWith ge.

Definition request (w h m iw ih : number) : object :=
  [ ("documentWidth", VNum w);
    ("documentHeight", VNum h);
    ("documentMargin", VNum m);
    ("itemWidth", VNum iw);
    ("itemHeight", VNum ih) ].

(** A number that is not negative: [+0], a positive double or
    [+Infinity]. *)
Definition nonneg (x : number) : Prop :=
  match x with
  | S754_zero false | S754_infinity false | S754_finite false _ _ => True
  | _ => False
  end.

(** The counter of a loop after [n] increments. *)
Definition counter (n : nat) : number :=
  Nat.iter n (fun c => plus c (integer 1)) (integer 0).

End Binary64.

(** ** Objects: reading after writing *)

Lemma get_set (k k' : string) (v : value) (o : object) :
  get k' (set k v o) = if String.eqb k' k then v else get k' o.
Proof.
  induction o as [|[k0 v0] o IH]; simpl.
  - destruct (String.eqb k' k); reflexivity.
  - destruct (String.eqb k k0) eqn:E; simpl.
    + apply String.eqb_eq in E; subst k0.
      destruct (String.eqb k' k); reflexivity.
    + destruct (String.eqb k' k0) eqn:E'.
      * apply String.eqb_eq in E'; subst k0.
        rewrite String.eqb_sym, E. reflexivity.
      * exact IH.
Qed.

Lemma get_absent (k : string) (o : object) :
  ~ In k (keys o) -> get k o = VUndefined.
Proof.
  induction o as [|[k0 v0] o IH]; simpl; intros H; [reflexivity|].
  destruct (String.eqb k k0) eqn:E.
  - apply String.eqb_eq in E. subst. exfalso. apply H. now left.
  - apply IH. intros Hin. apply H. now right.
Qed.

Lemma keys_set_present (k : string) (v : value) (o : object) :
  In k (keys o) -> keys (set k v o) = keys o.
Proof.
  induction o as [|[k0 v0] o IH]; simpl; intros H; [contradiction|].
  destruct (String.eqb k k0) eqn:E; simpl; [reflexivity|].
  f_equal. apply IH. destruct H as [H|H]; [|exact H].
  subst. rewrite String.eqb_refl in E. discriminate.
Qed.

Lemma keys_set_absent (k : string) (v : value) (o : object) :
  ~ In k (keys o) -> keys (set k v o) = keys o ++ [k].
Proof.
  induction o as [|[k0 v0] o IH]; simpl; intros H; [reflexivity|].
  destruct (String.eqb k k0) eqn:E; simpl.
  - apply String.eqb_eq in E. subst. exfalso. apply H. now left.
  - f_equal. apply IH. intros Hin. apply H. now right.
Qed.

Lemma keys_set (k : string) (v : value) (o : object) :
  keys (set k v o) = if in_dec string_dec k (keys o) then keys o else keys o ++ [k].
Proof.
  destruct (in_dec string_dec k (keys o)).
  - now apply keys_set_present.
  - now apply keys_set_absent.
Qed.

(** ** The monad: running a sequence step by step *)

Lemma bind_normal {A B} (c : M A) (f : A -> M B) (o o' : object) (a : A) :
  c o = (Normal a, o') -> bind c f o = f a o'.
Proof. unfold bind. intros ->. reflexivity. Qed.

Lemma bind_throw {A B} (c : M A) (f : A -> M B) (o o' : object) (e : error) :
  c o = (Throw e, o') -> bind c f o = (Throw e, o').
Proof. unfold bind. intros ->. reflexivity. Qed.

Lemma bind_diverge {A B} (c : M A) (f : A -> M B) (o o' : object) :
  c o = (Diverge, o') -> bind c f o = (Diverge, o').
Proof. unfold bind. intros ->. reflexivity. Qed.

Lemma readNum_num (k : string) (o : object) (q : Q) :
  get k o = VNum q -> readNum k o = (Normal q, o).
Proof. unfold readNum. intros ->. reflexivity. Qed.

(** ** Sign normalisation *)

Lemma absv_num (q : Q) : absv (VNum q) = VNum (absQ q).
Proof. unfold absv, absQ. simpl. destruct (gt 0 q); reflexivity. Qed.

Lemma gt_true (a b : Q) : gt a b = true <-> b < a.
Proof.
  unfold gt. rewrite negb_true_iff, <- not_true_iff_false, Qle_bool_iff.
  split; [apply Qnot_le_lt | apply Qlt_not_le].
Qed.

Lemma gt_false (a b : Q) : gt a b = false <-> a <= b.
Proof. unfold gt. rewrite negb_false_iff. apply Qle_bool_iff. Qed.

Lemma ge_true (a b : Q) : ge a b = true <-> b <= a.
Proof. apply Qle_bool_iff. Qed.

Lemma ge_false (a b : Q) : ge a b = false <-> a < b.
Proof.
  unfold ge. rewrite <- not_true_iff_false, Qle_bool_iff.
  split; [apply Qnot_le_lt | apply Qlt_not_le].
Qed.

Lemma le_true (a b : Q) : le a b = true <-> a <= b.
Proof. apply Qle_bool_iff. Qed.

Lemma neq_true (a b : Q) : neq a b = true <-> ~ a == b.
Proof.
  unfold neq. rewrite negb_true_iff, <- not_true_iff_false, Qeq_bool_iff.
  reflexivity.
Qed.

Lemma neq_false (a b : Q) : neq a b = false <-> a == b.
Proof. unfold neq. rewrite negb_false_iff. apply Qeq_bool_iff. Qed.

Lemma absQ_nonneg (q : Q) : 0 <= absQ q.
Proof.
  unfold absQ. destruct (gt 0 q) eqn:E.
  - apply gt_true in E. lra.
  - now apply gt_false in E.
Qed.

Lemma absQ_of_nonneg (q : Q) : 0 <= q -> absQ q = q.
Proof.
  intros H. unfold absQ. destruct (gt 0 q) eqn:E; [|reflexivity].
  apply gt_true in E. lra.
Qed.

Lemma absQ_pos (q : Q) : ~ q == 0 -> 0 < absQ q.
Proof.
  intros H. unfold absQ. destruct (gt 0 q) eqn:E.
  - apply gt_true in E. lra.
  - apply gt_false in E. lra.
Qed.

Lemma absQ_zero (q : Q) : q == 0 -> absQ q == 0.
Proof.
  intros H. unfold absQ. destruct (gt 0 q) eqn:E; [|exact H].
  apply gt_true in E. lra.
Qed.

Lemma absv_idem (v : value) : absv (absv v) = absv v.
Proof.
  destruct v as [| |q]; try reflexivity.
  rewrite !absv_num. f_equal. apply absQ_of_nonneg, absQ_nonneg.
Qed.

Lemma absv_null (v : value) : absv v = VNull <-> v = VNull.
Proof.
  destruct v as [| |q]; try (split; intros H; (discriminate || reflexivity)).
  rewrite absv_num. split; discriminate.
Qed.

Lemma get_flipped (k k' : string) (o : object) :
  get k' (flipped k o) = if String.eqb k' k then absv (get k o) else get k' o.
Proof.
  unfold flipped, absv. destruct (negative (get k o)) eqn:E.
  - apply get_set.
  - destruct (String.eqb k' k) eqn:E'; [|reflexivity].
    apply String.eqb_eq in E'. now subst.
Qed.

Lemma keys_flipped (k : string) (o : object) : keys (flipped k o) = keys o.
Proof.
  unfold flipped. destruct (negative (get k o)) eqn:E; [|reflexivity].
  apply keys_set_present.
  destruct (in_dec string_dec k (keys o)) as [H|H]; [exact H|].
  rewrite (get_absent _ _ H) in E. discriminate.
Qed.

Lemma sanitize_cons (k : string) (ks : list string) (o : object) :
  sanitize (k :: ks) o =
  if isNull (get k o) then (Throw (PropertyIsNull k), o)
  else sanitize ks (flipped k o).
Proof.
  simpl. unfold bind at 1, read. destruct (isNull (get k o)); [reflexivity|].
  unfold bind, flipped, assign, ret. destruct (negative (get k o)); reflexivity.
Qed.

(** The loop over the keys succeeds when none of them is [null]; it
    then leaves the keys in place and every visited value normalised. *)
Lemma sanitize_normal (ks : list string) : forall o,
  (forall k, In k ks -> get k o <> VNull) ->
  exists o', sanitize ks o = (Normal tt, o') /\ keys o' = keys o /\
    (forall k, In k ks -> get k o' = absv (get k o)) /\
    (forall k, ~ In k ks -> get k o' = get k o).
Proof.
  induction ks as [|k0 ks IH]; intros o Hnn.
  - exists o. simpl. repeat split; auto. intros k [].
  - rewrite sanitize_cons.
    destruct (isNull (get k0 o)) eqn:E.
    { exfalso. apply (Hnn k0); [now left|].
      destruct (get k0 o); try discriminate; reflexivity. }
    destruct (IH (flipped k0 o)) as (o' & Hrun & Hkeys & Hin & Hout).
    { intros k Hk. rewrite get_flipped.
      destruct (String.eqb k k0) eqn:Ek.
      - rewrite absv_null. apply Hnn. now left.
      - apply Hnn. now right. }
    exists o'. split; [exact Hrun|]. split; [now rewrite Hkeys, keys_flipped|].
    split.
    + intros k Hk. destruct (in_dec string_dec k ks) as [Hks|Hks].
      * rewrite (Hin k Hks), get_flipped.
        destruct (String.eqb k k0) eqn:Ek; [|reflexivity].
        apply String.eqb_eq in Ek. subst. apply absv_idem.
      * destruct Hk as [Hk|Hk]; [subst k|contradiction].
        rewrite (Hout k0 Hks), get_flipped, String.eqb_refl. reflexivity.
    + intros k Hk. rewrite Hout by (intros H; apply Hk; now right).
      rewrite get_flipped. destruct (String.eqb k k0) eqn:Ek; [|reflexivity].
      apply String.eqb_eq in Ek. subst. exfalso. apply Hk. now left.
Qed.



(** The loop over the keys ends normally or with the [null] error. *)
Lemma sanitize_cases (ks : list string) : forall o,
  (exists o', sanitize ks o = (Normal tt, o')) \/
  (exists k o', sanitize ks o = (Throw (PropertyIsNull k), o')).
Proof.
  induction ks as [|k ks IH]; intros o.
  - left. now exists o.
  - rewrite sanitize_cons. destruct (isNull (get k o)).
    + right. now exists k, o.
    + apply IH.
Qed.

(** ** The stages of [optimizeStepAndRepeat] *)

Lemma applyDefaults_run (o : object) :
  applyDefaults o = (Normal tt, defaulted o).
Proof. reflexivity. Qed.

Lemma keepReal_run (o : object) : keepReal o = (Normal tt, recorded o).
Proof. reflexivity. Qed.

Lemma get_defaulted (k : string) (o : object) :
  get k (defaulted o) =
  if String.eqb k "itemHeight" then nullish (get "itemHeight" o) VNull
  else if String.eqb k "itemWidth" then nullish (get "itemWidth" o) VNull
  else if String.eqb k "documentMargin"
       then nullish (get "documentMargin" o) (VNum (127 # 10))
  else if String.eqb k "documentHeight" then nullish (get "documentHeight" o) VNull
  else if String.eqb k "documentWidth" then nullish (get "documentWidth" o) VNull
  else get k o.
Proof.
  unfold defaulted, applyDefaults. cbv [bind read assign snd].
  rewrite !get_set. simpl. reflexivity.
Qed.

Lemma get_recorded (k : string) (o : object) :
  get k (recorded o) =
  if String.eqb k "documentHeightReal" then get "documentHeight" o
  else if String.eqb k "documentWidthReal" then get "documentWidth" o
  else get k o.
Proof.
  unfold recorded, keepReal. cbv [bind read assign snd].
  rewrite !get_set. simpl. reflexivity.
Qed.

Lemma numeric_request (w h m iw ih : Q) :
  numeric (request w h m iw ih) w h m iw ih.
Proof.
  constructor; try reflexivity.
  intros k. simpl.
  repeat match goal with
         | |- context [String.eqb k ?s] => destruct (String.eqb k s)
         end; discriminate.
Qed.

(** The object after the first three stages of a numeric request. *)
Lemma prepared (o : object) (w h m iw ih : Q) :
  numeric o w h m iw ih ->
  exists o2,
    sanitizeAll (recorded (defaulted o)) = (Normal tt, o2) /\
    keys o2 = keys (recorded (defaulted o)) /\
    (forall k, get k o2 = absv (get k (recorded (defaulted o)))).
Proof.
  intros [Hw Hh Hm Hiw Hih Hoth].
  set (o1 := recorded (defaulted o)).
  destruct (sanitize_normal (keys o1) o1) as (o2 & Hrun & Hkeys & Hin & Hout).
  { intros k _. unfold o1. rewrite get_recorded, !get_defaulted. simpl.
    rewrite Hm, Hiw, Hih, Hw, Hh. unfold nullish.
    repeat match goal with
           | |- context [String.eqb k ?s] => destruct (String.eqb k s) eqn:?
           end; try discriminate.
    intros Hnull. apply Hoth in Hnull.
    destruct Hnull as [->|[->| ->]]; discriminate. }
  exists o2. split; [|split].
  - unfold sanitizeAll, ownKeys. unfold bind. exact Hrun.
  - exact Hkeys.
  - intros k. destruct (in_dec string_dec k (keys o1)) as [H|H].
    + now apply Hin.
    + rewrite (Hout k H), (get_absent _ _ H). reflexivity.
Qed.

Lemma applyMargin_run (o : object) (w h m : Q) :
  get "documentMargin" o = VNum m ->
  get "documentWidth" o = VNum w ->
  get "documentHeight" o = VNum h ->
  applyMargin o =
  if neq m 0 then
    if ge 0 (w - m * 2) then (Throw TooMuchMarginWidth, margined o w h m)
    else if ge 0 (h - m * 2) then (Throw TooMuchMarginHeight, margined o w h m)
    else (Normal tt, margined o w h m)
  else (Normal tt, o).
Proof.
  intros Hm Hw Hh. unfold applyMargin.
  rewrite (bind_normal _ _ _ _ _ (readNum_num _ _ _ Hm)).
  destruct (neq m 0); [|reflexivity].
  rewrite (bind_normal _ _ _ _ _ (readNum_num _ _ _ Hw)).
  rewrite (bind_normal _ _ _ _ _ (readNum_num _ _ _ Hm)).
  unfold bind at 1, assign at 1.
  assert (Hh1 : get "documentHeight" (set "documentWidth" (VNum (w - m * 2)) o) = VNum h)
    by (rewrite get_set; exact Hh).
  assert (Hm1 : get "documentMargin" (set "documentWidth" (VNum (w - m * 2)) o) = VNum m)
    by (rewrite get_set; exact Hm).
  rewrite (bind_normal _ _ _ _ _ (readNum_num _ _ _ Hh1)).
  rewrite (bind_normal _ _ _ _ _ (readNum_num _ _ _ Hm1)).
  unfold bind at 1, assign at 1. fold (margined o w h m).
  assert (Hw2 : get "documentWidth" (margined o w h m) = VNum (w - m * 2))
    by (unfold margined; rewrite !get_set; reflexivity).
  assert (Hh2 : get "documentHeight" (margined o w h m) = VNum (h - m * 2))
    by (unfold margined; rewrite !get_set; reflexivity).
  rewrite (bind_normal _ _ _ _ _ (readNum_num _ _ _ Hw2)).
  destruct (ge 0 (w - m * 2)); [reflexivity|].
  rewrite (bind_normal _ _ _ _ _ (readNum_num _ _ _ Hh2)).
  destruct (ge 0 (h - m * 2)); reflexivity.
Qed.

(** ** The counting loops *)

Lemma fuelFor_enough (d s : Q) (fuel : nat) :
  0 <= d -> 0 < s -> (fuelFor d s <= fuel)%nat ->
  d < inject_Z (Z.of_nat fuel) * s.
Proof.
  intros Hd Hs Hfuel.
  assert (Hq : 0 <= d / s).
  { apply Qle_shift_div_l; [exact Hs|]. lra. }
  assert (Hfl : (0 <= Qfloor (d / s))%Z).
  { change 0%Z with (Qfloor 0). now apply Qfloor_resp_le. }
  assert (Hlt : d / s < inject_Z (Z.of_nat fuel)).
  { apply Qlt_le_trans with (inject_Z (Qfloor (d / s) + 1)).
    - apply Qlt_floor.
    - rewrite <- Zle_Qle. unfold fuelFor in Hfuel. lia. }
  assert (Hds : d == d / s * s) by (field; lra).
  rewrite Hds at 1. apply Qmult_lt_compat_r; assumption.
Qed.

Section CountLoop.

Variable out : Q -> Q -> bool.
Variables dim item : string.
Variable o : object.
Variables d s : Q.
Hypothesis Hdim : get dim o = VNum d.
Hypothesis Hitem : get item o = VNum s.

Lemma countLoop_step (fuel : nat) (accum : Q) (count : Z) :
  countLoop out dim item (S fuel) accum count o =
  if le 0 d then
    if out (accum + s) d then (Normal count, o)
    else countLoop out dim item fuel (accum + s) (count + 1)%Z o
  else (Normal count, o).
Proof.
  simpl. rewrite (bind_normal _ _ _ _ _ (readNum_num _ _ _ Hdim)).
  destruct (le 0 d); [|reflexivity].
  rewrite (bind_normal _ _ _ _ _ (readNum_num _ _ _ Hitem)).
  rewrite (bind_normal _ _ _ _ _ (readNum_num _ _ _ Hdim)).
  destruct (out (accum + s) d); reflexivity.
Qed.

Hypothesis Hd : 0 <= d.

(** With a positive item size the loop exits, whichever of the two
    tests it uses: both hold once the next item passes the bound. *)
Lemma countLoop_exits :
  0 < s ->
  (forall a, d < a -> out a d = true) ->
  forall (fuel : nat) (accum : Q) (count : Z),
    accum == inject_Z count * s ->
    accum <= d ->
    d - accum < inject_Z (Z.of_nat fuel) * s ->
    exists (n : Z) (accum' : Q),
      countLoop out dim item fuel accum count o = (Normal n, o) /\
      (count <= n)%Z /\
      accum' == inject_Z n * s /\
      accum' <= d /\
      out (accum' + s) d = true.
Proof.
  intros Hs Hout.
  induction fuel as [|fuel IH]; intros accum count Hacc Hle Hfuel.
  - exfalso. change (inject_Z (Z.of_nat 0)) with 0 in Hfuel. lra.
  - rewrite countLoop_step.
    replace (le 0 d) with true by (symmetry; now apply le_true).
    destruct (out (accum + s) d) eqn:E.
    + exists count, accum. repeat split; auto. lia.
    + assert (Hfit : accum + s <= d).
      { apply Qnot_lt_le. intros Hlt. rewrite (Hout _ Hlt) in E. discriminate. }
      destruct (IH (accum + s) (count + 1)%Z) as (n & a' & Hrun & Hn & Ha & Hb & Hc).
      * rewrite inject_Z_plus. change (inject_Z 1) with 1. rewrite Hacc. ring.
      * exact Hfit.
      * rewrite Nat2Z.inj_succ in Hfuel. unfold Z.succ in Hfuel.
        rewrite inject_Z_plus in Hfuel. change (inject_Z 1) with 1 in Hfuel.
        lra.
      * exists n, a'. repeat split; auto. lia.
Qed.

End CountLoop.

(** With an item size of zero the loop of [js/app.js] does not exit. *)
Lemma countLoop_zero (dim item : string) (o : object) (d s : Q) :
  get dim o = VNum d ->
  get item o = VNum s ->
  0 <= d ->
  s == 0 ->
  forall (fuel : nat) (accum : Q) (count : Z),
    accum <= d ->
    countLoop gt dim item fuel accum count o = (Diverge, o).
Proof.
  intros Hdim Hitem Hd Hs.
  induction fuel as [|fuel IH]; intros accum count Hle.
  - reflexivity.
  - rewrite (countLoop_step gt dim item o d s Hdim Hitem).
    replace (le 0 d) with true by (symmetry; now apply le_true).
    replace (gt (accum + s) d) with false by (symmetry; apply gt_false; lra).
    apply IH. lra.
Qed.

(** ** The result of a valid request *)

Lemma prepared_fields (o : object) (w h m iw ih : Q) :
  numeric o w h m iw ih ->
  let o1 := recorded (defaulted o) in
  get "documentWidth" o1 = VNum w /\
  get "documentHeight" o1 = VNum h /\
  get "documentMargin" o1 = VNum m /\
  get "itemWidth" o1 = VNum iw /\
  get "itemHeight" o1 = VNum ih /\
  get "documentWidthReal" o1 = VNum w /\
  get "documentHeightReal" o1 = VNum h.
Proof.
  intros [Hw Hh Hm Hiw Hih _]. cbv zeta.
  rewrite !get_recorded, !get_defaulted. simpl.
  rewrite Hw, Hh, Hm, Hiw, Hih. unfold nullish. repeat split.
Qed.

Section Valid.

Variable out : Q -> Q -> bool.
Hypothesis Hout : forall d a, d < a -> out a d = true.

Variable o : object.
Variables w h m iw ih : Q.
Hypothesis Hnum : numeric o w h m iw ih.
Hypothesis Hiw : ~ iw == 0.
Hypothesis Hih : ~ ih == 0.
Hypothesis HW : 0 < usable w m.
Hypothesis HH : 0 < usable h m.

Lemma optimizeWith_valid (fuel : nat) :
  (fuelFor (usable w m) (absQ iw) <= fuel)%nat ->
  (fuelFor (usable h m) (absQ ih) <= fuel)%nat ->
  exists (o' : object) (c r : Z) (accum : Q),
    optimizeWith out fuel o = (Normal tt, o') /\
    optimized o' w h m iw ih c r /\
    inject_Z c * absQ iw <= usable w m /\
    usable w m < (inject_Z c + 1) * absQ iw /\
    accum == inject_Z r * absQ ih /\
    accum <= usable h m /\
    out (accum + absQ ih) (usable h m) = true.
Proof.
  intros Hfc Hfr.
  destruct (prepared o w h m iw ih Hnum) as (o2 & Hrun2 & _ & Hget2).
  destruct (prepared_fields o w h m iw ih Hnum)
    as (F1 & F2 & F3 & F4 & F5 & F6 & F7).
  assert (G1 := Hget2 "documentWidth"). rewrite F1, absv_num in G1.
  assert (G2 := Hget2 "documentHeight"). rewrite F2, absv_num in G2.
  assert (G3 := Hget2 "documentMargin"). rewrite F3, absv_num in G3.
  assert (G4 := Hget2 "itemWidth"). rewrite F4, absv_num in G4.
  assert (G5 := Hget2 "itemHeight"). rewrite F5, absv_num in G5.
  assert (G6 := Hget2 "documentWidthReal"). rewrite F6, absv_num in G6.
  assert (G7 := Hget2 "documentHeightReal"). rewrite F7, absv_num in G7.
  set (o3 := if neq (absQ m) 0
             then margined o2 (absQ w) (absQ h) (absQ m) else o2).
  assert (Hrun3 : applyMargin o2 = (Normal tt, o3)).
  { rewrite (applyMargin_run o2 _ _ _ G3 G1 G2). unfold o3.
    unfold usable in HW, HH. destruct (neq (absQ m) 0); [|reflexivity].
    replace (ge 0 (absQ w - absQ m * 2)) with false
      by (symmetry; now apply ge_false).
    replace (ge 0 (absQ h - absQ m * 2)) with false
      by (symmetry; now apply ge_false).
    reflexivity. }
  assert (K1 : get "documentWidth" o3 = VNum (usable w m)).
  { unfold o3, usable, margined. destruct (neq (absQ m) 0); [|exact G1].
    rewrite !get_set. reflexivity. }
  assert (K2 : get "documentHeight" o3 = VNum (usable h m)).
  { unfold o3, usable, margined. destruct (neq (absQ m) 0); [|exact G2].
    rewrite !get_set. reflexivity. }
  assert (Kother : forall k, String.eqb k "documentWidth" = false ->
                             String.eqb k "documentHeight" = false ->
                             get k o3 = get k o2).
  { intros k E1 E2. unfold o3, margined.
    destruct (neq (absQ m) 0); [|reflexivity].
    rewrite !get_set, E1, E2. reflexivity. }
  assert (K4 : get "itemWidth" o3 = VNum (absQ iw))
    by (rewrite Kother; [exact G4|reflexivity|reflexivity]).
  assert (K5 : get "itemHeight" o3 = VNum (absQ ih))
    by (rewrite Kother; [exact G5|reflexivity|reflexivity]).
  destruct (countLoop_exits gt "documentWidth" "itemWidth" o3 _ _ K1 K4
              (Qlt_le_weak _ _ HW) (absQ_pos _ Hiw)
              (fun a Ha => proj2 (gt_true a _) Ha) fuel 0 0%Z)
    as (c & ac & Hc & Hc0 & Hac & Hacle & Hcout).
  { change (inject_Z 0) with 0. ring. }
  { now apply Qlt_le_weak. }
  { assert (X := fuelFor_enough _ _ fuel (Qlt_le_weak _ _ HW) (absQ_pos _ Hiw) Hfc).
    lra. }
  destruct (countLoop_exits out "documentHeight" "itemHeight" o3 _ _ K2 K5
              (Qlt_le_weak _ _ HH) (absQ_pos _ Hih)
              (Hout _) fuel 0 0%Z)
    as (r & ar & Hr & Hr0 & Har & Harle & Hrout).
  { change (inject_Z 0) with 0. ring. }
  { now apply Qlt_le_weak. }
  { assert (X := fuelFor_enough _ _ fuel (Qlt_le_weak _ _ HH) (absQ_pos _ Hih) Hfr).
    lra. }
  exists (set "maxColumns" (VNum (inject_Z c))
            (set "maxRows" (VNum (inject_Z r)) o3)), c, r, ar.
  split.
  { unfold optimizeWith.
    rewrite (bind_normal _ _ _ _ _ (applyDefaults_run o)).
    rewrite (bind_normal _ _ _ _ _ (keepReal_run _)).
    rewrite (bind_normal _ _ _ _ _ Hrun2).
    rewrite (bind_normal _ _ _ _ _ Hrun3).
    unfold determine.
    rewrite (bind_normal _ _ _ _ _ Hc).
    rewrite (bind_normal _ _ _ _ _ Hr).
    reflexivity. }
  split.
  { constructor; rewrite ?get_set; simpl; auto;
      rewrite Kother; auto. }
  apply gt_true in Hcout.
  repeat split; auto; lra.
Qed.

End Valid.

(** ** Every run of the optimizer *)

Lemma In_keys_set (k k' : string) (v : value) (o : object) :
  In k' (keys (set k v o)) <-> k' = k \/ In k' (keys o).
Proof.
  rewrite keys_set. destruct (in_dec string_dec k (keys o)) as [H|H].
  - split; [now right|]. intros [->|H']; assumption.
  - rewrite in_app_iff. simpl. split.
    + intros [H'|[H'|[]]]; [now right|now left].
    + intros [->|H']; [right; now left|now left].
Qed.

Lemma get_present (k : string) (o : object) :
  get k o <> VUndefined -> In k (keys o).
Proof.
  intros H. destruct (in_dec string_dec k (keys o)) as [Hin|Hin]; [exact Hin|].
  now rewrite (get_absent _ _ Hin) in H.
Qed.

Lemma keys_defaulted (k : string) (o : object) :
  In k (keys (defaulted o)) <->
  k = "itemHeight" \/ k = "itemWidth" \/ k = "documentMargin" \/
  k = "documentHeight" \/ k = "documentWidth" \/ In k (keys o).
Proof.
  unfold defaulted, applyDefaults. cbv [bind read assign snd].
  rewrite !In_keys_set. tauto.
Qed.

Lemma keys_recorded (k : string) (o : object) :
  In k (keys (recorded o)) <->
  k = "documentHeightReal" \/ k = "documentWidthReal" \/ In k (keys o).
Proof.
  unfold recorded, keepReal. cbv [bind read assign snd].
  rewrite !In_keys_set. tauto.
Qed.

(** When the loop over the keys ends normally, none of them was [null]. *)
Lemma sanitize_inv_normal (ks : list string) : forall o o',
  sanitize ks o = (Normal tt, o') ->
  forall k, In k ks -> get k o <> VNull.
Proof.
  induction ks as [|k0 ks IH]; intros o o' Hrun k Hk; [contradiction|].
  rewrite sanitize_cons in Hrun.
  destruct (isNull (get k0 o)) eqn:E; [discriminate|].
  destruct (string_dec k k0) as [->|Hne].
  - intros Hnull. rewrite Hnull in E. discriminate.
  - destruct Hk as [Hk|Hk]; [congruence|].
    specialize (IH _ _ Hrun k Hk). rewrite get_flipped in IH.
    destruct (String.eqb k k0) eqn:Ek; [|exact IH].
    apply String.eqb_eq in Ek. contradiction.
Qed.

(** The requests that pass the loop over the keys are the numeric ones. *)
Lemma sanitizeAll_numeric (o o2 : object) :
  sanitizeAll (recorded (defaulted o)) = (Normal tt, o2) ->
  exists w h m iw ih, numeric o w h m iw ih.
Proof.
  intros Hrun. set (o1 := recorded (defaulted o)) in *.
  assert (Hnn : forall k, In k (keys o1) -> get k o1 <> VNull)
    by (apply (sanitize_inv_normal _ _ _ Hrun)).
  assert (Hfield : forall f,
             In f ["itemHeight"; "itemWidth"; "documentHeight"; "documentWidth"] ->
             get f o1 = nullish (get f o) VNull).
  { intros f Hf. unfold o1. simpl in Hf.
    destruct Hf as [<-|[<-|[<-|[<-|[]]]]];
      rewrite get_recorded, !get_defaulted; reflexivity. }
  assert (Hnum : forall f,
             In f ["itemHeight"; "itemWidth"; "documentHeight"; "documentWidth"] ->
             exists q, get f o = VNum q).
  { intros f Hf. assert (Hin : In f (keys o1)).
    { unfold o1. rewrite keys_recorded, keys_defaulted.
      simpl in Hf. intuition auto. }
    specialize (Hnn f Hin). rewrite (Hfield f Hf) in Hnn.
    destruct (get f o) as [| |q]; try (now exfalso; apply Hnn).
    now exists q. }
  destruct (Hnum "documentWidth") as [w Hw]; [simpl; tauto|].
  destruct (Hnum "documentHeight") as [h Hh]; [simpl; tauto|].
  destruct (Hnum "itemWidth") as [iw Hiw]; [simpl; tauto|].
  destruct (Hnum "itemHeight") as [ih Hih]; [simpl; tauto|].
  assert (Hm : exists m, nullish (get "documentMargin" o) (VNum (127 # 10)) = VNum m).
  { destruct (get "documentMargin" o) as [| |q]; eexists; reflexivity. }
  destruct Hm as [m Hm].
  exists w, h, m, iw, ih. constructor; auto.
  intros k Hnull.
  destruct (string_dec k "documentMargin") as [->|N1]; [now left|].
  destruct (string_dec k "documentWidthReal") as [->|N2]; [right; now left|].
  destruct (string_dec k "documentHeightReal") as [->|N3]; [right; now right|].
  exfalso.
  assert (Hin : In k (keys o1)).
  { unfold o1. rewrite keys_recorded, keys_defaulted.
    do 7 right. apply get_present. rewrite Hnull. discriminate. }
  apply (Hnn k Hin). unfold o1.
  apply String.eqb_neq in N1, N2, N3.
  rewrite get_recorded, N3, N2, get_defaulted, N1.
  destruct (String.eqb k "itemHeight") eqn:E1;
    [apply String.eqb_eq in E1; subst; congruence|].
  destruct (String.eqb k "itemWidth") eqn:E2;
    [apply String.eqb_eq in E2; subst; congruence|].
  destruct (String.eqb k "documentHeight") eqn:E3;
    [apply String.eqb_eq in E3; subst; congruence|].
  destruct (String.eqb k "documentWidth") eqn:E4;
    [apply String.eqb_eq in E4; subst; congruence|].
  exact Hnull.
Qed.

(** The counting loop leaves the object as it is, never throws, and
    with numbers in its two properties never meets [NaN]; its count
    never goes down, and more fuel does not change a count it reached. *)
Lemma countLoop_unfold (out : Q -> Q -> bool) (dim item : string) (o : object)
    (fuel : nat) (accum : Q) (count : Z) :
  countLoop out dim item (S fuel) accum count o =
  match get dim o with
  | VNum d =>
      if le 0 d then
        match get item o with
        | VNum s =>
            if out (accum + s) d then (Normal count, o)
            else countLoop out dim item fuel (accum + s) (count + 1)%Z o
        | _ => (NotANumber, o)
        end
      else (Normal count, o)
  | _ => (NotANumber, o)
  end.
Proof.
  simpl. unfold bind at 1. unfold readNum at 1.
  destruct (get dim o) as [| |d] eqn:Hd; try reflexivity.
  destruct (le 0 d); [|reflexivity].
  unfold bind at 1. unfold readNum at 1.
  destruct (get item o) as [| |s] eqn:Hs; try reflexivity.
  unfold bind at 1. unfold readNum at 1. rewrite Hd.
  destruct (out (accum + s) d); reflexivity.
Qed.

Lemma countLoop_state (out : Q -> Q -> bool) (dim item : string) (o : object) :
  forall fuel accum count, snd (countLoop out dim item fuel accum count o) = o.
Proof.
  induction fuel as [|fuel IH]; intros accum count; [reflexivity|].
  rewrite countLoop_unfold.
  destruct (get dim o) as [| |d]; try reflexivity.
  destruct (le 0 d); [|reflexivity].
  destruct (get item o) as [| |s]; try reflexivity.
  destruct (out (accum + s) d); [reflexivity|apply IH].
Qed.

Lemma countLoop_cases (out : Q -> Q -> bool) (dim item : string) (o : object)
    (d s : Q) :
  get dim o = VNum d -> get item o = VNum s ->
  forall fuel accum count,
    (exists n, countLoop out dim item fuel accum count o = (Normal n, o) /\
               (count <= n)%Z) \/
    countLoop out dim item fuel accum count o = (Diverge, o).
Proof.
  intros Hdim Hitem. induction fuel as [|fuel IH]; intros accum count.
  - right. reflexivity.
  - rewrite (countLoop_step out dim item o d s Hdim Hitem).
    destruct (le 0 d); [|left; exists count; split; [reflexivity|lia]].
    destruct (out (accum + s) d); [left; exists count; split; [reflexivity|lia]|].
    destruct (IH (accum + s) (count + 1)%Z) as [(n & Hn & Hle)|Hdiv].
    + left. exists n. split; [exact Hn|lia].
    + right. exact Hdiv.
Qed.


Section Runs.

Variable out : Q -> Q -> bool.

(** The two loops and the two final assignments, on an object whose
    dimensions and item sizes are numbers. *)
Lemma determine_run (o3 : object) (fuel : nat) (W H sw sh : Q) :
  get "documentWidth" o3 = VNum W ->
  get "itemWidth" o3 = VNum sw ->
  get "documentHeight" o3 = VNum H ->
  get "itemHeight" o3 = VNum sh ->
  determine out fuel o3 =
  match countLoop gt "documentWidth" "itemWidth" fuel 0 0%Z o3 with
  | (Normal c, _) =>
      match countLoop out "documentHeight" "itemHeight" fuel 0 0%Z o3 with
      | (Normal r, _) =>
          (Normal tt,
           set "maxColumns" (VNum (inject_Z c))
             (set "maxRows" (VNum (inject_Z r)) o3))
      | _ => (Diverge, o3)
      end
  | _ => (Diverge, o3)
  end.
Proof.
  intros HW Hsw HH Hsh. unfold determine.
  destruct (countLoop_cases gt _ _ o3 W sw HW Hsw fuel 0 0%Z)
    as [(c & Hc & _)|Hc]; rewrite Hc;
    [rewrite (bind_normal _ _ _ _ _ Hc)
    |rewrite (bind_diverge _ _ _ _ Hc); reflexivity].
  destruct (countLoop_cases out _ _ o3 H sh HH Hsh fuel 0 0%Z)
    as [(r & Hr & _)|Hr]; rewrite Hr;
    [rewrite (bind_normal _ _ _ _ _ Hr)
    |rewrite (bind_diverge _ _ _ _ Hr)]; reflexivity.
Qed.

(** A numeric request passes the loop over the keys; what follows is
    decided by the magnitudes of its fields. *)
Lemma optimizeWith_numeric (o : object) (w h m iw ih : Q) :
  numeric o w h m iw ih ->
  exists o2,
    sanitizeAll (recorded (defaulted o)) = (Normal tt, o2) /\
    get "documentWidth" o2 = VNum (absQ w) /\
    get "documentHeight" o2 = VNum (absQ h) /\
    get "documentMargin" o2 = VNum (absQ m) /\
    get "itemWidth" o2 = VNum (absQ iw) /\
    get "itemHeight" o2 = VNum (absQ ih) /\
    get "documentWidthReal" o2 = VNum (absQ w) /\
    get "documentHeightReal" o2 = VNum (absQ h) /\
    forall fuel,
      optimizeWith out fuel o =
      if neq (absQ m) 0 then
        if ge 0 (absQ w - absQ m * 2)
        then (Throw TooMuchMarginWidth, margined o2 (absQ w) (absQ h) (absQ m))
        else if ge 0 (absQ h - absQ m * 2)
        then (Throw TooMuchMarginHeight, margined o2 (absQ w) (absQ h) (absQ m))
        else determine out fuel (margined o2 (absQ w) (absQ h) (absQ m))
      else determine out fuel o2.
Proof.
  intros Hnum.
  destruct (prepared o w h m iw ih Hnum) as (o2 & Hrun2 & _ & Hget2).
  destruct (prepared_fields o w h m iw ih Hnum)
    as (F1 & F2 & F3 & F4 & F5 & F6 & F7).
  assert (G1 := Hget2 "documentWidth"). rewrite F1, absv_num in G1.
  assert (G2 := Hget2 "documentHeight"). rewrite F2, absv_num in G2.
  assert (G3 := Hget2 "documentMargin"). rewrite F3, absv_num in G3.
  assert (G4 := Hget2 "itemWidth"). rewrite F4, absv_num in G4.
  assert (G5 := Hget2 "itemHeight"). rewrite F5, absv_num in G5.
  assert (G6 := Hget2 "documentWidthReal"). rewrite F6, absv_num in G6.
  assert (G7 := Hget2 "documentHeightReal"). rewrite F7, absv_num in G7.
  exists o2. repeat (split; [assumption|]).
  intros fuel. unfold optimizeWith.
  rewrite (bind_normal _ _ _ _ _ (applyDefaults_run o)).
  rewrite (bind_normal _ _ _ _ _ (keepReal_run _)).
  rewrite (bind_normal _ _ _ _ _ Hrun2).
  unfold bind at 1. rewrite (applyMargin_run o2 _ _ _ G3 G1 G2).
  destruct (neq (absQ m) 0); [|reflexivity].
  destruct (ge 0 (absQ w - absQ m * 2)); [reflexivity|].
  destruct (ge 0 (absQ h - absQ m * 2)); reflexivity.
Qed.

(** A request is numeric, or the call throws the [null] error. *)
Lemma optimizeWith_classify (o : object) :
  (exists w h m iw ih, numeric o w h m iw ih) \/
  (exists k o',
      sanitizeAll (recorded (defaulted o)) = (Throw (PropertyIsNull k), o') /\
      forall fuel, optimizeWith out fuel o = (Throw (PropertyIsNull k), o')).
Proof.
  destruct (sanitize_cases (keys (recorded (defaulted o))) (recorded (defaulted o)))
    as [(o2 & Hrun)|(k & o' & Hrun)].
  - left. now apply (sanitizeAll_numeric o o2).
  - right. exists k, o'.
    assert (Hrun' : sanitizeAll (recorded (defaulted o))
                    = (Throw (PropertyIsNull k), o')) by exact Hrun.
    split; [exact Hrun'|]. clear Hrun. rename Hrun' into Hrun.
    intros fuel. unfold optimizeWith.
    rewrite (bind_normal _ _ _ _ _ (applyDefaults_run o)).
    rewrite (bind_normal _ _ _ _ _ (keepReal_run _)).
    now rewrite (bind_throw _ _ _ _ _ Hrun).
Qed.

(** The fields of the object after the margin stage. *)
Lemma margined_fields (o2 : object) (w h m : Q) (k : string) :
  get k (margined o2 w h m) =
  if String.eqb k "documentHeight" then VNum (h - m * 2)
  else if String.eqb k "documentWidth" then VNum (w - m * 2)
  else get k o2.
Proof. unfold margined. now rewrite !get_set. Qed.

(** A call that returns was given a numeric request, and leaves the
    normalised fields, the usable dimensions, the real dimensions and
    the counts of its two loops. *)
Lemma optimizeWith_normal (o o' : object) (fuel : nat) :
  optimizeWith out fuel o = (Normal tt, o') ->
  exists w h m iw ih c r o3,
    numeric o w h m iw ih /\
    optimized o' w h m iw ih c r /\
    0 < usable w m + (if neq (absQ m) 0 then 0 else 1) /\
    0 < usable h m + (if neq (absQ m) 0 then 0 else 1) /\
    get "documentWidth" o3 = VNum (usable w m) /\
    get "itemWidth" o3 = VNum (absQ iw) /\
    get "documentHeight" o3 = VNum (usable h m) /\
    get "itemHeight" o3 = VNum (absQ ih) /\
    countLoop gt "documentWidth" "itemWidth" fuel 0 0%Z o3 = (Normal c, o3) /\
    countLoop out "documentHeight" "itemHeight" fuel 0 0%Z o3 = (Normal r, o3) /\
    o' = set "maxColumns" (VNum (inject_Z c))
           (set "maxRows" (VNum (inject_Z r)) o3).
Proof.
  intros Hrun.
  destruct (optimizeWith_classify o)
    as [(w & h & m & iw & ih & Hnum)|(k & o'' & _ & Hthrow)];
    [|rewrite Hthrow in Hrun; discriminate].
  destruct (optimizeWith_numeric o w h m iw ih Hnum)
    as (o2 & _ & G1 & G2 & G3 & G4 & G5 & G6 & G7 & Heq).
  rewrite Heq in Hrun. clear Heq.
  set (o3 := if neq (absQ m) 0
             then margined o2 (absQ w) (absQ h) (absQ m) else o2).
  assert (K : forall k, get k o3 =
              if String.eqb k "documentHeight" then VNum (usable h m)
              else if String.eqb k "documentWidth" then VNum (usable w m)
              else get k o2).
  { intros k. unfold o3, usable. destruct (neq (absQ m) 0).
    - apply margined_fields.
    - destruct (String.eqb k "documentHeight") eqn:E1;
        [apply String.eqb_eq in E1; now subst|].
      destruct (String.eqb k "documentWidth") eqn:E2;
        [apply String.eqb_eq in E2; now subst|reflexivity]. }
  assert (Hpos : 0 < usable w m + (if neq (absQ m) 0 then 0 else 1) /\
                 0 < usable h m + (if neq (absQ m) 0 then 0 else 1) /\
                 determine out fuel o3 = (Normal tt, o')).
  { unfold usable, o3. destruct (neq (absQ m) 0).
    - destruct (ge 0 (absQ w - absQ m * 2)) eqn:E1; [discriminate|].
      destruct (ge 0 (absQ h - absQ m * 2)) eqn:E2; [discriminate|].
      apply ge_false in E1, E2. repeat split; [lra|lra|exact Hrun].
    - pose proof (absQ_nonneg w). pose proof (absQ_nonneg h).
      repeat split; [lra|lra|exact Hrun]. }
  destruct Hpos as (P1 & P2 & Hdet).
  assert (K1 := K "documentWidth"). assert (K2 := K "documentHeight").
  assert (K4 := K "itemWidth"). assert (K5 := K "itemHeight").
  simpl in K1, K2, K4, K5. rewrite G4 in K4. rewrite G5 in K5.
  rewrite (determine_run o3 fuel _ _ _ _ K1 K4 K2 K5) in Hdet.
  destruct (countLoop_cases gt _ _ o3 _ _ K1 K4 fuel 0 0%Z)
    as [(c & Hc & Hc0)|Hc]; rewrite Hc in Hdet; [|discriminate].
  destruct (countLoop_cases out _ _ o3 _ _ K2 K5 fuel 0 0%Z)
    as [(r & Hr & Hr0)|Hr]; rewrite Hr in Hdet; [|discriminate].
  injection Hdet as <-.
  exists w, h, m, iw, ih, c, r, o3.
  split; [exact Hnum|]. split.
  { constructor; rewrite ?get_set; simpl; rewrite ?K; simpl; auto. }
  repeat (split; [assumption|]). reflexivity.
Qed.

End Runs.

(** ** The packing *)


(** With an item size of zero a request that passes the checks makes
    [js/app.js] loop for ever, whatever the fuel. *)
Lemma AppJs_zero_item_diverges (o : object) (w h m iw ih : Q) :
  numeric o w h m iw ih ->
  iw == 0 \/ ih == 0 ->
  0 < usable w m -> 0 < usable h m ->
  forall fuel, fst (AppJs.optimizeStepAndRepeat fuel o) = Diverge.
Proof.
  intros Hnum Hzero HW HH fuel.
  destruct (optimizeWith_numeric gt o w h m iw ih Hnum)
    as (o2 & _ & G1 & G2 & G3 & G4 & G5 & _ & _ & Heq).
  unfold AppJs.optimizeStepAndRepeat. rewrite Heq. clear Heq.
  set (o3 := if neq (absQ m) 0
             then margined o2 (absQ w) (absQ h) (absQ m) else o2).
  assert (K1 : get "documentWidth" o3 = VNum (usable w m)).
  { unfold o3, usable. destruct (neq (absQ m) 0); [|exact G1].
    now rewrite margined_fields. }
  assert (K2 : get "documentHeight" o3 = VNum (usable h m)).
  { unfold o3, usable. destruct (neq (absQ m) 0); [|exact G2].
    now rewrite margined_fields. }
  assert (K4 : get "itemWidth" o3 = VNum (absQ iw)).
  { unfold o3. destruct (neq (absQ m) 0); [|exact G4].
    now rewrite margined_fields. }
  assert (K5 : get "itemHeight" o3 = VNum (absQ ih)).
  { unfold o3. destruct (neq (absQ m) 0); [|exact G5].
    now rewrite margined_fields. }
  assert (Hdet : fst (determine gt fuel o3) = Diverge).
  { rewrite (determine_run gt o3 fuel _ _ _ _ K1 K4 K2 K5).
    destruct Hzero as [Hz|Hz].
    - rewrite (countLoop_zero _ _ o3 _ _ K1 K4 (Qlt_le_weak _ _ HW)
                 (absQ_zero _ Hz) fuel 0 0%Z (Qlt_le_weak _ _ HW)).
      reflexivity.
    - destruct (countLoop gt "documentWidth" "itemWidth" fuel 0 0%Z o3)
        as [[c| | |] ?]; try reflexivity.
      rewrite (countLoop_zero _ _ o3 _ _ K2 K5 (Qlt_le_weak _ _ HH)
                 (absQ_zero _ Hz) fuel 0 0%Z (Qlt_le_weak _ _ HH)).
      reflexivity. }
  unfold usable in HW, HH. fold o3. unfold o3 in *.
  destruct (neq (absQ m) 0); [|exact Hdet].
  replace (ge 0 (absQ w - absQ m * 2)) with false
    by (symmetry; now apply ge_false).
  replace (ge 0 (absQ h - absQ m * 2)) with false
    by (symmetry; now apply ge_false).
  exact Hdet.
Qed.

(** C1 (the older variant breaks the claim).  The claim asks for a
    packing that is maximal on both axes in both variants, an exact fit
    included.  In the older variant the row loop stops on
    [accum + itemHeight >= documentHeight]: for a 100 by 100 document
    without margin and items of 50 by 50 it counts two columns but one
    row, although a second row ends exactly on the edge, so
    [(maxRows + 1) * itemHeight > documentHeight] fails.  On the same
    request [js/app.js] counts two rows. *)
Theorem C1_older_row_loop_drops_exact_fit :
  forall fuel : nat,
    (exists result,
        Older.optimizeStepAndRepeat (3 + fuel) (request 100 100 0 50 50)
        = (Normal tt, result) /\
        get "documentHeight" result = VNum 100 /\
        get "itemHeight" result = VNum 50 /\
        get "maxColumns" result = VNum 2 /\
        get "maxRows" result = VNum 1) /\
    (1 + 1) * 50 <= 100 /\
    (exists result,
        AppJs.optimizeStepAndRepeat (3 + fuel) (request 100 100 0 50 50)
        = (Normal tt, result) /\
        get "maxColumns" result = VNum 2 /\
        get "maxRows" result = VNum 2).
Proof.
  intros fuel. split; [|split].
  - eexists. split; [reflexivity|]. repeat split.
  - lra.
  - eexists. split; [reflexivity|]. repeat split.
Qed.

(** C2 (the code breaks the claim).  The claim asks for an
    [InvalidItemSize] error, before any loop, when an item dimension is
    zero.  The code has no such check: with [itemWidth = 0] (and with
    [itemHeight = 0]) a request that passes the other checks enters the
    counting loop, where [accum + 0 > documentWidth] never holds, and
    the call neither throws nor returns, however much fuel it is given. *)
Theorem C2_zero_item_size_never_returns :
  (forall fuel : nat,
      fst (AppJs.optimizeStepAndRepeat fuel (request 100 100 0 0 50)) = Diverge) /\
  (forall fuel : nat,
      fst (AppJs.optimizeStepAndRepeat fuel (request 100 100 0 50 0)) = Diverge).
Proof.
  split; intros fuel.
  - apply (AppJs_zero_item_diverges _ 100 100 0 0 50).
    + apply numeric_request.
    + left. reflexivity.
    + reflexivity.
    + reflexivity.
  - apply (AppJs_zero_item_diverges _ 100 100 0 50 0).
    + apply numeric_request.
    + right. reflexivity.
    + reflexivity.
    + reflexivity.
Qed.

(** In exact arithmetic the loops end.  A request with its five fields
    present, both item dimensions strictly positive and both usable
    dimensions positive makes the optimizer return, in both variants,
    when numbers are exact rationals: each loop exits within one
    iteration more than the whole quotient of the usable dimension by
    the item size. *)
Lemma optimizer_terminates_in_exact_arithmetic (o : object) (w h m iw ih : Q)
    (fuel : nat) :
  numeric o w h m iw ih ->
  0 < iw -> 0 < ih ->
  0 < usable w m -> 0 < usable h m ->
  (fuelFor (usable w m) iw <= fuel)%nat ->
  (fuelFor (usable h m) ih <= fuel)%nat ->
  (exists o', AppJs.optimizeStepAndRepeat fuel o = (Normal tt, o')) /\
  (exists o', Older.optimizeStepAndRepeat fuel o = (Normal tt, o')).
Proof.
  intros Hnum Hiw Hih HW HH Hfc Hfr.
  assert (Ziw : ~ iw == 0) by lra. assert (Zih : ~ ih == 0) by lra.
  rewrite <- (absQ_of_nonneg iw) in Hfc by lra.
  rewrite <- (absQ_of_nonneg ih) in Hfr by lra.
  split.
  - destruct (optimizeWith_valid gt (fun d a Ha => proj2 (gt_true a d) Ha)
                o w h m iw ih Hnum Ziw Zih HW HH fuel Hfc Hfr)
      as (o' & _ & _ & _ & Hrun & _).
    now exists o'.
  - destruct (optimizeWith_valid ge
                (fun d a Ha => proj2 (ge_true a d) (Qlt_le_weak _ _ Ha))
                o w h m iw ih Hnum Ziw Zih HW HH fuel Hfc Hfr)
      as (o' & _ & _ & _ & Hrun & _).
    now exists o'.
Qed.

(** ** The loops on doubles *)

Section Doubles.

Import Binary64.
Local Open Scope Z_scope.

(** Shifting and rounding a mantissa that is not negative gives one
    that is not negative. *)
Lemma iter_pos_invariant {A : Type} (f : A -> A) (P : A -> Prop) :
  (forall x, P x -> P (f x)) ->
  forall n x, P x -> P (iter_pos f n x).
Proof.
  intros Hf. induction n as [n IH|n IH|]; intros x Hx; simpl; auto.
Qed.

Lemma shr_1_nonneg (mrs : shr_record) :
  0 <= shr_m mrs -> 0 <= shr_m (shr_1 mrs).
Proof.
  destruct mrs as [m r s]. destruct m as [|[p|p|]|p]; simpl; lia.
Qed.

Lemma shr_nonneg (mrs : shr_record) (e n : Z) :
  0 <= shr_m mrs -> 0 <= shr_m (fst (shr mrs e n)).
Proof.
  intros H. destruct n as [|p|p]; simpl; try exact H.
  apply (iter_pos_invariant shr_1 (fun x => 0 <= shr_m x)); [|exact H].
  apply shr_1_nonneg.
Qed.

Lemma shr_fexp_nonneg (m e : Z) (l : location) :
  0 <= m -> 0 <= shr_m (fst (shr_fexp prec emax m e l)).
Proof.
  intros H. unfold shr_fexp. apply shr_nonneg.
  destruct l as [|[]]; exact H.
Qed.

Lemma round_nearest_even_nonneg (m : Z) (l : location) :
  0 <= m -> 0 <= round_nearest_even m l.
Proof.
  intros H. destruct l as [|[]]; simpl; try lia.
  destruct (Z.even m); lia.
Qed.

Lemma binary_round_aux_nonneg (m e : Z) (l : location) :
  0 <= m -> nonneg (binary_round_aux prec emax false m e l).
Proof.
  intros H. unfold binary_round_aux.
  pose proof (shr_fexp_nonneg m e l H) as H1.
  destruct (shr_fexp prec emax m e l) as [mrs' e']. simpl in H1.
  pose proof (shr_fexp_nonneg _ e' loc_Exact
                (round_nearest_even_nonneg _ (loc_of_shr_record mrs') H1)) as H2.
  destruct (shr_fexp prec emax
              (round_nearest_even (shr_m mrs') (loc_of_shr_record mrs')) e' loc_Exact)
    as [mrs'' e'']. simpl in H2.
  destruct (shr_m mrs'') as [|p|p]; simpl.
  - exact I.
  - destruct (e'' <=? _); exact I.
  - lia.
Qed.

(** A sum with a positive double is never [NaN] and never negative. *)
Lemma plus_nonneg (a : number) (m : positive) (e : Z) :
  nonneg a -> nonneg (plus a (S754_finite false m e)).
Proof.
  destruct a as [[]|[]| |[] ma ea]; simpl; intros H; try contradiction; try exact I.
  unfold binary_normalize, binary_round.
  destruct (shl_align _ _ _) as [mz ez] eqn:E.
  destruct (shl_align ma ea _) as [mz1 ez1].
  destruct (shl_align m e _) as [mz2 ez2].
  simpl in *.
  destruct (shl_align _ _ _) as [mz3 ez3].
  apply binary_round_aux_nonneg. lia.
Qed.

Lemma gt_Infinity (x : number) : nonneg x -> gt x Infinity = false.
Proof.
  destruct x as [[]|[]| |[] m e]; simpl; intros H; try contradiction; reflexivity.
Qed.

(** One iteration of the loop. *)
Lemma countLoop_S (out : number -> number -> bool) (dim item : string)
    (fuel : nat) (accum count : number) (o : object) :
  countLoop out dim item (S fuel) accum count o =
  if le (integer 0) (toNumber (get dim o)) then
    if out (plus accum (toNumber (get item o))) (toNumber (get dim o))
    then (Normal count, o)
    else countLoop out dim item fuel (plus accum (toNumber (get item o)))
           (plus count (integer 1)) o
  else (Normal count, o).
Proof.
  cbn [countLoop]. unfold bind, readNum, ret.
  destruct (le _ _); [|reflexivity].
  destruct (out _ _); reflexivity.
Qed.

(** With an infinite dimension the loop does not exit. *)
Lemma countLoop_Infinity (dim item : string) (o : object) (m : positive) (e : Z) :
  get dim o = VNum Infinity ->
  get item o = VNum (S754_finite false m e) ->
  forall fuel accum count,
    nonneg accum ->
    countLoop gt dim item fuel accum count o = (Diverge, o).
Proof.
  intros Hd Hs. induction fuel as [|fuel IH]; intros accum count Ha.
  - reflexivity.
  - rewrite countLoop_S, Hd, Hs. simpl toNumber.
    change (le (integer 0) Infinity) with true. cbv iota.
    rewrite gt_Infinity by (now apply plus_nonneg).
    apply IH. now apply plus_nonneg.
Qed.

(** ** Exact sums *)

(** The number of binary digits of a positive number. *)
Lemma digits2_pos_bounds (p : positive) :
  2 ^ (Z.pos (digits2_pos p) - 1) <= Z.pos p < 2 ^ Z.pos (digits2_pos p).
Proof.
  induction p as [p IH|p IH|]; simpl digits2_pos.
  - rewrite Pos2Z.inj_succ.
    replace (Z.succ (Z.pos (digits2_pos p)) - 1)
      with (Z.succ (Z.pos (digits2_pos p) - 1)) by lia.
    rewrite !Z.pow_succ_r by lia. lia.
  - rewrite Pos2Z.inj_succ.
    replace (Z.succ (Z.pos (digits2_pos p)) - 1)
      with (Z.succ (Z.pos (digits2_pos p) - 1)) by lia.
    rewrite !Z.pow_succ_r by lia. lia.
  - simpl. lia.
Qed.

Lemma digits2_pos_unique (p : positive) (d : Z) :
  2 ^ (d - 1) <= Z.pos p < 2 ^ d -> Z.pos (digits2_pos p) = d.
Proof.
  intros [Hlo Hhi]. pose proof (digits2_pos_bounds p) as [Blo Bhi].
  destruct (Z.lt_trichotomy (Z.pos (digits2_pos p)) d) as [H|[H|H]].
  - exfalso.
    assert (2 ^ Z.pos (digits2_pos p) <= 2 ^ (d - 1))
      by (apply Z.pow_le_mono_r; lia).
    lia.
  - exact H.
  - exfalso.
    assert (0 <= d \/ d < 0) as [Hd|Hd] by lia.
    + assert (2 ^ d <= 2 ^ (Z.pos (digits2_pos p) - 1))
        by (apply Z.pow_le_mono_r; lia).
      lia.
    + rewrite (Z.pow_neg_r 2 d) in Hhi by lia. lia.
Qed.

Lemma digits2_pos_shift (M q : positive) (k : Z) :
  0 <= k -> Z.pos M = Z.pos q * 2 ^ k ->
  Z.pos (digits2_pos M) = Z.pos (digits2_pos q) + k.
Proof.
  intros Hk HM. apply digits2_pos_unique.
  pose proof (digits2_pos_bounds q) as [Blo Bhi].
  replace (Z.pos (digits2_pos q) + k - 1) with (Z.pos (digits2_pos q) - 1 + k) by lia.
  rewrite !Z.pow_add_r by lia. rewrite HM.
  assert (0 < 2 ^ k) by (apply Z.pow_pos_nonneg; lia).
  split; nia.
Qed.

(** Shifts to the left and to the right, as products and quotients by
    powers of two. *)
Lemma iter_xO_value (m d : positive) :
  Z.pos (Pos.iter xO m d) = Z.pos m * 2 ^ Z.pos d.
Proof.
  induction d as [|d IH] using Pos.peano_ind.
  - simpl. lia.
  - rewrite Pos.iter_succ, Pos2Z.inj_succ, Z.pow_succ_r by lia.
    rewrite Pos2Z.inj_xO, IH. lia.
Qed.

Lemma iter_pos_iter {A : Type} (f : A -> A) (n : positive) :
  forall x, iter_pos f n x = Pos.iter f x n.
Proof.
  induction n as [n IH|n IH|]; intros x; simpl.
  - rewrite !IH. now rewrite !Pos.iter_swap.
  - now rewrite !IH.
  - reflexivity.
Qed.

Lemma iter_shr_1_exact (p x : positive) :
  iter_pos shr_1 p {| shr_m := Z.pos (Pos.iter xO x p); shr_r := false; shr_s := false |}
  = {| shr_m := Z.pos x; shr_r := false; shr_s := false |}.
Proof.
  rewrite iter_pos_iter. revert x.
  induction p as [|p IH] using Pos.peano_ind; intros x.
  - reflexivity.
  - rewrite Pos.iter_succ_r. rewrite Pos.iter_succ. simpl shr_1. apply IH.
Qed.

Lemma shl_align_le (mx : positive) (ex ex' : Z) :
  ex' <= ex ->
  exists m', shl_align mx ex ex' = (m', ex') /\
             Z.pos m' = Z.pos mx * 2 ^ (ex - ex').
Proof.
  intros H. unfold shl_align. destruct (ex' - ex) as [|d|d] eqn:E; try lia.
  - assert (ex' = ex) by lia. subst. exists mx. split; [reflexivity|].
    rewrite Z.sub_diag. simpl. lia.
  - exists (Pos.iter xO mx d). split; [reflexivity|].
    rewrite iter_xO_value. f_equal. f_equal. lia.
Qed.

Lemma shl_align_gt (mx : positive) (ex ex' : Z) :
  ex <= ex' -> shl_align mx ex ex' = (mx, ex).
Proof.
  intros H. unfold shl_align. destruct (ex' - ex) as [|d|d] eqn:E; try lia; reflexivity.
Qed.

Lemma shr_exact (M x : positive) (e n : Z) :
  0 <= n -> Z.pos M = Z.pos x * 2 ^ n ->
  shr {| shr_m := Z.pos M; shr_r := false; shr_s := false |} e n
  = ({| shr_m := Z.pos x; shr_r := false; shr_s := false |}, e + n).
Proof.
  intros Hn HM. destruct n as [|p|p]; try lia.
  - simpl in HM. assert (M = x) by lia. subst. simpl. now rewrite Z.add_0_r.
  - rewrite <- iter_xO_value in HM. injection HM as ->.
    unfold shr. now rewrite iter_shr_1_exact.
Qed.

Lemma fexp_normal (x : Z) :
  -1074 <= x - 53 -> fexp prec emax x = x - 53.
Proof. intros H. unfold fexp, emin, prec, emax. lia. Qed.

(** Rounding is exact on a number that 53 binary digits can hold: it
    returns the mantissa of 53 digits and the exponent of that number. *)
Lemma binary_round_aux_exact (mz x : positive) (ez n : Z) :
  0 <= n -> Z.pos mz = Z.pos x * 2 ^ n ->
  Z.pos (digits2_pos x) = 53 ->
  -1074 <= ez + n <= 971 ->
  binary_round_aux prec emax false (Z.pos mz) ez loc_Exact
  = S754_finite false x (ez + n).
Proof.
  intros Hn Hmz Hx He.
  pose proof (digits2_pos_shift mz x n Hn Hmz) as Hd.
  assert (H1 : shr_fexp prec emax (Z.pos mz) ez loc_Exact
               = ({| shr_m := Z.pos x; shr_r := false; shr_s := false |}, ez + n)).
  { unfold shr_fexp. simpl Zdigits2. simpl shr_record_of_loc.
    rewrite Hd, Hx, fexp_normal by lia.
    replace (53 + n + ez - 53 - ez) with n by lia.
    apply (shr_exact mz x ez n Hn Hmz). }
  assert (H2 : shr_fexp prec emax (Z.pos x) (ez + n) loc_Exact
               = ({| shr_m := Z.pos x; shr_r := false; shr_s := false |}, ez + n)).
  { unfold shr_fexp. simpl Zdigits2. simpl shr_record_of_loc.
    rewrite Hx, fexp_normal by lia.
    replace (53 + (ez + n) - 53 - (ez + n)) with 0 by lia. reflexivity. }
  unfold binary_round_aux. rewrite H1.
  cbn [loc_of_shr_record round_nearest_even shr_m]. rewrite H2.
  cbn [shr_m].
  replace (ez + n <=? emax - prec) with true; [reflexivity|].
  symmetry. apply Z.leb_le. unfold emax, prec. lia.
Qed.

Lemma binary_round_exact (M q : positive) (e k : Z) :
  0 <= k -> Z.pos M = Z.pos q * 2 ^ k ->
  Z.pos (digits2_pos q) <= 53 ->
  -1074 <= e + k - (53 - Z.pos (digits2_pos q)) <= 971 ->
  exists m,
    Z.pos m = Z.pos q * 2 ^ (53 - Z.pos (digits2_pos q)) /\
    binary_round prec emax false M e
    = S754_finite false m (e + k - (53 - Z.pos (digits2_pos q))).
Proof.
  intros Hk HM Hq HE.
  set (d := Z.pos (digits2_pos q)) in *.
  set (E := e + k - (53 - d)) in *.
  assert (Hpow : 0 < 2 ^ (53 - d)) by (apply Z.pow_pos_nonneg; lia).
  assert (Hx : exists x, Z.pos x = Z.pos q * 2 ^ (53 - d)).
  { exists (Z.to_pos (Z.pos q * 2 ^ (53 - d))). rewrite Z2Pos.id; lia. }
  destruct Hx as [x Hx].
  assert (Hdx : Z.pos (digits2_pos x) = 53).
  { rewrite (digits2_pos_shift x q (53 - d)) by (fold d; lia). fold d. lia. }
  exists x. split; [exact Hx|].
  unfold binary_round.
  rewrite (digits2_pos_shift M q k Hk HM). fold d.
  rewrite fexp_normal by lia.
  replace (d + k + e - 53) with E by (unfold E; lia).
  destruct (Z_le_gt_dec E e) as [Hle|Hgt].
  - destruct (shl_align_le M e E Hle) as (m' & -> & Hm').
    assert (m' = x).
    { apply Pos2Z.inj. rewrite Hm', Hx, HM, <- Z.mul_assoc, <- Z.pow_add_r by lia.
      f_equal. f_equal. unfold E. lia. }
    subst m'.
    rewrite (binary_round_aux_exact x x E 0) by (simpl; lia).
    now rewrite Z.add_0_r.
  - rewrite shl_align_gt by lia.
    assert (HMx : Z.pos M = Z.pos x * 2 ^ (E - e)).
    { rewrite HM, Hx, <- Z.mul_assoc, <- Z.pow_add_r by lia.
      f_equal. f_equal. unfold E. lia. }
    rewrite (binary_round_aux_exact M x e (E - e)) by lia.
    f_equal. lia.
Qed.

(** The double of a whole number below 2^53, and the sum of two of
    them, which is exact while it stays below 2^53. *)
Lemma integer_canonical (a : positive) :
  Z.pos a < 2 ^ 53 ->
  exists m,
    Z.pos m = Z.pos a * 2 ^ (53 - Z.pos (digits2_pos a)) /\
    integer (Z.pos a) = S754_finite false m (Z.pos (digits2_pos a) - 53).
Proof.
  intros Ha.
  assert (Hd : Z.pos (digits2_pos a) <= 53).
  { pose proof (digits2_pos_bounds a) as [Blo _].
    destruct (Z_le_gt_dec (Z.pos (digits2_pos a)) 53) as [H|H]; [exact H|].
    exfalso. assert (2 ^ 53 <= 2 ^ (Z.pos (digits2_pos a) - 1))
      by (apply Z.pow_le_mono_r; lia).
    lia. }
  destruct (binary_round_exact a a 0 0) as (m & Hm & Hr); try lia.
  exists m. split; [exact Hm|].
  unfold integer, binary_normalize. rewrite Hr. f_equal. lia.
Qed.

Lemma plus_integer (a b : positive) :
  Z.pos a + Z.pos b < 2 ^ 53 ->
  plus (integer (Z.pos a)) (integer (Z.pos b)) = integer (Z.pos a + Z.pos b).
Proof.
  intros Hab.
  destruct (integer_canonical a) as (ma & Hma & ->); [lia|].
  destruct (integer_canonical b) as (mb & Hmb & ->); [lia|].
  destruct (integer_canonical (a + b)) as (mc & Hmc & Hc); [lia|].
  change (Z.pos a + Z.pos b) with (Z.pos (a + b)). rewrite Hc.
  set (da := Z.pos (digits2_pos a)) in *.
  set (db := Z.pos (digits2_pos b)) in *.
  set (dc := Z.pos (digits2_pos (a + b))) in *.
  assert (Hda : 1 <= da <= 53).
  { unfold da. pose proof (digits2_pos_bounds a) as [Blo _].
    split; [lia|].
    destruct (Z_le_gt_dec (Z.pos (digits2_pos a)) 53) as [H|H]; [exact H|].
    exfalso. assert (2 ^ 53 <= 2 ^ (Z.pos (digits2_pos a) - 1))
      by (apply Z.pow_le_mono_r; lia).
    lia. }
  assert (Hdb : 1 <= db <= 53).
  { unfold db. pose proof (digits2_pos_bounds b) as [Blo _].
    split; [lia|].
    destruct (Z_le_gt_dec (Z.pos (digits2_pos b)) 53) as [H|H]; [exact H|].
    exfalso. assert (2 ^ 53 <= 2 ^ (Z.pos (digits2_pos b) - 1))
      by (apply Z.pow_le_mono_r; lia).
    lia. }
  assert (Hdc : 1 <= dc <= 53).
  { unfold dc. pose proof (digits2_pos_bounds (a + b)) as [Blo _].
    split; [lia|].
    destruct (Z_le_gt_dec (Z.pos (digits2_pos (a + b))) 53) as [H|H]; [exact H|].
    exfalso. assert (2 ^ 53 <= 2 ^ (Z.pos (digits2_pos (a + b)) - 1))
      by (apply Z.pow_le_mono_r; lia).
    lia. }
  unfold plus, SFadd. cbn [cond_Zopp].
  set (ez := Z.min (da - 53) (db - 53)).
  destruct (shl_align_le ma (da - 53) ez) as (ma' & -> & Hma'); [unfold ez; lia|].
  destruct (shl_align_le mb (db - 53) ez) as (mb' & -> & Hmb'); [unfold ez; lia|].
  cbn [fst]. change (Z.pos ma' + Z.pos mb') with (Z.pos (ma' + mb')).
  unfold binary_normalize.
  assert (Hsum : Z.pos (ma' + mb') = Z.pos (a + b) * 2 ^ (- ez)).
  { rewrite !Pos2Z.inj_add, Hma', Hmb', Hma, Hmb.
    rewrite <- !Z.mul_assoc, <- !Z.pow_add_r by (unfold ez; lia).
    replace (53 - da + (da - 53 - ez)) with (- ez) by lia.
    replace (53 - db + (db - 53 - ez)) with (- ez) by lia.
    lia. }
  assert (Hez : 0 <= - ez) by (unfold ez; lia).
  assert (HE : -1074 <= ez + - ez - (53 - dc) <= 971) by lia.
  destruct (binary_round_exact (ma' + mb') (a + b) ez (- ez) Hez Hsum
              (proj2 Hdc) HE) as (m & Hm & ->).
  fold dc. f_equal.
  - apply Pos2Z.inj. rewrite Hm, Hmc. reflexivity.
  - lia.
Qed.

(** ** A document on which the column loop never exits *)

(** Adding 1 goes from one whole number to the next up to 2^53, where
    it stops: 2^53 + 1 is rounded to 2^53. *)
Lemma integer_step (z : Z) :
  0 <= z <= 2 ^ 53 ->
  plus (integer z) (integer 1) = integer (Z.min (z + 1) (2 ^ 53)).
Proof.
  intros Hz.
  destruct (Z.eq_dec z 0) as [->|Hz0]; [reflexivity|].
  destruct (Z.eq_dec z (2 ^ 53)) as [->|Hz1]; [vm_compute; reflexivity|].
  destruct (Z.eq_dec z (2 ^ 53 - 1)) as [->|Hz2]; [vm_compute; reflexivity|].
  rewrite Z.min_l by lia.
  destruct z as [|a|a]; try lia.
  apply (plus_integer a 1). lia.
Qed.

Lemma integer_below (z : Z) :
  0 <= z <= 2 ^ 53 -> gt (integer z) (integer (2 ^ 53)) = false.
Proof.
  intros Hz.
  destruct (Z.eq_dec z 0) as [->|Hz0]; [reflexivity|].
  destruct (Z.eq_dec z (2 ^ 53)) as [->|Hz1]; [vm_compute; reflexivity|].
  destruct z as [|a|a]; try lia.
  destruct (integer_canonical a) as (m & _ & ->); [lia|].
  change (integer (2 ^ 53)) with (S754_finite false 4503599627370496 1).
  unfold gt, SFltb, SFcompare.
  pose proof (digits2_pos_bounds a) as [Blo _].
  assert (Hd : Z.pos (digits2_pos a) <= 53).
  { destruct (Z_le_gt_dec (Z.pos (digits2_pos a)) 53) as [H|H]; [exact H|].
    exfalso. assert (2 ^ 53 <= 2 ^ (Z.pos (digits2_pos a) - 1))
      by (apply Z.pow_le_mono_r; lia).
    lia. }
  destruct (Z.compare_spec 1 (Z.pos (digits2_pos a) - 53));
    [lia|lia|reflexivity].
Qed.

(** With a dimension of 2^53 and items of size 1 the loop does not
    exit. *)
Lemma countLoop_stagnates (dim item : string) (o : object) :
  get dim o = VNum (integer (2 ^ 53)) ->
  get item o = VNum (integer 1) ->
  forall fuel z count,
    0 <= z <= 2 ^ 53 ->
    countLoop gt dim item fuel (integer z) count o = (Diverge, o).
Proof.
  intros Hd Hs. induction fuel as [|fuel IH]; intros z count Hz.
  - reflexivity.
  - rewrite countLoop_S, Hd, Hs. cbn [toNumber].
    change (le (integer 0) (integer (2 ^ 53))) with true. cbv iota.
    rewrite integer_step by exact Hz.
    rewrite integer_below by lia.
    apply IH. lia.
Qed.

(** A call whose column loop does not exit does not return. *)
Lemma column_loop_decides (out : number -> number -> bool) (fuel : nat)
    (o o3 : object) :
  prepare o = (Normal tt, o3) ->
  countLoop gt "documentWidth" "itemWidth" fuel (integer 0) (integer 0) o3
  = (Diverge, o3) ->
  fst (optimizeWith out fuel o) = Diverge.
Proof.
  intros Hprep Hloop. unfold optimizeWith.
  unfold bind at 1. rewrite Hprep. unfold bind at 1. rewrite Hloop.
  reflexivity.
Qed.

(** ** Whole numbers *)

Lemma digits2_pos_le_53 (a : positive) :
  Z.pos a < 2 ^ 53 -> Z.pos (digits2_pos a) <= 53.
Proof.
  intros Ha. pose proof (digits2_pos_bounds a) as [Blo _].
  destruct (Z_le_gt_dec (Z.pos (digits2_pos a)) 53) as [H|H]; [exact H|].
  exfalso. assert (2 ^ 53 <= 2 ^ (Z.pos (digits2_pos a) - 1))
    by (apply Z.pow_le_mono_r; lia).
  lia.
Qed.

(** Whole numbers below 2^53 compare as doubles the way they compare
    as whole numbers. *)
Lemma compare_integer (x y : Z) :
  0 <= x < 2 ^ 53 -> 0 <= y < 2 ^ 53 ->
  SFcompare (integer x) (integer y) = Some (x ?= y).
Proof.
  intros Hx Hy.
  destruct x as [|a|a], y as [|b|b]; try lia.
  - reflexivity.
  - destruct (integer_canonical b) as (mb & _ & ->); [lia|]. reflexivity.
  - destruct (integer_canonical a) as (ma & _ & ->); [lia|]. reflexivity.
  - destruct (integer_canonical a) as (ma & Hma & ->); [lia|].
    destruct (integer_canonical b) as (mb & Hmb & ->); [lia|].
    pose proof (digits2_pos_bounds a) as [Alo Ahi].
    pose proof (digits2_pos_bounds b) as [Blo Bhi].
    pose proof (digits2_pos_le_53 a ltac:(lia)) as Ha53.
    pose proof (digits2_pos_le_53 b ltac:(lia)) as Hb53.
    set (da := Z.pos (digits2_pos a)) in *.
    set (db := Z.pos (digits2_pos b)) in *.
    unfold SFcompare. f_equal.
    destruct (Z.compare_spec (da - 53) (db - 53)) as [E|E|E].
    + assert (da = db) by lia.
      change (Pos.compare_cont Eq ma mb) with (Z.pos ma ?= Z.pos mb).
      rewrite Hma, Hmb. replace db with da by assumption.
      assert (0 < 2 ^ (53 - da)) by (apply Z.pow_pos_nonneg; lia).
      destruct (Z.compare_spec (Z.pos a * 2 ^ (53 - da)) (Z.pos b * 2 ^ (53 - da))),
        (Z.compare_spec (Z.pos a) (Z.pos b)); try reflexivity; nia.
    + symmetry. apply Z.compare_lt_iff.
      assert (2 ^ da <= 2 ^ (db - 1)) by (apply Z.pow_le_mono_r; lia).
      lia.
    + symmetry. apply Z.compare_gt_iff.
      assert (2 ^ db <= 2 ^ (da - 1)) by (apply Z.pow_le_mono_r; lia).
      lia.
Qed.

Lemma gt_integer (x y : Z) :
  0 <= x < 2 ^ 53 -> 0 <= y < 2 ^ 53 ->
  gt (integer x) (integer y) = (y <? x).
Proof.
  intros Hx Hy. unfold gt, SFltb. rewrite compare_integer by assumption.
  unfold Z.ltb. destruct (y ?= x); reflexivity.
Qed.

Lemma ge_integer (x y : Z) :
  0 <= x < 2 ^ 53 -> 0 <= y < 2 ^ 53 ->
  ge (integer x) (integer y) = (y <=? x).
Proof.
  intros Hx Hy. unfold ge, SFleb. rewrite compare_integer by assumption.
  unfold Z.leb. destruct (y ?= x); reflexivity.
Qed.

Lemma plus_whole (a b : Z) :
  0 <= a -> 0 < b -> a + b < 2 ^ 53 ->
  plus (integer a) (integer b) = integer (a + b).
Proof.
  intros Ha Hb Hab. destruct a as [|a|a], b as [|b|b]; try lia.
  - destruct (integer_canonical b) as (mb & _ & Hb'); [lia|].
    simpl Z.add. rewrite Hb'. reflexivity.
  - now apply plus_integer.
Qed.

Lemma le_integer (x y : Z) :
  0 <= x < 2 ^ 53 -> 0 <= y < 2 ^ 53 ->
  le (integer x) (integer y) = (x <=? y).
Proof.
  intros Hx Hy. unfold le, SFleb. rewrite compare_integer by assumption.
  unfold Z.leb. destruct (x ?= y); reflexivity.
Qed.

(** A loop on whole numbers adds and counts exactly, and exits at the
    first sum that passes the test. *)
Lemma countLoop_whole (out : number -> number -> bool) (test : Z -> Z -> bool)
    (dim item : string) (o : object) (d s n : Z) :
  (forall x, 0 <= x < 2 ^ 53 -> out (integer x) (integer d) = test x d) ->
  get dim o = VNum (integer d) ->
  get item o = VNum (integer s) ->
  0 <= d < 2 ^ 53 -> 0 < s -> 0 <= n -> (n + 1) * s < 2 ^ 53 ->
  (forall j, 0 <= j < n -> test ((j + 1) * s) d = false) ->
  test ((n + 1) * s) d = true ->
  forall (fuel : nat) (k : Z),
    0 <= k <= n -> (Z.to_nat (n - k) < fuel)%nat ->
    countLoop out dim item fuel (integer (k * s)) (integer k) o
    = (Normal (integer n), o).
Proof.
  intros Hout Hd Hs Rd Rs Rn Rmax Hbefore Hexit.
  induction fuel as [|fuel IH]; intros k Hk Hfuel; [lia|].
  rewrite countLoop_S, Hd, Hs. cbn [toNumber].
  rewrite le_integer by lia.
  replace (0 <=? d) with true by (symmetry; apply Z.leb_le; lia).
  assert (Hnext : (k + 1) * s <= (n + 1) * s) by nia.
  rewrite plus_whole by nia.
  replace (k * s + s) with ((k + 1) * s) by ring.
  rewrite Hout by nia.
  destruct (Z.eq_dec k n) as [->|Hne].
  - rewrite Hexit. reflexivity.
  - rewrite Hbefore by lia.
    rewrite plus_whole by nia.
    apply IH; lia.
Qed.

(** The preparation of a request without margin whose fields are not
    negative changes nothing but to record the real dimensions. *)
Lemma prepare_unsigned (w h iw ih : number) :
  gt (integer 0) w = false -> gt (integer 0) h = false ->
  gt (integer 0) iw = false -> gt (integer 0) ih = false ->
  prepare (request w h (integer 0) iw ih)
  = (Normal tt,
     request w h (integer 0) iw ih
     ++ [("documentWidthReal", VNum w); ("documentHeightReal", VNum h)]).
Proof.
  intros Hw Hh Hiw Hih.
  assert (Hm : gt (integer 0) (integer 0) = false) by reflexivity.
  assert (Hz : looselyUnequal (VNum (integer 0)) (integer 0) = false)
    by reflexivity.
  unfold prepare, applyDefaults, keepReal, sanitizeAll, applyMargin, request.
  repeat (cbv [bind read readNum assign ownKeys ret throw];
          cbn [get set keys map fst String.eqb Ascii.eqb Bool.eqb nullish
               isNull sanitize toNumber app];
          rewrite ?Hw, ?Hh, ?Hiw, ?Hih, ?Hm, ?Hz).
  reflexivity.
Qed.

Lemma sums_before (j n s d : Z) :
  0 <= j < n -> 0 < s -> n * s <= d -> (j + 1) * s <= d.
Proof.
  intros Hj Hs Hn.
  assert ((j + 1) * s <= n * s) by (apply Z.mul_le_mono_nonneg_r; lia).
  lia.
Qed.

Lemma whole_quotient (d s : Z) :
  0 <= d -> 0 < s -> 0 <= d / s /\ d / s * s <= d < (d / s + 1) * s.
Proof.
  intros Hd Hs. pose proof (Z.div_mod d s ltac:(lia)) as E.
  pose proof (Z.mod_pos_bound d s Hs) as B.
  pose proof (Z.div_pos d s Hd Hs) as P. nia.
Qed.

(** The last whole multiple strictly below [V]. *)
Lemma quotient_before (V s : Z) :
  0 < V -> 0 < s ->
  0 <= (V - 1) / s /\
  (V - 1) / s * s < V <= ((V - 1) / s + 1) * s /\
  (V mod s = 0 -> (V - 1) / s = V / s - 1) /\
  (V mod s <> 0 -> (V - 1) / s = V / s).
Proof.
  intros HV Hs.
  destruct (whole_quotient (V - 1) s ltac:(lia) Hs) as (S0 & S1 & S2).
  pose proof (Z.div_mod V s ltac:(lia)) as E.
  pose proof (Z.mod_pos_bound V s Hs) as B.
  split; [exact S0|]. split; [lia|]. split; intros Hmod.
  - symmetry. apply (Z.div_unique (V - 1) s (V / s - 1) (s - 1)); lia.
  - symmetry. apply (Z.div_unique (V - 1) s (V / s) (V mod s - 1)); lia.
Qed.

(** ** The two variants on the same request *)

Lemma get_set64 (k k' : string) (v : value) (o : object) :
  get k' (set k v o) = if String.eqb k' k then v else get k' o.
Proof.
  induction o as [|[k0 v0] o IH]; simpl.
  - destruct (String.eqb k' k); reflexivity.
  - destruct (String.eqb k k0) eqn:E; simpl.
    + apply String.eqb_eq in E; subst k0.
      destruct (String.eqb k' k); reflexivity.
    + destruct (String.eqb k' k0) eqn:E'.
      * apply String.eqb_eq in E'; subst k0.
        rewrite String.eqb_sym, E. reflexivity.
      * exact IH.
Qed.

(** A loop leaves the object as it is, and does not throw. *)
Lemma countLoop_result (out : number -> number -> bool) (dim item : string)
    (o : object) :
  forall fuel accum count r o',
    countLoop out dim item fuel accum count o = (r, o') ->
    o' = o /\ (r = Diverge \/ exists c, r = Normal c).
Proof.
  induction fuel as [|fuel IH]; intros accum count r o' Hrun.
  - injection Hrun as <- <-. auto.
  - rewrite countLoop_S in Hrun.
    destruct (le _ _); [|injection Hrun as <- <-; eauto].
    destruct (out _ _); [injection Hrun as <- <-; eauto|].
    apply (IH _ _ _ _ Hrun).
Qed.

(** The count that a loop returns does not depend on the fuel. *)
Lemma countLoop_deterministic (out : number -> number -> bool)
    (dim item : string) (o : object) :
  forall fuel1 fuel2 accum count c1 c2 o1 o2,
    countLoop out dim item fuel1 accum count o = (Normal c1, o1) ->
    countLoop out dim item fuel2 accum count o = (Normal c2, o2) ->
    c1 = c2.
Proof.
  induction fuel1 as [|fuel1 IH]; intros fuel2 accum count c1 c2 o1 o2 H1 H2;
    [discriminate|].
  destruct fuel2 as [|fuel2]; [discriminate|].
  rewrite countLoop_S in H1, H2.
  destruct (le _ _); [|congruence].
  destruct (out _ _); [congruence|].
  apply (IH _ _ _ _ _ _ _ H1 H2).
Qed.

(** The count returned is the counter after some number of increments. *)
Lemma countLoop_counts (out : number -> number -> bool) (dim item : string)
    (o : object) :
  forall fuel accum count c1 o1,
    countLoop out dim item fuel accum count o = (Normal c1, o1) ->
    exists n : nat, c1 = Nat.iter n (fun c => plus c (integer 1)) count.
Proof.
  induction fuel as [|fuel IH]; intros accum count c1 o1 H1; [discriminate|].
  rewrite countLoop_S in H1.
  destruct (le _ _); [|exists O; simpl; congruence].
  destruct (out _ _); [exists O; simpl; congruence|].
  destruct (IH _ _ _ _ H1) as (n & Hn).
  exists (S n). rewrite Nat.iter_succ_r. exact Hn.
Qed.

(** Of two loops on the same numbers, the one whose test holds whenever
    the test of the other holds makes no more iterations. *)
Lemma countLoop_weaker_test (out1 out2 : number -> number -> bool)
    (dim item : string) (o : object) :
  (forall x d, out1 x d = true -> out2 x d = true) ->
  forall fuel1 fuel2 accum count c1 c2 o1 o2,
    countLoop out1 dim item fuel1 accum count o = (Normal c1, o1) ->
    countLoop out2 dim item fuel2 accum count o = (Normal c2, o2) ->
    exists n1 n2 : nat,
      (n2 <= n1)%nat /\
      c1 = Nat.iter n1 (fun c => plus c (integer 1)) count /\
      c2 = Nat.iter n2 (fun c => plus c (integer 1)) count.
Proof.
  intros Himp.
  induction fuel1 as [|fuel1 IH]; intros fuel2 accum count c1 c2 o1 o2 H1 H2;
    [discriminate|].
  destruct fuel2 as [|fuel2]; [discriminate|].
  rewrite countLoop_S in H1, H2.
  destruct (le _ _).
  2:{ exists O, O. split; [lia|]. split; simpl; congruence. }
  destruct (out1 _ _) eqn:E1.
  - rewrite (Himp _ _ E1) in H2.
    exists O, O. split; [lia|]. split; simpl; congruence.
  - destruct (out2 _ _) eqn:E2.
    + destruct (countLoop_counts _ _ _ _ _ _ _ _ _ H1) as (n1 & Hc1).
      exists (S n1), O. split; [lia|]. split.
      * rewrite Nat.iter_succ_r. exact Hc1.
      * simpl. congruence.
    + destruct (IH _ _ _ _ _ _ _ H1 H2) as (n1 & n2 & Hle & Hc1 & Hc2).
      exists (S n1), (S n2). split; [lia|].
      rewrite !Nat.iter_succ_r. split; assumption.
Qed.

Lemma gt_ge (x d : number) : gt x d = true -> ge x d = true.
Proof.
  unfold gt, ge, SFltb, SFleb. destruct (SFcompare d x) as [[]|]; congruence.
Qed.

Lemma counter_whole (n : nat) :
  Z.of_nat n < 2 ^ 53 -> counter n = integer (Z.of_nat n).
Proof.
  unfold counter. induction n as [|n IH]; intros Hn; [reflexivity|].
  rewrite Nat.iter_succ, IH by lia. rewrite plus_whole by lia.
  f_equal. lia.
Qed.

(** ** Whole margins *)

(** Differences of whole numbers and the double of a whole number
    are exact. *)
Lemma minus_integer (a b : positive) :
  Z.pos b < Z.pos a < 2 ^ 53 ->
  minus (integer (Z.pos a)) (integer (Z.pos b)) = integer (Z.pos a - Z.pos b).
Proof.
  intros Hab.
  destruct (integer_canonical a) as (ma & Hma & ->); [lia|].
  destruct (integer_canonical b) as (mb & Hmb & ->); [lia|].
  assert (Hc : exists c, Z.pos c = Z.pos a - Z.pos b).
  { exists (Z.to_pos (Z.pos a - Z.pos b)). rewrite Z2Pos.id; lia. }
  destruct Hc as [c Hc]. rewrite <- Hc.
  destruct (integer_canonical c) as (mc & Hmc & ->); [lia|].
  pose proof (digits2_pos_bounds a) as [Alo _].
  pose proof (digits2_pos_bounds b) as [Blo _].
  pose proof (digits2_pos_bounds c) as [Clo _].
  pose proof (digits2_pos_le_53 a ltac:(lia)) as Ha53.
  pose proof (digits2_pos_le_53 b ltac:(lia)) as Hb53.
  pose proof (digits2_pos_le_53 c ltac:(lia)) as Hc53.
  set (da := Z.pos (digits2_pos a)) in *.
  set (db := Z.pos (digits2_pos b)) in *.
  set (dc := Z.pos (digits2_pos c)) in *.
  unfold minus, SFsub. cbn [cond_Zopp].
  set (ez := Z.min (da - 53) (db - 53)).
  destruct (shl_align_le ma (da - 53) ez) as (ma' & -> & Hma'); [unfold ez; lia|].
  destruct (shl_align_le mb (db - 53) ez) as (mb' & -> & Hmb'); [unfold ez; lia|].
  cbn [fst].
  assert (Hez : 0 <= - ez) by (unfold ez; lia).
  assert (Hdiff : Z.pos ma' - Z.pos mb' = Z.pos c * 2 ^ (- ez)).
  { rewrite Hma', Hmb', Hma, Hmb, Hc.
    rewrite <- !Z.mul_assoc, <- !Z.pow_add_r by (unfold ez; lia).
    replace (53 - da + (da - 53 - ez)) with (- ez) by lia.
    replace (53 - db + (db - 53 - ez)) with (- ez) by lia.
    lia. }
  assert (Hpow : 0 < 2 ^ (- ez)) by (apply Z.pow_pos_nonneg; lia).
  destruct (Z.pos ma' - Z.pos mb') as [|p|p] eqn:Ep; try lia.
  unfold binary_normalize.
  assert (HE : -1074 <= ez + - ez - (53 - dc) <= 971) by lia.
  destruct (binary_round_exact p c ez (- ez) Hez Hdiff Hc53 HE) as (m & Hm & ->).
  fold dc. f_equal.
  - apply Pos2Z.inj. rewrite Hm, Hmc. reflexivity.
  - lia.
Qed.

Lemma times_two (a : positive) :
  2 * Z.pos a < 2 ^ 53 ->
  times (integer (Z.pos a)) (integer 2) = integer (2 * Z.pos a).
Proof.
  intros Ha.
  destruct (integer_canonical a) as (ma & Hma & ->); [lia|].
  change (2 * Z.pos a) with (Z.pos (a~0)).
  destruct (integer_canonical (a~0)) as (mc & Hmc & ->); [lia|].
  pose proof (digits2_pos_le_53 (a~0) ltac:(lia)) as Hc53.
  simpl digits2_pos in *. rewrite Pos2Z.inj_succ in *.
  set (da := Z.pos (digits2_pos a)) in *.
  assert (Hpow : 0 < 2 ^ (53 - Z.succ da)) by (apply Z.pow_pos_nonneg; lia).
  assert (Hmm : mc = ma).
  { apply Pos2Z.inj. rewrite Hmc, Hma, Pos2Z.inj_xO.
    replace (53 - da) with (Z.succ (53 - Z.succ da)) by lia.
    rewrite Z.pow_succ_r by lia. ring. }
  subst mc.
  change (integer 2) with (S754_finite false 4503599627370496 (-51)).
  unfold times, SFmul. cbn [xorb].
  assert (Hdm : Z.pos (digits2_pos ma) = 53).
  { rewrite (digits2_pos_shift ma a (53 - da)) by (fold da; lia). fold da. lia. }
  assert (Hprod : Z.pos (ma * 4503599627370496) = Z.pos ma * 2 ^ 52)
    by (rewrite Pos2Z.inj_mul; reflexivity).
  rewrite (binary_round_aux_exact (ma * 4503599627370496) ma (da - 53 + -51) 52
             ltac:(lia) Hprod Hdm ltac:(lia)).
  f_equal. lia.
Qed.

Lemma neq_integer (x y : Z) :
  0 <= x < 2 ^ 53 -> 0 <= y < 2 ^ 53 ->
  neq (integer x) (integer y) = negb (x =? y).
Proof.
  intros Hx Hy. unfold neq, SFeqb. rewrite compare_integer by assumption.
  destruct (Z.compare_spec x y), (Z.eqb_spec x y); try reflexivity; lia.
Qed.

(** The preparation of a request with a margin whose fields are not
    negative: the margin is subtracted twice from each dimension. *)
Lemma prepare_unsigned_margin (w h m iw ih w' h' : number) :
  gt (integer 0) w = false -> gt (integer 0) h = false ->
  gt (integer 0) m = false ->
  gt (integer 0) iw = false -> gt (integer 0) ih = false ->
  neq m (integer 0) = true ->
  minus w (times m (integer 2)) = w' ->
  minus h (times m (integer 2)) = h' ->
  ge (integer 0) w' = false -> ge (integer 0) h' = false ->
  prepare (request w h m iw ih)
  = (Normal tt,
     request w' h' m iw ih
     ++ [("documentWidthReal", VNum w); ("documentHeightReal", VNum h)]).
Proof.
  intros Hw Hh Hm Hiw Hih Hne Ew Eh Hw' Hh'.
  unfold prepare, applyDefaults, keepReal, sanitizeAll, applyMargin, request.
  repeat (cbv [bind read readNum assign ownKeys ret throw];
          cbn [get set keys map fst String.eqb Ascii.eqb Bool.eqb nullish
               isNull sanitize toNumber app looselyUnequal];
          rewrite ?Hw, ?Hh, ?Hm, ?Hiw, ?Hih, ?Hne, ?Ew, ?Eh, ?Hw', ?Hh').
  reflexivity.
Qed.

(** The preparation of a request of whole numbers that the margin does
    not use up. *)
Lemma prepare_whole (W H m iw ih : Z) :
  0 <= m -> 2 * m < W < 2 ^ 53 -> 2 * m < H < 2 ^ 53 ->
  0 < iw < 2 ^ 53 -> 0 < ih < 2 ^ 53 ->
  prepare (request (integer W) (integer H) (integer m) (integer iw) (integer ih))
  = (Normal tt,
     request (integer (W - 2 * m)) (integer (H - 2 * m)) (integer m)
       (integer iw) (integer ih)
     ++ [("documentWidthReal", VNum (integer W));
         ("documentHeightReal", VNum (integer H))]).
Proof.
  intros Pm PW PH Piw Pih.
  assert (Hpos : forall x, 0 <= x < 2 ^ 53 -> gt (integer 0) (integer x) = false).
  { intros x Hx. rewrite gt_integer by lia. apply Z.ltb_ge. lia. }
  destruct (Z.eq_dec m 0) as [->|Hm0].
  - rewrite !Z.mul_0_r, !Z.sub_0_r. apply prepare_unsigned; apply Hpos; lia.
  - assert (Htimes : times (integer m) (integer 2) = integer (2 * m)).
    { destruct m as [|a|a]; try lia. apply times_two. lia. }
    assert (Hminus : forall X, 2 * m < X < 2 ^ 53 ->
               minus (integer X) (integer (2 * m)) = integer (X - 2 * m)).
    { intros X HX. destruct X as [|a|a]; try lia.
      destruct (2 * m) as [|b|b] eqn:E; try lia. apply minus_integer. lia. }
    apply prepare_unsigned_margin; try (apply Hpos; lia).
    + rewrite neq_integer by lia. apply negb_true_iff, Z.eqb_neq. exact Hm0.
    + rewrite Htimes. apply Hminus. lia.
    + rewrite Htimes. apply Hminus. lia.
    + rewrite ge_integer by lia. apply Z.leb_gt. lia.
    + rewrite ge_integer by lia. apply Z.leb_gt. lia.
Qed.

(** A request of whole numbers: the columns are the whole quotient of
    the usable width by the item width, and the rows are counted up to
    the first sum that passes the test of the variant. *)
Lemma optimizeWith_whole (out : number -> number -> bool) (test : Z -> Z -> bool)
    (W H m iw ih rows : Z) (fuel : nat) :
  (forall x, 0 <= x < 2 ^ 53 ->
             out (integer x) (integer (H - 2 * m)) = test x (H - 2 * m)) ->
  0 <= m -> 2 * m < W -> 2 * m < H -> 0 < iw -> 0 < ih ->
  W + iw < 2 ^ 53 -> H + ih < 2 ^ 53 ->
  0 <= rows -> (rows + 1) * ih < 2 ^ 53 ->
  (forall j, 0 <= j < rows -> test ((j + 1) * ih) (H - 2 * m) = false) ->
  test ((rows + 1) * ih) (H - 2 * m) = true ->
  (Z.to_nat ((W - 2 * m) / iw) < fuel)%nat -> (Z.to_nat rows < fuel)%nat ->
  optimizeWith out fuel
    (request (integer W) (integer H) (integer m) (integer iw) (integer ih))
  = (Normal tt,
     request (integer (W - 2 * m)) (integer (H - 2 * m)) (integer m)
       (integer iw) (integer ih)
     ++ [("documentWidthReal", VNum (integer W));
         ("documentHeightReal", VNum (integer H));
         ("maxRows", VNum (integer rows));
         ("maxColumns", VNum (integer ((W - 2 * m) / iw)))]).
Proof.
  intros Hout Pm PW PH Piw Pih BW BH Prows Brows Hbefore Hexit FW FH.
  destruct (whole_quotient (W - 2 * m) iw ltac:(lia) Piw) as (Q0 & Q1 & Q2).
  unfold optimizeWith. unfold bind at 1.
  rewrite prepare_whole by lia.
  set (o3 := request _ _ _ _ _ ++ _).
  unfold bind at 1.
  assert (Hcolumns :
            countLoop gt "documentWidth" "itemWidth" fuel
              (integer (0 * iw)) (integer 0) o3
            = (Normal (integer ((W - 2 * m) / iw)), o3)).
  { apply (countLoop_whole gt (fun x d => d <? x) _ _ o3
             (W - 2 * m) iw ((W - 2 * m) / iw));
      try lia; try reflexivity.
    - intros x Hx. apply gt_integer; lia.
    - intros j Hj. apply Z.ltb_ge. apply (sums_before j _ iw _ Hj Piw Q1). }
  assert (Hrows :
            countLoop out "documentHeight" "itemHeight" fuel
              (integer (0 * ih)) (integer 0) o3
            = (Normal (integer rows), o3)).
  { apply (countLoop_whole out test _ _ o3 (H - 2 * m) ih rows);
      try lia; try reflexivity; assumption. }
  change (integer (0 * iw)) with (integer 0) in Hcolumns.
  change (integer (0 * ih)) with (integer 0) in Hrows.
  rewrite Hcolumns. unfold bind at 1. rewrite Hrows. reflexivity.
Qed.

(** Rounding can cost a row.  With items 38.55 high on a document 488
    high, less twice the margin 12.7, [js/app.js] counts eleven rows,
    although twelve times the item height does not exceed the usable
    height, on the very doubles of the result: the twelfth sum is
    rounded up past it.  The whole numbers below are the two doubles,
    scaled by 2^47. *)
Lemma rounding_can_cost_a_row :
  let result :=
    snd (optimizeStepAndRepeat 20
           (request (integer 488) (integer 488) (decimal 127 1) (integer 90)
              (decimal 3855 2))) in
  get "maxRows" result = VNum (integer 11) /\
  get "documentHeight" result = VNum (S754_finite false 8138145264146842 (-44)) /\
  get "itemHeight" result = VNum (S754_finite false 5425430176097894 (-47)) /\
  12 * 5425430176097894 <= 8138145264146842 * 2 ^ 3.
Proof. repeat split. vm_compute. discriminate. Qed.

End Doubles.

(** C3 (the code breaks the claim).  The claim has the optimizer return
    for every request with positive item dimensions and positive usable
    dimensions.  A loop of the code has one exit only, the test
    [accum + item > dimension], on numbers that are doubles; the guard
    [i <= dimension] never changes, because [i] is never incremented.
    On a document 2^53 wide with items of width 1 the request passes
    every check, the sum reaches 2^53 after as many iterations, and
    from then on [accum + 1] is rounded back to [accum]: the test never
    holds, and the call neither returns nor throws, in either variant,
    however much fuel it is given.  With an infinite width, which
    [parseFloat] produces, no sum ever exceeds the width.  On a
    document 100 wide the same items are counted: 100 columns. *)
Theorem C3_counting_loop_never_exits :
  let candidate w :=
    Binary64.request w (Binary64.integer 100) (Binary64.integer 0)
      (Binary64.integer 1) (Binary64.integer 10) in
  let wide := candidate (Binary64.integer (2 ^ 53)) in
  let infinite := candidate Binary64.Infinity in
  let ordinary := candidate (Binary64.integer 100) in
  Binary64.gt (Binary64.integer 1) (Binary64.integer 0) = true /\
  Binary64.gt (Binary64.integer 10) (Binary64.integer 0) = true /\
  fst (Binary64.prepare wide) = Normal tt /\
  Binary64.get "documentWidth" (snd (Binary64.prepare wide))
  = Binary64.VNum (Binary64.integer (2 ^ 53)) /\
  fst (Binary64.prepare infinite) = Normal tt /\
  Binary64.get "documentWidth" (snd (Binary64.prepare infinite))
  = Binary64.VNum Binary64.Infinity /\
  (forall fuel : nat,
      fst (Binary64.optimizeStepAndRepeat fuel wide) = Diverge /\
      fst (Binary64.optimizeStepAndRepeatOlder fuel wide) = Diverge /\
      fst (Binary64.optimizeStepAndRepeat fuel infinite) = Diverge /\
      fst (Binary64.optimizeStepAndRepeatOlder fuel infinite) = Diverge) /\
  fst (Binary64.optimizeStepAndRepeat 101 ordinary) = Normal tt /\
  Binary64.get "maxColumns" (snd (Binary64.optimizeStepAndRepeat 101 ordinary))
  = Binary64.VNum (Binary64.integer 100).
Proof.
  intros candidate wide infinite ordinary.
  assert (Hwide : exists o3,
             Binary64.prepare wide = (Normal tt, o3) /\
             Binary64.get "documentWidth" o3
             = Binary64.VNum (Binary64.integer (2 ^ 53)) /\
             Binary64.get "itemWidth" o3 = Binary64.VNum (Binary64.integer 1)).
  { eexists. split; [vm_compute; reflexivity|]. split; reflexivity. }
  assert (Hinf : exists o3,
             Binary64.prepare infinite = (Normal tt, o3) /\
             Binary64.get "documentWidth" o3 = Binary64.VNum Binary64.Infinity /\
             Binary64.get "itemWidth" o3
             = Binary64.VNum (S754_finite false 4503599627370496 (-52))).
  { eexists. split; [vm_compute; reflexivity|]. split; reflexivity. }
  destruct Hwide as (ow & Pw & Dw & Iw). destruct Hinf as (oi & Pi & Di & Ii).
  split; [reflexivity|]. split; [reflexivity|].
  split; [now rewrite Pw|]. split; [now rewrite Pw|].
  split; [now rewrite Pi|]. split; [now rewrite Pi|].
  split.
  - intros fuel.
    assert (Lw := countLoop_stagnates _ _ ow Dw Iw fuel 0%Z
                    (Binary64.integer 0) ltac:(lia)).
    assert (Li := countLoop_Infinity _ _ oi _ _ Di Ii fuel
                    (Binary64.integer 0) (Binary64.integer 0) I).
    split; [exact (column_loop_decides _ fuel wide ow Pw Lw)|].
    split; [exact (column_loop_decides _ fuel wide ow Pw Lw)|].
    split; [exact (column_loop_decides _ fuel infinite oi Pi Li)|].
    exact (column_loop_decides _ fuel infinite oi Pi Li).
  - split; vm_compute; reflexivity.
Qed.

(** ** The orientation selector *)

(** For a document that is not square, [lowest] and [highest] are the
    minimum and the maximum of the two dimensions. *)
Lemma lowestHighest_minmax (docWidth docHeight : Q) :
  Qeq_bool docWidth docHeight = false ->
  lowestHighest docWidth docHeight
  = (Qmin docWidth docHeight, Qmax docWidth docHeight).
Proof.
  intros Hne.
  assert (Hneq : ~ docWidth == docHeight).
  { intros H. apply Qeq_bool_iff in H. congruence. }
  unfold lowestHighest, Qmin, Qmax, GenericMinMax.gmin, GenericMinMax.gmax.
  destruct (gt docWidth docHeight) eqn:E.
  - apply gt_true in E. apply Qgt_alt in E. rewrite E. reflexivity.
  - apply gt_false in E. destruct (docWidth ?= docHeight) eqn:C.
    + apply Qeq_alt in C. contradiction.
    + reflexivity.
    + apply Qgt_alt in C. lra.
Qed.


(** A square document is optimized once, stored as [square] and
    rendered under that name. *)
Lemma AppJs_commit_square (fuel : nat) (useScroll : bool) (state : State)
    (results : Results) (result : object) :
  documentWidth state == documentHeight state ->
  AppJs.optimizeStepAndRepeat fuel
    (request (documentWidth state) (documentHeight state) (documentMargin state)
       (itemWidth state) (itemHeight state)) = (Normal tt, result) ->
  AppJs.commitChanges fuel useScroll state results =
  (Normal tt,
   {| square := Some result;
      landscape := landscape results;
      portrait := portrait results |},
   [Call (request (documentWidth state) (documentHeight state)
            (documentMargin state) (itemWidth state) (itemHeight state));
    ClearDocumentPreview;
    GenerateDocumentPreview result "square"]).
Proof.
  intros Hsq Hrun. unfold AppJs.commitChanges.
  apply Qeq_bool_iff in Hsq. rewrite Hsq. cbv zeta. rewrite Hrun. reflexivity.
Qed.




(** The older variant has no single preview: when both candidates
    succeed it renders both, the portrait one first. *)
Lemma Older_commit_renders_both (fuel : nat) (state : State) (results : Results)
    (resultL resultP : object) :
  let docWidth := documentWidth state in
  let docHeight := documentHeight state in
  ~ docWidth == docHeight ->
  Older.optimizeStepAndRepeat fuel
    (request (Qmax docWidth docHeight) (Qmin docWidth docHeight)
       (documentMargin state) (itemWidth state) (itemHeight state))
  = (Normal tt, resultL) ->
  Older.optimizeStepAndRepeat fuel
    (request (Qmin docWidth docHeight) (Qmax docWidth docHeight)
       (documentMargin state) (itemWidth state) (itemHeight state))
  = (Normal tt, resultP) ->
  previews (snd (Older.commitChanges fuel state results))
  = [(resultP, "portrait"); (resultL, "landscape")].
Proof.
  intros docWidth docHeight Hns HL HP.
  assert (Hne : Qeq_bool docWidth docHeight = false).
  { apply not_true_iff_false. intros H. now apply Qeq_bool_iff in H. }
  unfold Older.commitChanges. fold docWidth docHeight. rewrite Hne.
  cbv zeta. rewrite (lowestHighest_minmax _ _ Hne), HL, HP. reflexivity.
Qed.

(** C5 (the claim as stated fails).  The claim has the optimizer run
    exactly twice for every document that is not square.  With a width
    of 100, a height of 20 and a margin of 12.7 the landscape call
    throws (the height is used up by the margin), the [catch] ends the
    commit, and the portrait call is never made: one call, not two. *)
Lemma C5_counterexample :
  Qeq_bool 100 20 = false /\
  calls (snd (AppJs.commitChanges 10 true
                {| documentWidth := 100; documentHeight := 20;
                   documentMargin := 127 # 10; itemWidth := 10;
                   itemHeight := 10; scrollToResult := true |}
                {| square := None; landscape := None; portrait := None |}))
  = [request 100 20 (127 # 10) 10 10] /\
  fst (AppJs.optimizeStepAndRepeat 10 (request 100 20 (127 # 10) 10 10))
  = Throw TooMuchMarginHeight.
Proof. repeat split. Qed.

(** C5 (amended).  A commit runs the optimizer once, on the dimensions
    as they are, when the width equals the height.  Otherwise it first
    runs the landscape candidate, with [documentWidth] the maximum and
    [documentHeight] the minimum of the two dimensions, and then, when
    that call has returned, the portrait candidate with the two
    swapped; both candidates have the margin and the item dimensions of
    the controls.  When the landscape call does not return, the portrait
    call is not made. *)
Theorem C5_optimizer_calls_of_a_commit (fuel : nat) (useScroll : bool)
    (state : State) (results : Results) :
  let docWidth := documentWidth state in
  let docHeight := documentHeight state in
  let candidate w h :=
    request w h (documentMargin state) (itemWidth state) (itemHeight state) in
  let landscapeProps := candidate (Qmax docWidth docHeight) (Qmin docWidth docHeight) in
  let portraitProps := candidate (Qmin docWidth docHeight) (Qmax docWidth docHeight) in
  calls (snd (AppJs.commitChanges fuel useScroll state results)) =
  if Qeq_bool docWidth docHeight then [candidate docWidth docHeight]
  else match fst (AppJs.optimizeStepAndRepeat fuel landscapeProps) with
       | Normal _ => [landscapeProps; portraitProps]
       | _ => [landscapeProps]
       end.
Proof.
  intros docWidth docHeight candidate landscapeProps portraitProps.
  unfold AppJs.commitChanges. fold docWidth docHeight.
  destruct (Qeq_bool docWidth docHeight) eqn:Hsq; cbv zeta.
  - fold (candidate docWidth docHeight).
    destruct (AppJs.optimizeStepAndRepeat fuel (candidate docWidth docHeight))
      as [[[]| | |] ?]; reflexivity.
  - rewrite (lowestHighest_minmax _ _ Hsq).
    fold (candidate (Qmax docWidth docHeight) (Qmin docWidth docHeight)).
    fold (candidate (Qmin docWidth docHeight) (Qmax docWidth docHeight)).
    fold landscapeProps portraitProps.
    destruct (AppJs.optimizeStepAndRepeat fuel landscapeProps)
      as [[[]| | |] resultL]; try reflexivity.
    destruct (AppJs.optimizeStepAndRepeat fuel portraitProps)
      as [[[]| | |] resultP]; try reflexivity.
    simpl fst.
    destruct (itemsCount resultP); [|reflexivity].
    destruct (itemsCount resultL); [|reflexivity].
    destruct (gt q q0); destruct (useScroll && scrollToResult state);
      reflexivity.
Qed.

(** ** The checks *)

(** C6.  With a margin that is not zero, a request whose width or
    height, less twice the margin, is zero or negative makes the
    optimizer throw the "too much margin" error and return nothing: the
    error of the width when the width is used up, and otherwise the
    error of the height.  Dimensions and margin are taken as
    magnitudes, as the code does after its sign normalisation. *)
Theorem C6_margin_exceeds_dimension (o : object) (w h m iw ih : Q) (fuel : nat) :
  numeric o w h m iw ih ->
  ~ m == 0 ->
  absQ w - absQ m * 2 <= 0 \/ absQ h - absQ m * 2 <= 0 ->
  exists e o',
    AppJs.optimizeStepAndRepeat fuel o = (Throw e, o') /\
    (absQ w - absQ m * 2 <= 0 -> e = TooMuchMarginWidth) /\
    (0 < absQ w - absQ m * 2 -> e = TooMuchMarginHeight).
Proof.
  intros Hnum Hm Hexceeds.
  destruct (optimizeWith_numeric gt o w h m iw ih Hnum)
    as (o2 & _ & _ & _ & _ & _ & _ & _ & _ & Heq).
  unfold AppJs.optimizeStepAndRepeat. rewrite Heq. clear Heq.
  replace (neq (absQ m) 0) with true.
  2:{ symmetry. apply neq_true. pose proof (absQ_pos m Hm). lra. }
  destruct (ge 0 (absQ w - absQ m * 2)) eqn:E1.
  - apply ge_true in E1. eexists _, _. split; [reflexivity|].
    split; [reflexivity|]. intros H. lra.
  - apply ge_false in E1.
    replace (ge 0 (absQ h - absQ m * 2)) with true.
    2:{ symmetry. apply ge_true. destruct Hexceeds; [lra|assumption]. }
    eexists _, _. split; [reflexivity|].
    split; [intros H; lra|reflexivity].
Qed.

Lemma C6_margin_exceeds_dimension_witness :
  exists e o',
    AppJs.optimizeStepAndRepeat 5 (request 100 100 60 30 30) = (Throw e, o') /\
    (absQ 100 - absQ 60 * 2 <= 0 -> e = TooMuchMarginWidth) /\
    (0 < absQ 100 - absQ 60 * 2 -> e = TooMuchMarginHeight).
Proof.
  apply (C6_margin_exceeds_dimension _ 100 100 60 30 30 5).
  - apply numeric_request.
  - intros H. discriminate H.
  - left. vm_compute. intros H. discriminate H.
Defined.










(** ** What a call leaves behind *)

(** The object on which the two loops run. *)
Lemma loop_fields (o2 : object) (w h m iw ih : Q) :
  get "documentWidth" o2 = VNum (absQ w) ->
  get "documentHeight" o2 = VNum (absQ h) ->
  get "itemWidth" o2 = VNum (absQ iw) ->
  get "itemHeight" o2 = VNum (absQ ih) ->
  let o3 := if neq (absQ m) 0
            then margined o2 (absQ w) (absQ h) (absQ m) else o2 in
  get "documentWidth" o3 = VNum (usable w m) /\
  get "itemWidth" o3 = VNum (absQ iw) /\
  get "documentHeight" o3 = VNum (usable h m) /\
  get "itemHeight" o3 = VNum (absQ ih).
Proof.
  intros G1 G2 G4 G5. cbv zeta. unfold usable.
  destruct (neq (absQ m) 0).
  - rewrite !margined_fields. simpl. auto.
  - auto.
Qed.

(** The optimizer never computes with a value that is not a number. *)
Lemma optimize_numeric (out : Q -> Q -> bool) (fuel : nat) (o : object) :
  fst (optimizeWith out fuel o) <> NotANumber.
Proof.
  destruct (optimizeWith_classify out o)
    as [(w & h & m & iw & ih & Hnum)|(k & o' & _ & Hthrow)];
    [|rewrite Hthrow; discriminate].
  destruct (optimizeWith_numeric out o w h m iw ih Hnum)
    as (o2 & _ & G1 & G2 & _ & G4 & G5 & _ & _ & Heq).
  rewrite Heq. clear Heq.
  destruct (loop_fields o2 w h m iw ih G1 G2 G4 G5) as (K1 & K4 & K2 & K5).
  assert (Hdet : forall o3 W H sw sh,
             get "documentWidth" o3 = VNum W -> get "itemWidth" o3 = VNum sw ->
             get "documentHeight" o3 = VNum H -> get "itemHeight" o3 = VNum sh ->
             fst (determine out fuel o3) <> NotANumber).
  { intros o3 W H sw sh A B C D. rewrite (determine_run out o3 fuel _ _ _ _ A B C D).
    destruct (countLoop_cases gt _ _ o3 _ _ A B fuel 0 0%Z)
      as [(c & Hc & _)|Hc]; rewrite Hc; [|discriminate].
    destruct (countLoop_cases out _ _ o3 _ _ C D fuel 0 0%Z)
      as [(r & Hr & _)|Hr]; rewrite Hr; discriminate. }
  destruct (neq (absQ m) 0).
  - destruct (ge 0 (absQ w - absQ m * 2)); [discriminate|].
    destruct (ge 0 (absQ h - absQ m * 2)); [discriminate|].
    eapply Hdet; eassumption.
  - eapply Hdet; eassumption.
Qed.

(** The loops and the final assignments never throw. *)
Lemma determine_no_throw (out : Q -> Q -> bool) (fuel : nat) (o3 : object)
    (W H sw sh : Q) (e : error) (o' : object) :
  get "documentWidth" o3 = VNum W -> get "itemWidth" o3 = VNum sw ->
  get "documentHeight" o3 = VNum H -> get "itemHeight" o3 = VNum sh ->
  determine out fuel o3 <> (Throw e, o').
Proof.
  intros A B C D. rewrite (determine_run out o3 fuel _ _ _ _ A B C D).
  destruct (countLoop_cases gt _ _ o3 _ _ A B fuel 0 0%Z)
    as [(c & Hc & _)|Hc]; rewrite Hc; [|discriminate].
  destruct (countLoop_cases out _ _ o3 _ _ C D fuel 0 0%Z)
    as [(r & Hr & _)|Hr]; rewrite Hr; discriminate.
Qed.



(** C8.  The default margin 12.7 is applied exactly when the margin is
    omitted (absent or [null]); a margin that is given is kept.  With a
    margin given as zero the call never throws one of the two margin
    errors, and when it returns the margin is still that zero and the
    width and height are the magnitudes of those given: nothing was
    subtracted.  With the margin omitted, a call that returns has the
    margin 12.7 and a width smaller by twice that. *)
Theorem C8_default_margin_only_when_omitted (o : object) (fuel : nat) :
  get "documentMargin" (defaulted o)
  = match get "documentMargin" o with
    | VNum m => VNum m
    | _ => VNum (127 # 10)
    end /\
  (forall m, get "documentMargin" o = VNum m -> m == 0 ->
     (forall e o', AppJs.optimizeStepAndRepeat fuel o = (Throw e, o') ->
                   exists k, e = PropertyIsNull k) /\
     (forall o', AppJs.optimizeStepAndRepeat fuel o = (Normal tt, o') ->
                 get "documentMargin" o' = VNum m /\
                 get "documentWidth" o' = absv (get "documentWidth" o) /\
                 get "documentHeight" o' = absv (get "documentHeight" o))) /\
  (missing (get "documentMargin" o) ->
     forall o', AppJs.optimizeStepAndRepeat fuel o = (Normal tt, o') ->
                get "documentMargin" o' = VNum (127 # 10) /\
                exists w, get "documentWidth" o = VNum w /\
                          get "documentWidth" o' = VNum (absQ w - (127 # 10) * 2)).
Proof.
  split; [|split].
  - rewrite get_defaulted. simpl. destruct (get "documentMargin" o); reflexivity.
  - intros m Hm Hzero.
    assert (Habs : absQ m = m) by (apply absQ_of_nonneg; lra).
    split.
    + intros e o' Hrun.
      destruct (optimizeWith_classify gt o)
        as [(w & h & m' & iw & ih & Hnum)|(k & o'' & _ & Hthrow)].
      * exfalso.
        destruct (optimizeWith_numeric gt o w h m' iw ih Hnum)
          as (o2 & _ & G1 & G2 & _ & G4 & G5 & _ & _ & Heq).
        unfold AppJs.optimizeStepAndRepeat in Hrun. rewrite Heq in Hrun.
        assert (m' = m).
        { destruct Hnum as [_ _ Hm' _ _ _]. rewrite Hm in Hm'.
          unfold nullish in Hm'. congruence. }
        subst m'. rewrite Habs in Hrun.
        replace (neq m 0) with false in Hrun
          by (symmetry; now apply neq_false).
        revert Hrun. eapply determine_no_throw; eassumption.
      * unfold AppJs.optimizeStepAndRepeat in Hrun. rewrite Hthrow in Hrun.
        exists k. congruence.
    + intros o' Hrun.
      destruct (optimizeWith_normal gt o o' fuel Hrun)
        as (w & h & m' & iw & ih & c & r & o3 & Hnum & Hopt & _).
      destruct Hnum as [Hw Hh Hm' _ _ _]. destruct Hopt.
      rewrite Hm in Hm'. unfold nullish in Hm'. injection Hm' as <-.
      rewrite Hw, Hh, !absv_num, opt_margin0, opt_width0, opt_height0, Habs.
      unfold usable. rewrite Habs.
      replace (neq m 0) with false by (symmetry; now apply neq_false).
      auto.
  - intros Hmiss o' Hrun.
    destruct (optimizeWith_normal gt o o' fuel Hrun)
      as (w & h & m' & iw & ih & c & r & o3 & Hnum & Hopt & _).
    destruct Hnum as [Hw _ Hm' _ _ _]. destruct Hopt.
    assert (m' = 127 # 10).
    { unfold missing, nullish in Hmiss. unfold nullish in Hm'.
      destruct (get "documentMargin" o); congruence. }
    subst m'. split; [exact opt_margin0|].
    exists w. split; [exact Hw|]. exact opt_width0.
Qed.

Lemma C8_default_margin_only_when_omitted_witness :
  get "documentMargin" (snd (AppJs.optimizeStepAndRepeat 10 (request 100 100 0 30 30)))
  = VNum 0 /\
  get "documentWidth" (snd (AppJs.optimizeStepAndRepeat 10 (request 100 100 0 30 30)))
  = absv (get "documentWidth" (request 100 100 0 30 30)) /\
  get "documentHeight" (snd (AppJs.optimizeStepAndRepeat 10 (request 100 100 0 30 30)))
  = absv (get "documentHeight" (request 100 100 0 30 30)).
Proof.
  apply (proj1 (proj2 (C8_default_margin_only_when_omitted
                         (request 100 100 0 30 30) 10)) 0).
  - reflexivity.
  - reflexivity.
  - reflexivity.
Defined.







(** * Further properties of the optimizer *)

(** ** The counts of a call that returns *)

(** What the loop of [js/app.js] has counted when it exits. *)
Lemma countLoop_gt_counted (dim item : string) (o : object) (d s : Q) :
  get dim o = VNum d -> get item o = VNum s -> 0 <= d ->
  forall fuel accum count n o',
    countLoop gt dim item fuel accum count o = (Normal n, o') ->
    accum == inject_Z count * s -> accum <= d ->
    inject_Z n * s <= d /\ d < (inject_Z n + 1) * s.
Proof.
  intros Hdim Hitem Hd.
  induction fuel as [|fuel IH]; intros accum count n o' Hrun Hacc Hle.
  - discriminate.
  - rewrite (countLoop_step gt dim item o d s Hdim Hitem) in Hrun.
    replace (le 0 d) with true in Hrun by (symmetry; now apply le_true).
    destruct (gt (accum + s) d) eqn:E.
    + injection Hrun as <- _. apply gt_true in E. split; lra.
    + apply gt_false in E. apply (IH _ _ _ _ Hrun); [|exact E].
      rewrite inject_Z_plus. change (inject_Z 1) with 1. rewrite Hacc. ring.
Qed.

(** What the row loop of the older variant has counted when it exits. *)
Lemma countLoop_ge_counted (dim item : string) (o : object) (d s : Q) :
  get dim o = VNum d -> get item o = VNum s -> 0 < d ->
  forall fuel accum count n o',
    countLoop ge dim item fuel accum count o = (Normal n, o') ->
    accum == inject_Z count * s -> accum < d ->
    inject_Z n * s < d /\ d <= (inject_Z n + 1) * s.
Proof.
  intros Hdim Hitem Hd.
  induction fuel as [|fuel IH]; intros accum count n o' Hrun Hacc Hlt.
  - discriminate.
  - rewrite (countLoop_step ge dim item o d s Hdim Hitem) in Hrun.
    replace (le 0 d) with true in Hrun by (symmetry; apply le_true; lra).
    destruct (ge (accum + s) d) eqn:E.
    + injection Hrun as <- _. apply ge_true in E. split; lra.
    + apply ge_false in E. apply (IH _ _ _ _ Hrun); [|exact E].
      rewrite inject_Z_plus. change (inject_Z 1) with 1. rewrite Hacc. ring.
Qed.

Lemma usable_nonneg (d m : Q) :
  0 < usable d m + (if neq (absQ m) 0 then 0 else 1) -> 0 <= usable d m.
Proof.
  unfold usable. destruct (neq (absQ m) 0); intros H.
  - lra.
  - apply absQ_nonneg.
Qed.

(** The whole number between whose multiples a quantity lies is the
    floor of the quotient. *)
Lemma floor_of_bounds (n : Z) (d s : Q) :
  0 < s -> inject_Z n * s <= d -> d < (inject_Z n + 1) * s ->
  Qfloor (d / s) = n.
Proof.
  intros Hs Hlo Hhi.
  assert (H1 : inject_Z n <= d / s) by (apply Qle_shift_div_l; assumption).
  assert (H2 : d / s < inject_Z n + 1) by (apply Qlt_shift_div_r; assumption).
  pose proof (Qfloor_le (d / s)) as F1. pose proof (Qlt_floor (d / s)) as F2.
  rewrite inject_Z_plus in F2. change (inject_Z 1) with 1 in F2.
  assert (A : (Qfloor (d / s) < n + 1)%Z).
  { rewrite Zlt_Qlt, inject_Z_plus. change (inject_Z 1) with 1. lra. }
  assert (B : (n < Qfloor (d / s) + 1)%Z).
  { rewrite Zlt_Qlt, inject_Z_plus. change (inject_Z 1) with 1. lra. }
  lia.
Qed.

(** A call of [js/app.js] that returns: the request was numeric, the
    item sizes are not zero, and the counts are maximal for the usable
    dimensions. *)
Lemma AppJs_returns_maximal (o o' : object) (fuel : nat) :
  AppJs.optimizeStepAndRepeat fuel o = (Normal tt, o') ->
  exists (w h m iw ih : Q) (c r : Z),
    numeric o w h m iw ih /\
    optimized o' w h m iw ih c r /\
    0 <= usable w m /\ 0 <= usable h m /\
    0 < absQ iw /\ 0 < absQ ih /\
    inject_Z c * absQ iw <= usable w m < (inject_Z c + 1) * absQ iw /\
    inject_Z r * absQ ih <= usable h m < (inject_Z r + 1) * absQ ih.
Proof.
  intros Hrun.
  destruct (optimizeWith_normal gt o o' fuel Hrun)
    as (w & h & m & iw & ih & c & r & o3 & Hnum & Hopt & P1 & P2
        & K1 & K4 & K2 & K5 & Hc & Hr & _).
  apply usable_nonneg in P1. apply usable_nonneg in P2.
  destruct (countLoop_gt_counted _ _ o3 _ _ K1 K4 P1 _ _ _ _ _ Hc)
    as [C1 C2]; [change (inject_Z 0) with 0; ring|exact P1|].
  destruct (countLoop_gt_counted _ _ o3 _ _ K2 K5 P2 _ _ _ _ _ Hr)
    as [R1 R2]; [change (inject_Z 0) with 0; ring|exact P2|].
  exists w, h, m, iw, ih, c, r.
  pose proof (absQ_nonneg iw) as Niw. pose proof (absQ_nonneg ih) as Nih.
  assert (0 < absQ iw).
  { destruct (Qlt_le_dec 0 (absQ iw)) as [L|L]; [exact L|].
    assert (E : absQ iw == 0) by lra. rewrite E in C2. lra. }
  assert (0 < absQ ih).
  { destruct (Qlt_le_dec 0 (absQ ih)) as [L|L]; [exact L|].
    assert (E : absQ ih == 0) by lra. rewrite E in R2. lra. }
  split; [exact Hnum|]. split; [exact Hopt|].
  repeat split; assumption.
Qed.

Lemma numeric_unique (o : object) (w h m iw ih w' h' m' iw' ih' : Q) :
  numeric o w h m iw ih -> numeric o w' h' m' iw' ih' ->
  w = w' /\ h = h' /\ m = m' /\ iw = iw' /\ ih = ih'.
Proof.
  intros [A1 A2 A3 A4 A5 _] [B1 B2 B3 B4 B5 _].
  rewrite A1 in B1. rewrite A2 in B2. rewrite A3 in B3.
  rewrite A4 in B4. rewrite A5 in B5.
  repeat split; congruence.
Qed.

(** A call that returns, with the object that the loops ran on. *)
Lemma optimizeWith_returns (out : Q -> Q -> bool) (o o' : object) (fuel : nat) :
  optimizeWith out fuel o = (Normal tt, o') ->
  exists w h m iw ih c r o2,
    numeric o w h m iw ih /\
    sanitizeAll (recorded (defaulted o)) = (Normal tt, o2) /\
    let o3 := if neq (absQ m) 0
              then margined o2 (absQ w) (absQ h) (absQ m) else o2 in
    0 <= usable w m /\ 0 <= usable h m /\
    (neq (absQ m) 0 = true -> 0 < usable w m /\ 0 < usable h m) /\
    get "documentWidth" o3 = VNum (usable w m) /\
    get "itemWidth" o3 = VNum (absQ iw) /\
    get "documentHeight" o3 = VNum (usable h m) /\
    get "itemHeight" o3 = VNum (absQ ih) /\
    countLoop gt "documentWidth" "itemWidth" fuel 0 0%Z o3 = (Normal c, o3) /\
    countLoop out "documentHeight" "itemHeight" fuel 0 0%Z o3 = (Normal r, o3) /\
    o' = set "maxColumns" (VNum (inject_Z c))
           (set "maxRows" (VNum (inject_Z r)) o3).
Proof.
  intros Hrun.
  destruct (optimizeWith_classify out o)
    as [(w & h & m & iw & ih & Hnum)|(k & o'' & _ & Hthrow)];
    [|rewrite Hthrow in Hrun; discriminate].
  destruct (optimizeWith_numeric out o w h m iw ih Hnum)
    as (o2 & Hsan & G1 & G2 & G3 & G4 & G5 & G6 & G7 & Heq).
  rewrite Heq in Hrun. clear Heq.
  destruct (loop_fields o2 w h m iw ih G1 G2 G4 G5) as (K1 & K4 & K2 & K5).
  exists w, h, m, iw, ih.
  set (o3 := if neq (absQ m) 0
             then margined o2 (absQ w) (absQ h) (absQ m) else o2) in *.
  assert (Hpos : 0 <= usable w m /\ 0 <= usable h m /\
                 (neq (absQ m) 0 = true -> 0 < usable w m /\ 0 < usable h m) /\
                 determine out fuel o3 = (Normal tt, o')).
  { unfold usable, o3. destruct (neq (absQ m) 0).
    - destruct (ge 0 (absQ w - absQ m * 2)) eqn:E1; [discriminate|].
      destruct (ge 0 (absQ h - absQ m * 2)) eqn:E2; [discriminate|].
      apply ge_false in E1, E2. repeat split; try lra. exact Hrun.
    - pose proof (absQ_nonneg w). pose proof (absQ_nonneg h).
      repeat split; try lra; try discriminate. exact Hrun. }
  destruct Hpos as (P1 & P2 & P3 & Hdet).
  rewrite (determine_run out o3 fuel _ _ _ _ K1 K4 K2 K5) in Hdet.
  destruct (countLoop_cases gt _ _ o3 _ _ K1 K4 fuel 0 0%Z)
    as [(c & Hc & _)|Hc]; rewrite Hc in Hdet; [|discriminate].
  destruct (countLoop_cases out _ _ o3 _ _ K2 K5 fuel 0 0%Z)
    as [(r & Hr & _)|Hr]; rewrite Hr in Hdet; [|discriminate].
  injection Hdet as <-.
  exists c, r, o2. cbv zeta. fold o3.
  repeat (split; [assumption|]). reflexivity.
Qed.

(** X4.  More room never gives fewer items: of two results of
    [js/app.js], the one with the wider usable width and the narrower
    (or equal) item has at least as many columns, and likewise for the
    rows. *)
Theorem AppJs_counts_monotone (o1 o2 r1 r2 : object) (fuel1 fuel2 : nat) :
  AppJs.optimizeStepAndRepeat fuel1 o1 = (Normal tt, r1) ->
  AppJs.optimizeStepAndRepeat fuel2 o2 = (Normal tt, r2) ->
  exists (W1 W2 H1 H2 sw1 sw2 sh1 sh2 : Q) (c1 c2 n1 n2 : Z),
    (get "documentWidth" r1 = VNum W1 /\ get "documentWidth" r2 = VNum W2 /\
     get "documentHeight" r1 = VNum H1 /\ get "documentHeight" r2 = VNum H2) /\
    (get "itemWidth" r1 = VNum sw1 /\ get "itemWidth" r2 = VNum sw2 /\
     get "itemHeight" r1 = VNum sh1 /\ get "itemHeight" r2 = VNum sh2) /\
    (get "maxColumns" r1 = VNum (inject_Z c1) /\
     get "maxColumns" r2 = VNum (inject_Z c2) /\
     get "maxRows" r1 = VNum (inject_Z n1) /\
     get "maxRows" r2 = VNum (inject_Z n2)) /\
    (W1 <= W2 -> sw2 <= sw1 -> (c1 <= c2)%Z) /\
    (H1 <= H2 -> sh2 <= sh1 -> (n1 <= n2)%Z).
Proof.
  intros Hrun1 Hrun2.
  destruct (AppJs_returns_maximal o1 r1 fuel1 Hrun1)
    as (w1 & h1 & m1 & iw1 & ih1 & c1 & n1 & _ & Hopt1 & _ & _ & Psw1 & Psh1
        & [C1 C1'] & [R1 R1']).
  destruct (AppJs_returns_maximal o2 r2 fuel2 Hrun2)
    as (w2 & h2 & m2 & iw2 & ih2 & c2 & n2 & _ & Hopt2 & _ & _ & Psw2 & Psh2
        & [C2 C2'] & [R2 R2']).
  destruct Hopt1 as [A1 A2 _ A3 A4 _ _ A5 A6 Pc1 Pn1].
  destruct Hopt2 as [B1 B2 _ B3 B4 _ _ B5 B6 Pc2 Pn2].
  exists (usable w1 m1), (usable w2 m2), (usable h1 m1), (usable h2 m2),
    (absQ iw1), (absQ iw2), (absQ ih1), (absQ ih2), c1, c2, n1, n2.
  split; [auto|]. split; [auto|]. split; [auto|].
  assert (Hmono : forall (a b : Z) (D1 D2 s1 s2 : Q),
             (0 <= a)%Z -> 0 < s2 ->
             inject_Z a * s1 <= D1 -> D2 < (inject_Z b + 1) * s2 ->
             D1 <= D2 -> s2 <= s1 -> (a <= b)%Z).
  { intros a b D1 D2 s1 s2 Ha Hs2 Hfit Hnext HD Hs.
    apply Z.lt_succ_r. unfold Z.succ.
    rewrite Zlt_Qlt, inject_Z_plus. change (inject_Z 1) with 1.
    apply Qmult_lt_r with (z := s2); [exact Hs2|].
    assert (Hle : inject_Z a * s2 <= inject_Z a * s1).
    { rewrite (Qmult_comm (inject_Z a) s2), (Qmult_comm (inject_Z a) s1).
      apply Qmult_le_compat_r; [exact Hs|].
      change 0 with (inject_Z 0). now rewrite <- Zle_Qle. }
    lra. }
  split; intros HD Hs.
  - now apply (Hmono c1 c2 (usable w1 m1) (usable w2 m2) (absQ iw1) (absQ iw2)).
  - now apply (Hmono n1 n2 (usable h1 m1) (usable h2 m2) (absQ ih1) (absQ ih2)).
Qed.

(** X5.  Calling the optimizer on its own result is not harmless.  The
    second call takes the usable dimensions of the first for the
    document: it records them as the real dimensions, and takes the
    margin off them once more when the margin is not zero. *)
Theorem AppJs_second_call_shrinks (o o1 o2 : object) (fuel1 fuel2 : nat) :
  AppJs.optimizeStepAndRepeat fuel1 o = (Normal tt, o1) ->
  AppJs.optimizeStepAndRepeat fuel2 o1 = (Normal tt, o2) ->
  exists W H M : Q,
    get "documentWidth" o1 = VNum W /\
    get "documentHeight" o1 = VNum H /\
    get "documentMargin" o1 = VNum M /\
    get "documentMargin" o2 = VNum M /\
    get "documentWidthReal" o2 = VNum W /\
    get "documentHeightReal" o2 = VNum H /\
    get "documentWidth" o2 = VNum (if neq M 0 then W - M * 2 else W) /\
    get "documentHeight" o2 = VNum (if neq M 0 then H - M * 2 else H).
Proof.
  intros Hrun1 Hrun2.
  destruct (optimizeWith_normal gt o o1 fuel1 Hrun1)
    as (w & h & m & iw & ih & c & r & o3 & _ & Hopt1 & P1 & P2 & _).
  destruct (optimizeWith_normal gt o1 o2 fuel2 Hrun2)
    as (w1 & h1 & m1 & iw1 & ih1 & c1 & r1 & o3' & Hnum2 & Hopt2 & _).
  apply usable_nonneg in P1. apply usable_nonneg in P2.
  destruct Hopt1 as [A1 A2 A3 _ _ _ _ _ _ _ _].
  destruct Hnum2 as [B1 B2 B3 _ _ _].
  destruct Hopt2 as [D1 D2 D3 _ _ D6 D7 _ _ _ _].
  rewrite A1 in B1. rewrite A2 in B2. rewrite A3 in B3. unfold nullish in B3.
  injection B1 as <-. injection B2 as <-. injection B3 as <-.
  assert (E1 : absQ (usable w m) = usable w m) by now apply absQ_of_nonneg.
  assert (E2 : absQ (usable h m) = usable h m) by now apply absQ_of_nonneg.
  assert (E3 : absQ (absQ m) = absQ m) by apply absQ_of_nonneg, absQ_nonneg.
  unfold usable at 1 in D1. unfold usable at 1 in D2.
  rewrite E1, E3 in D1. rewrite E2, E3 in D2.
  rewrite E3 in D3. rewrite E1 in D6. rewrite E2 in D7.
  exists (usable w m), (usable h m), (absQ m). repeat split; assumption.
Qed.

(** X6.  A call that fails on the margin has already written into the
    caller's object: it is left with the width and the height reduced
    by twice the margin, one of them zero or negative. *)
Theorem AppJs_margin_failure_leaves_reduced (o : object) (w h m iw ih : Q)
    (fuel : nat) :
  numeric o w h m iw ih ->
  ~ m == 0 ->
  absQ w - absQ m * 2 <= 0 \/ absQ h - absQ m * 2 <= 0 ->
  let o' := snd (AppJs.optimizeStepAndRepeat fuel o) in
  get "documentWidth" o' = VNum (absQ w - absQ m * 2) /\
  get "documentHeight" o' = VNum (absQ h - absQ m * 2) /\
  get "documentWidthReal" o' = VNum (absQ w) /\
  get "documentHeightReal" o' = VNum (absQ h).
Proof.
  intros Hnum Hm Hexceeds. cbv zeta.
  destruct (optimizeWith_numeric gt o w h m iw ih Hnum)
    as (o2 & _ & _ & _ & _ & _ & _ & G6 & G7 & Heq).
  unfold AppJs.optimizeStepAndRepeat. rewrite Heq. clear Heq.
  replace (neq (absQ m) 0) with true.
  2:{ symmetry. apply neq_true. pose proof (absQ_pos m Hm). lra. }
  assert (Hfields :
            get "documentWidth" (margined o2 (absQ w) (absQ h) (absQ m))
            = VNum (absQ w - absQ m * 2) /\
            get "documentHeight" (margined o2 (absQ w) (absQ h) (absQ m))
            = VNum (absQ h - absQ m * 2) /\
            get "documentWidthReal" (margined o2 (absQ w) (absQ h) (absQ m))
            = VNum (absQ w) /\
            get "documentHeightReal" (margined o2 (absQ w) (absQ h) (absQ m))
            = VNum (absQ h)).
  { rewrite !margined_fields. simpl. auto. }
  destruct (ge 0 (absQ w - absQ m * 2)) eqn:E1; [exact Hfields|].
  apply ge_false in E1.
  replace (ge 0 (absQ h - absQ m * 2)) with true; [exact Hfields|].
  symmetry. apply ge_true. destruct Hexceeds; [lra|assumption].
Qed.

(** ** The sign of the fields *)

Lemma set_same (k : string) (v : value) (o : object) :
  get k o = v -> In k (keys o) -> set k v o = o.
Proof.
  induction o as [|[k0 v0] o IH]; simpl; intros Hget Hin; [contradiction|].
  destruct (String.eqb k k0) eqn:E.
  - now subst.
  - f_equal. apply IH; [exact Hget|].
    destruct Hin as [Hin|Hin]; [|exact Hin].
    subst. rewrite String.eqb_refl in E. discriminate.
Qed.

Lemma flipped_num (k : string) (o : object) (q : Q) :
  get k o = VNum q -> flipped k o = set k (VNum (absQ q)) o.
Proof.
  intros Hget. unfold flipped, absQ. rewrite Hget. simpl.
  destruct (gt 0 q); [reflexivity|].
  symmetry. apply set_same; [exact Hget|].
  apply get_present. rewrite Hget. discriminate.
Qed.

Lemma recorded_request (w h m iw ih : Q) :
  recorded (defaulted (request w h m iw ih))
  = request w h m iw ih
    ++ [("documentWidthReal", VNum w); ("documentHeightReal", VNum h)].
Proof. reflexivity. Qed.

(** The object literal of a commit after the loop over the keys. *)
Lemma sanitize_request (w h m iw ih : Q) :
  sanitizeAll (recorded (defaulted (request w h m iw ih)))
  = (Normal tt,
     request (absQ w) (absQ h) (absQ m) (absQ iw) (absQ ih)
     ++ [("documentWidthReal", VNum (absQ w));
         ("documentHeightReal", VNum (absQ h))]).
Proof.
  rewrite recorded_request. unfold sanitizeAll, bind, ownKeys.
  cbn [keys map fst request app].
  do 7 (rewrite sanitize_cons;
        cbn [get String.eqb Ascii.eqb Bool.eqb isNull];
        erewrite flipped_num by reflexivity;
        cbn [set String.eqb Ascii.eqb Bool.eqb]).
  reflexivity.
Qed.

Lemma absQ_idem (q : Q) : absQ (absQ q) = absQ q.
Proof. apply absQ_of_nonneg, absQ_nonneg. Qed.

(** X7.  The optimizer does not see the sign of a field: called on the
    object literal of a commit, either variant ends as it does on the
    literal whose five fields are replaced by their magnitudes, with
    the same completion and the same final object. *)
Theorem optimizer_ignores_signs (w h m iw ih : Q) (fuel : nat) :
  AppJs.optimizeStepAndRepeat fuel (request w h m iw ih)
  = AppJs.optimizeStepAndRepeat fuel
      (request (absQ w) (absQ h) (absQ m) (absQ iw) (absQ ih)) /\
  Older.optimizeStepAndRepeat fuel (request w h m iw ih)
  = Older.optimizeStepAndRepeat fuel
      (request (absQ w) (absQ h) (absQ m) (absQ iw) (absQ ih)).
Proof.
  assert (Hgen : forall out,
             optimizeWith out fuel (request w h m iw ih)
             = optimizeWith out fuel
                 (request (absQ w) (absQ h) (absQ m) (absQ iw) (absQ ih))).
  { intros out. unfold optimizeWith.
    rewrite !(bind_normal _ _ _ _ _ (applyDefaults_run _)).
    rewrite !(bind_normal _ _ _ _ _ (keepReal_run _)).
    rewrite !(bind_normal _ _ _ _ _ (sanitize_request _ _ _ _ _)).
    rewrite !absQ_idem. reflexivity. }
  split; apply Hgen.
Qed.

(** ** Commits *)

Lemma lowestHighest_swap (docWidth docHeight : Q) :
  Qeq_bool docWidth docHeight = false ->
  lowestHighest docHeight docWidth = lowestHighest docWidth docHeight.
Proof.
  intros Hne.
  assert (Hneq : ~ docWidth == docHeight).
  { intros H. apply Qeq_bool_iff in H. congruence. }
  unfold lowestHighest.
  destruct (gt docWidth docHeight) eqn:E1, (gt docHeight docWidth) eqn:E2;
    try reflexivity.
  - apply gt_true in E1, E2. lra.
  - apply gt_false in E1, E2. exfalso. apply Hneq. lra.
Qed.

(** X8.  A commit of [js/app.js] does not depend on which of the two
    document dimensions is entered as the width: for a document that
    is not square, exchanging [documentWidth] and [documentHeight] in
    the controls gives the same calls of the optimizer, the same
    results and the same preview. *)
Theorem AppJs_commit_orientation_free (fuel : nat) (useScroll : bool)
    (state : State) (results : Results) :
  ~ documentWidth state == documentHeight state ->
  AppJs.commitChanges fuel useScroll
    {| documentWidth := documentHeight state;
       documentHeight := documentWidth state;
       documentMargin := documentMargin state;
       itemWidth := itemWidth state;
       itemHeight := itemHeight state;
       scrollToResult := scrollToResult state |} results
  = AppJs.commitChanges fuel useScroll state results.
Proof.
  intros Hns.
  assert (Hne : Qeq_bool (documentWidth state) (documentHeight state) = false).
  { apply not_true_iff_false. intros H. now apply Qeq_bool_iff in H. }
  assert (Hne' : Qeq_bool (documentHeight state) (documentWidth state) = false).
  { apply not_true_iff_false. intros H. apply Qeq_bool_iff in H.
    apply Hns. now symmetry. }
  unfold AppJs.commitChanges. cbn [documentWidth documentHeight documentMargin
                                   itemWidth itemHeight scrollToResult].
  rewrite Hne, Hne'. cbv zeta. rewrite (lowestHighest_swap _ _ Hne).
  reflexivity.
Qed.

Lemma absQ_comp (a b : Q) : a == b -> absQ a == absQ b.
Proof.
  intros H. unfold absQ.
  destruct (gt 0 a) eqn:Ea, (gt 0 b) eqn:Eb;
    rewrite ?gt_true, ?gt_false in *; lra.
Qed.

(** The item count of a result of [js/app.js], from the fields of the
    object literal it was called on. *)
Lemma AppJs_request_itemsCount (w h m iw ih : Q) (fuel : nat) (result : object) :
  AppJs.optimizeStepAndRepeat fuel (request w h m iw ih) = (Normal tt, result) ->
  0 < absQ iw /\ 0 < absQ ih /\
  itemsCount result
  = Some (inject_Z (Qfloor (usable h m / absQ ih))
          * inject_Z (Qfloor (usable w m / absQ iw))).
Proof.
  intros Hrun.
  destruct (AppJs_returns_maximal _ result fuel Hrun)
    as (w' & h' & m' & iw' & ih' & c & r & Hnum & Hopt & _ & _ & Piw & Pih
        & [C1 C2] & [R1 R2]).
  destruct (numeric_unique _ _ _ _ _ _ _ _ _ _ _ Hnum (numeric_request w h m iw ih))
    as (-> & -> & -> & -> & ->).
  destruct Hopt.
  split; [exact Piw|]. split; [exact Pih|].
  unfold itemsCount. rewrite opt_maxRows0, opt_maxColumns0.
  rewrite (floor_of_bounds c _ _ Piw C1 C2).
  rewrite (floor_of_bounds r _ _ Pih R1 R2). reflexivity.
Qed.

(** X9.  With items as wide as they are high the two candidates of a
    document that is not square hold the same number of items, so the
    single preview of [js/app.js] is the landscape one. *)
Theorem AppJs_square_items_render_landscape (fuel : nat) (useScroll : bool)
    (state : State) (results : Results) (resultL resultP : object) :
  let docWidth := documentWidth state in
  let docHeight := documentHeight state in
  ~ docWidth == docHeight ->
  itemWidth state == itemHeight state ->
  AppJs.optimizeStepAndRepeat fuel
    (request (Qmax docWidth docHeight) (Qmin docWidth docHeight)
       (documentMargin state) (itemWidth state) (itemHeight state))
  = (Normal tt, resultL) ->
  AppJs.optimizeStepAndRepeat fuel
    (request (Qmin docWidth docHeight) (Qmax docWidth docHeight)
       (documentMargin state) (itemWidth state) (itemHeight state))
  = (Normal tt, resultP) ->
  itemsCount resultP = itemsCount resultL /\
  previews (snd (AppJs.commitChanges fuel useScroll state results))
  = [(resultL, "landscape")].
Proof.
  intros docWidth docHeight Hns Hitems HL HP.
  assert (Hne : Qeq_bool docWidth docHeight = false).
  { apply not_true_iff_false. intros H. now apply Qeq_bool_iff in H. }
  destruct (AppJs_request_itemsCount _ _ _ _ _ _ _ HL) as (Piw & Pih & HcL).
  destruct (AppJs_request_itemsCount _ _ _ _ _ _ _ HP) as (_ & _ & HcP).
  assert (Habs : absQ (itemWidth state) == absQ (itemHeight state))
    by now apply absQ_comp.
  set (m := documentMargin state) in *.
  assert (F1 : Qfloor (usable (Qmax docWidth docHeight) m / absQ (itemHeight state))
               = Qfloor (usable (Qmax docWidth docHeight) m / absQ (itemWidth state))).
  { apply Qfloor_comp. now rewrite Habs. }
  assert (F2 : Qfloor (usable (Qmin docWidth docHeight) m / absQ (itemHeight state))
               = Qfloor (usable (Qmin docWidth docHeight) m / absQ (itemWidth state))).
  { apply Qfloor_comp. now rewrite Habs. }
  rewrite F2 in HcL. rewrite F1 in HcP.
  assert (Heq : itemsCount resultP = itemsCount resultL).
  { rewrite HcL, HcP. f_equal. unfold Qmult. simpl. f_equal. ring. }
  split; [exact Heq|].
  unfold AppJs.commitChanges. fold docWidth docHeight. rewrite Hne.
  cbv zeta. fold m. rewrite (lowestHighest_minmax _ _ Hne), HL, HP.
  rewrite Heq, HcL.
  replace (gt _ _) with false
    by (symmetry; apply gt_false; apply Qle_refl).
  destruct (useScroll && scrollToResult state); reflexivity.
Qed.

(** X10.  A commit whose margin uses up the width or the height of the
    document.  [js/app.js] catches the error of the optimizer: the
    commit ends normally after one call, one alert with the margin
    error and the clearing of the preview, and renders nothing.  The
    older variant lets the error through: the commit throws it after
    the one call and the preview on screen is not cleared. *)
Theorem commit_with_too_much_margin (fuel : nat) (useScroll : bool)
    (state : State) (results : Results) :
  ~ documentMargin state == 0 ->
  absQ (documentWidth state) - absQ (documentMargin state) * 2 <= 0 \/
  absQ (documentHeight state) - absQ (documentMargin state) * 2 <= 0 ->
  exists e props,
    (e = TooMuchMarginWidth \/ e = TooMuchMarginHeight) /\
    fst (fst (AppJs.commitChanges fuel useScroll state results)) = Normal tt /\
    snd (AppJs.commitChanges fuel useScroll state results)
    = [Call props; Alert e; ClearDocumentPreview] /\
    fst (fst (Older.commitChanges fuel state results)) = Throw e /\
    snd (Older.commitChanges fuel state results) = [Call props].
Proof.
  intros Hm Hexceeds.
  set (w := documentWidth state) in *. set (h := documentHeight state) in *.
  set (m := documentMargin state) in *.
  assert (Hcand : forall a b, (a = w /\ b = h) \/ (a = h /\ b = w) ->
            exists e,
              (e = TooMuchMarginWidth \/ e = TooMuchMarginHeight) /\
              fst (AppJs.optimizeStepAndRepeat fuel
                     (request a b m (itemWidth state) (itemHeight state)))
              = Throw e /\
              fst (Older.optimizeStepAndRepeat fuel
                     (request a b m (itemWidth state) (itemHeight state)))
              = Throw e).
  { intros a b Hab.
    assert (Hex : absQ a - absQ m * 2 <= 0 \/ absQ b - absQ m * 2 <= 0).
    { destruct Hab as [[-> ->]|[-> ->]]; tauto. }
    pose proof (numeric_request a b m (itemWidth state) (itemHeight state)) as Hnum.
    destruct (optimizeWith_numeric gt _ _ _ _ _ _ Hnum)
      as (o2 & _ & _ & _ & _ & _ & _ & _ & _ & HeqA).
    destruct (optimizeWith_numeric ge _ _ _ _ _ _ Hnum)
      as (o2' & _ & _ & _ & _ & _ & _ & _ & _ & HeqB).
    unfold AppJs.optimizeStepAndRepeat, Older.optimizeStepAndRepeat.
    rewrite HeqA, HeqB.
    replace (neq (absQ m) 0) with true.
    2:{ symmetry. apply neq_true. pose proof (absQ_pos m Hm). lra. }
    destruct (ge 0 (absQ a - absQ m * 2)) eqn:E1.
    - exists TooMuchMarginWidth. auto.
    - apply ge_false in E1.
      replace (ge 0 (absQ b - absQ m * 2)) with true.
      2:{ symmetry. apply ge_true. destruct Hex; [lra|assumption]. }
      exists TooMuchMarginHeight. auto. }
  unfold AppJs.commitChanges, Older.commitChanges. fold w h m.
  destruct (Qeq_bool w h) eqn:Hsq; cbv zeta.
  - destruct (Hcand w h) as (e & He & HA & HB); [tauto|].
    exists e, (request w h m (itemWidth state) (itemHeight state)).
    destruct (AppJs.optimizeStepAndRepeat fuel
                (request w h m (itemWidth state) (itemHeight state)))
      as [cA oA]; simpl in HA; subst cA.
    destruct (Older.optimizeStepAndRepeat fuel
                (request w h m (itemWidth state) (itemHeight state)))
      as [cB oB]; simpl in HB; subst cB.
    simpl. auto.
  - unfold lowestHighest. destruct (gt w h).
    + destruct (Hcand w h) as (e & He & HA & HB); [tauto|].
      exists e, (request w h m (itemWidth state) (itemHeight state)).
      destruct (AppJs.optimizeStepAndRepeat fuel
                  (request w h m (itemWidth state) (itemHeight state)))
        as [cA oA]; simpl in HA; subst cA.
      destruct (Older.optimizeStepAndRepeat fuel
                  (request w h m (itemWidth state) (itemHeight state)))
        as [cB oB]; simpl in HB; subst cB.
      simpl. auto.
    + destruct (Hcand h w) as (e & He & HA & HB); [tauto|].
      exists e, (request h w m (itemWidth state) (itemHeight state)).
      destruct (AppJs.optimizeStepAndRepeat fuel
                  (request h w m (itemWidth state) (itemHeight state)))
        as [cA oA]; simpl in HA; subst cA.
      destruct (Older.optimizeStepAndRepeat fuel
                  (request h w m (itemWidth state) (itemHeight state)))
        as [cB oB]; simpl in HB; subst cB.
      simpl. auto.
Qed.

(** * Filtering the input of a control *)

Lemma string_append_assoc (a b c : string) :
  ((a ++ b) ++ c = a ++ (b ++ c))%string.
Proof. induction a as [|x a IH]; simpl; [reflexivity|now rewrite IH]. Qed.

Lemma string_append_empty (a : string) : (a ++ "" = a)%string.
Proof. induction a as [|x a IH]; simpl; [reflexivity|now rewrite IH]. Qed.

Lemma string_length_append (a b : string) :
  String.length (a ++ b) = (String.length a + String.length b)%nat.
Proof. induction a as [|x a IH]; simpl; [reflexivity|now rewrite IH]. Qed.

Lemma string_get_append (pre rest : string) (c : ascii) :
  String.get (String.length pre) (pre ++ String c rest) = Some c.
Proof. induction pre as [|x pre IH]; simpl; [reflexivity|exact IH]. Qed.

Lemma string_of_list_app (l1 l2 : list ascii) :
  string_of_list_ascii (l1 ++ l2)
  = (string_of_list_ascii l1 ++ string_of_list_ascii l2)%string.
Proof. induction l1 as [|x l1 IH]; simpl; [reflexivity|now rewrite IH]. Qed.

(** The loop from any index on: it appends to the buffer the
    characters of the rest of the input that are in the set. *)
Lemma filterLoop_keep (set : string) : forall (rest pre buffer : string),
  filterLoop (pre ++ rest) set true (String.length rest) (String.length pre) buffer
  = (buffer ++ kept set rest)%string.
Proof.
  induction rest as [|c rest IH]; intros pre buffer.
  - simpl. now rewrite string_append_empty.
  - cbn [String.length filterLoop]. rewrite string_get_append.
    replace (pre ++ String c rest)%string
      with ((pre ++ String c "") ++ rest)%string
      by (rewrite string_append_assoc; reflexivity).
    replace (S (String.length pre)) with (String.length (pre ++ String c ""))
      by (rewrite string_length_append; simpl; lia).
    rewrite IH. unfold kept. simpl.
    destruct (includes set c); simpl.
    + rewrite string_append_assoc. reflexivity.
    + reflexivity.
Qed.

Lemma filterLoop_drop (input set : string) : forall steps currentIndex buffer,
  filterLoop input set false steps currentIndex buffer = buffer.
Proof.
  induction steps as [|steps IH]; intros currentIndex buffer; [reflexivity|].
  simpl. destruct (String.get currentIndex input); [|reflexivity].
  rewrite IH. destruct (includes set a); reflexivity.
Qed.

Lemma kept_empty_set (input : string) : kept "" input = "".
Proof.
  unfold kept, includes. simpl.
  induction (list_ascii_of_string input) as [|c l IH]; [reflexivity|exact IH].
Qed.

(** X11.  With [keep] set, [filterString] returns the characters of
    the input that occur in the set, in the order of the input and as
    often as they occur there; the early returns for an empty input and
    an empty set agree with this. *)
Theorem filterString_keeps_the_set (input set : string) :
  filterString (AString input) (AString set) true = kept set input.
Proof.
  unfold filterString.
  destruct (String.length input =? 0)%nat eqn:Ei.
  - apply Nat.eqb_eq in Ei. destruct input; [reflexivity|discriminate].
  - destruct (String.length set =? 0)%nat eqn:Es.
    + apply Nat.eqb_eq in Es. destruct set; [|discriminate].
      now rewrite kept_empty_set.
    + apply (filterLoop_keep set input "" "").
Qed.

(** X12.  Without [keep], [filterString] returns the empty string for
    every input and every set: the characters of the set are skipped
    and the others are never appended. *)
Theorem filterString_without_keep_is_empty (input set : argument) :
  filterString input set false = "".
Proof.
  unfold filterString. destruct input as [input|]; [|reflexivity].
  destruct (String.length input =? 0)%nat; [reflexivity|].
  destruct set as [set|]; [|reflexivity].
  destruct (String.length set =? 0)%nat; [reflexivity|].
  apply filterLoop_drop.
Qed.

Lemma kept_characters (set input : string) :
  Forall (fun c => includes set c = true) (list_ascii_of_string (kept set input)).
Proof.
  unfold kept. rewrite list_ascii_of_string_of_list_ascii.
  apply Forall_forall. intros c Hc. now apply filter_In in Hc.
Qed.

Lemma kept_clean (set input : string) :
  Forall (fun c => includes set c = true) (list_ascii_of_string input) ->
  kept set input = input.
Proof.
  intros Hall. unfold kept.
  rewrite forallb_filter_id.
  - apply string_of_list_ascii_of_string.
  - apply forallb_forall. now apply Forall_forall.
Qed.

Lemma filterMathExpr_kept (input : string) :
  filterMathExpr (AString input) = kept mathCharacters input.
Proof.
  unfold filterMathExpr, filterString.
  destruct (String.length input =? 0)%nat eqn:Ei.
  - apply Nat.eqb_eq in Ei. destruct input; [reflexivity|discriminate].
  - apply (filterLoop_keep mathCharacters input "" "").
Qed.

(** X13.  What [filterMathExpr] returns consists of digits and of the
    characters [ +-/*^()%.,] only; filtering it again changes nothing,
    an input made of such characters only is returned as it is, and the
    result is never longer than the input. *)
Theorem filterMathExpr_cleans (input : string) :
  Forall (fun c => includes mathCharacters c = true)
    (list_ascii_of_string (filterMathExpr (AString input))) /\
  filterMathExpr (AString (filterMathExpr (AString input)))
  = filterMathExpr (AString input) /\
  (Forall (fun c => includes mathCharacters c = true) (list_ascii_of_string input) ->
   filterMathExpr (AString input) = input) /\
  (String.length (filterMathExpr (AString input)) <= String.length input)%nat.
Proof.
  rewrite !filterMathExpr_kept.
  split; [apply kept_characters|].
  split; [apply kept_clean, kept_characters|].
  split; [apply kept_clean|].
  unfold kept.
  assert (Hlen : forall s, String.length s = List.length (list_ascii_of_string s)).
  { induction s as [|c s IH]; simpl; [reflexivity|now rewrite IH]. }
  rewrite !Hlen, list_ascii_of_string_of_list_ascii. apply filter_length_le.
Qed.

Lemma filterMathExpr_cleans_witness :
  filterMathExpr (AString "2*(3+4)") = "2*(3+4)".
Proof.
  apply (proj1 (proj2 (proj2 (filterMathExpr_cleans "2*(3+4)")))).
  repeat constructor.
Defined.

Lemma kept_nothing (set input : string) :
  kept set input = "" <->
  Forall (fun c => includes set c = false) (list_ascii_of_string input).
Proof.
  unfold kept. induction (list_ascii_of_string input) as [|c l IH]; simpl.
  - split; [constructor|reflexivity].
  - destruct (includes set c) eqn:E; simpl.
    + split; [discriminate|]. intros H. inversion H. congruence.
    + rewrite IH. split; [now constructor|]. intros H. now inversion H.
Qed.

(** X14.  What reaches [Function] in [mathExpressionEvaluator].  For a
    string argument the function never throws its own error; it
    returns [null], without evaluating anything, exactly when the
    expression has none of the characters of a mathematical
    expression; otherwise the code evaluated is
    ['use strict'; return E;] where [E] is not empty and consists of
    digits and of the characters [ +-/*^()%.,] only, so that no letter
    of the input is ever evaluated. *)
Theorem mathExpressionEvaluator_evaluates_clean_code (expr : string) :
  match mathExpressionEvaluator (AString expr) with
  | MustBeAString => False
  | ReturnsNull =>
      Forall (fun c => includes mathCharacters c = false)
        (list_ascii_of_string expr)
  | Evaluates code =>
      exists e,
        code = ("'use strict'; return " ++ e ++ ";")%string /\
        e = kept mathCharacters expr /\
        e <> "" /\
        Forall (fun c => includes mathCharacters c = true)
          (list_ascii_of_string e) /\
        ~ Forall (fun c => includes mathCharacters c = false)
            (list_ascii_of_string expr)
  end.
Proof.
  unfold mathExpressionEvaluator. cbv zeta. rewrite filterMathExpr_kept.
  destruct (String.length (kept mathCharacters expr) =? 0)%nat eqn:E.
  - apply Nat.eqb_eq in E. apply kept_nothing.
    destruct (kept mathCharacters expr); [reflexivity|discriminate].
  - apply Nat.eqb_neq in E.
    assert (Hne : kept mathCharacters expr <> "").
    { intros H. rewrite H in E. now apply E. }
    exists (kept mathCharacters expr).
    split; [reflexivity|]. split; [reflexivity|]. split; [exact Hne|].
    split; [apply kept_characters|].
    intros H. apply kept_nothing in H. contradiction.
Qed.

(** ** [filterNumerical] *)

Lemma digitValue_range (c : ascii) (d : Z) :
  digitValue c = Some d -> (0 <= d <= 9)%Z.
Proof.
  unfold digitValue.
  destruct ((48 <=? nat_of_ascii c)%nat && (nat_of_ascii c <=? 57)%nat) eqn:E;
    [|discriminate].
  apply andb_true_iff in E. destruct E as [E1 E2].
  apply Nat.leb_le in E1, E2. intros H. injection H as <-. lia.
Qed.

Lemma leadingDigits_range (s : string) :
  Forall (fun d => 0 <= d <= 9)%Z (fst (leadingDigits s)).
Proof.
  induction s as [|c s IH]; simpl; [constructor|].
  destruct (digitValue c) as [d|] eqn:E; [|constructor].
  destruct (leadingDigits s) as [ds after]. simpl in *.
  constructor; [now apply (digitValue_range c)|exact IH].
Qed.

Lemma digitsValue_nonneg (ds : list Z) :
  Forall (fun d => 0 <= d <= 9)%Z ds -> (0 <= digitsValue ds)%Z.
Proof.
  unfold digitsValue. intros H.
  assert (Hgen : forall acc, (0 <= acc)%Z ->
             (0 <= fold_left (fun a d => (a * 10 + d)%Z) ds acc)%Z).
  { induction H as [|d ds Hd _ IH]; intros acc Hacc; simpl; [exact Hacc|].
    apply IH. lia. }
  apply Hgen. lia.
Qed.

Lemma parseFloatDecimal_nonneg (s : string) (q : Q) :
  parseFloatDecimal s = Some q -> 0 <= q.
Proof.
  unfold parseFloatDecimal.
  pose proof (leadingDigits_range s) as Hwhole.
  destruct (leadingDigits s) as [whole after]. simpl in Hwhole.
  assert (Hw : 0 <= inject_Z (digitsValue whole)).
  { change 0 with (inject_Z 0). rewrite <- Zle_Qle.
    now apply digitsValue_nonneg. }
  assert (Hplain : match whole with
                   | [] => None
                   | _ :: _ => Some (inject_Z (digitsValue whole))
                   end = Some q -> 0 <= q).
  { destruct whole; [discriminate|]. intros H. injection H as <-. exact Hw. }
  destruct after as [|c after']; [exact Hplain|].
  destruct (Ascii.eqb c ".") eqn:Edot.
  - apply Ascii.eqb_eq in Edot. subst c.
    pose proof (leadingDigits_range after') as Hfrac.
    destruct (leadingDigits after') as [fraction rest]. simpl in Hfrac.
    assert (Hf : 0 <= inject_Z (digitsValue fraction)
                      / inject_Z (10 ^ Z.of_nat (List.length fraction))).
    { apply Qle_shift_div_l.
      - change 0 with (inject_Z 0). rewrite <- Zlt_Qlt.
        apply Z.pow_pos_nonneg; lia.
      - rewrite Qmult_0_l. change 0 with (inject_Z 0). rewrite <- Zle_Qle.
        now apply digitsValue_nonneg. }
    intros H.
    assert (Hq : q == inject_Z (digitsValue whole)
                      + inject_Z (digitsValue fraction)
                        / inject_Z (10 ^ Z.of_nat (List.length fraction))).
    { destruct whole, fraction; try discriminate;
        injection H as <-; reflexivity. }
    rewrite Hq. lra.
  - assert (Hc : c <> "."%char) by (now apply Ascii.eqb_neq).
    intros H. apply Hplain.
    destruct c as [[|] [|] [|] [|] [|] [|] [|] [|]];
      try exact H; exfalso; apply Hc; reflexivity.
Qed.

Lemma filterNumerical_kept (input : string) :
  filterString (AString input) (AString numericalCharacters) true
  = kept numericalCharacters input.
Proof.
  unfold filterString.
  destruct (String.length input =? 0)%nat eqn:Ei.
  - apply Nat.eqb_eq in Ei. destruct input; [reflexivity|discriminate].
  - apply (filterLoop_keep numericalCharacters input "" "").
Qed.

(** X22.  [filterNumerical] returns [null] or a number that is
    strictly greater than zero: never zero, never a negative number,
    never [NaN]. *)
Theorem filterNumerical_is_null_or_positive (input : argument) (q : Q) :
  filterNumerical input = Some q -> 0 < q.
Proof.
  unfold filterNumerical.
  destruct (parseFloatDecimal
              (filterString input (AString numericalCharacters) true))
    as [p|] eqn:E; [|discriminate].
  apply parseFloatDecimal_nonneg in E.
  destruct (Qeq_bool p 0) eqn:Ez; [discriminate|].
  intros H. injection H as <-.
  assert (~ p == 0).
  { intros Hp. apply Qeq_bool_iff in Hp. congruence. }
  lra.
Qed.

Lemma filterNumerical_is_null_or_positive_witness : 0 < 125 # 10.
Proof.
  apply (filterNumerical_is_null_or_positive (AString "-12.5 mm")).
  reflexivity.
Defined.

(** X23.  [filterNumerical] reads the digits and the dots of its input
    and nothing else: it gives the same for an input and for that
    input with every other character removed.  The sign, the letter of
    an exponent and the unit are thus ignored: ["-5"] gives [5] and
    ["1e5"] gives [15].  An argument that is not a string gives
    [null]. *)
Theorem filterNumerical_reads_digits_and_dots (input : string) :
  filterNumerical (AString input)
  = filterNumerical (AString (kept numericalCharacters input)) /\
  filterNumerical (AString "-5") = Some 5 /\
  filterNumerical (AString "1e5") = Some 15 /\
  filterNumerical ANotString = None.
Proof.
  split; [|repeat split].
  unfold filterNumerical. rewrite !filterNumerical_kept.
  now rewrite (kept_clean _ _ (kept_characters numericalCharacters input)).
Qed.

(** * The preview *)

Lemma inject_Z_zero (z : Z) : inject_Z z == 0 <-> z = 0%Z.
Proof. unfold Qeq. simpl. lia. Qed.

Lemma Qfloor_div_int (i c : Z) :
  (0 < c)%Z -> Qfloor (inject_Z i / inject_Z c) = (i / c)%Z.
Proof.
  intros Hc. destruct c as [|p|p]; try lia.
  unfold Qdiv, Qinv, Qmult, Qfloor, inject_Z. simpl.
  now rewrite Z.mul_1_r.
Qed.

(** On whole numbers [i % c == 0] is divisibility. *)
Lemma remainderIsZero_int (i c : Z) :
  (0 <= i)%Z -> (0 < c)%Z ->
  remainderIsZero (inject_Z i) (inject_Z c) = (i mod c =? 0)%Z.
Proof.
  intros Hi Hc. unfold remainderIsZero.
  replace (Qeq_bool (inject_Z c) 0) with false.
  2:{ symmetry. apply not_true_iff_false. intros H.
      apply (proj1 (Qeq_bool_iff _ _)) in H.
      apply (proj1 (inject_Z_zero c)) in H. lia. }
  assert (Htrunc : trunc (inject_Z i / inject_Z c) = (i / c)%Z).
  { unfold trunc. replace (Qle_bool 0 (inject_Z i / inject_Z c)) with true.
    - now apply Qfloor_div_int.
    - symmetry. apply Qle_bool_iff.
      apply Qle_shift_div_l.
      + change 0 with (inject_Z 0). now rewrite <- Zlt_Qlt.
      + rewrite Qmult_0_l. change 0 with (inject_Z 0). now rewrite <- Zle_Qle. }
  rewrite Htrunc.
  apply eq_true_iff_eq. rewrite Qeq_bool_iff, Z.eqb_eq.
  rewrite <- inject_Z_mult.
  assert (E : inject_Z i - inject_Z (c * (i / c)) == inject_Z (i mod c)).
  { rewrite Z.mod_eq by lia. unfold Zminus. rewrite inject_Z_plus, inject_Z_opp.
    reflexivity. }
  rewrite E. apply inject_Z_zero.
Qed.

(** The place of item [j + 1] from the place of item [j]. *)
Lemma next_place (j c : Z) :
  (0 <= j)%Z -> (0 < c)%Z ->
  ((j + 1) mod c = 0 /\ (j + 1) / c = j / c + 1)%Z \/
  ((j + 1) mod c <> 0 /\ (j + 1) mod c = j mod c + 1 /\ (j + 1) / c = j / c)%Z.
Proof.
  intros Hj Hc.
  pose proof (Z.div_mod j c ltac:(lia)) as Hdm.
  pose proof (Z.mod_pos_bound j c Hc) as Hb.
  destruct (Z.eq_dec (j mod c + 1) c) as [E|E].
  - left.
    assert (Hq : ((j + 1) / c = j / c + 1)%Z).
    { symmetry. apply (Z.div_unique (j + 1) c (j / c + 1) 0); nia. }
    split; [|exact Hq].
    rewrite Z.mod_eq by lia. rewrite Hq. nia.
  - right.
    assert (Hq : ((j + 1) / c = j / c)%Z).
    { symmetry. apply (Z.div_unique (j + 1) c (j / c) (j mod c + 1)); nia. }
    assert (Hm : ((j + 1) mod c = j mod c + 1)%Z).
    { rewrite Z.mod_eq by lia. rewrite Hq. nia. }
    split; [lia|]. split; assumption.
Qed.

(** The loop over the items lays them on the grid, row by row. *)
Lemma itemsLoop_grid (c : Z) (n : nat) (dx dy : Z) :
  (0 < c)%Z ->
  forall (k i fuel : nat),
    (i + k = n)%nat -> (k < fuel)%nat ->
    itemsLoop fuel (inject_Z (Z.of_nat n)) (inject_Z c) dx dy (Z.of_nat i)
      (fst (offsetsAt c dx dy i)) (snd (offsetsAt c dx dy i))
    = Some (map (place c dx dy) (seq i k)).
Proof.
  intros Hc. induction k as [|k IH]; intros i fuel Hn Hfuel.
  - destruct fuel as [|fuel]; [lia|]. simpl.
    replace (gt (inject_Z (Z.of_nat n)) (inject_Z (Z.of_nat i))) with false;
      [reflexivity|].
    symmetry. apply gt_false. rewrite <- Zle_Qle. lia.
  - destruct fuel as [|fuel]; [lia|]. cbn [itemsLoop].
    replace (gt (inject_Z (Z.of_nat n)) (inject_Z (Z.of_nat i))) with true.
    2:{ symmetry. apply gt_true. rewrite <- Zlt_Qlt. lia. }
    cbv zeta.
    rewrite (remainderIsZero_int (Z.of_nat i) c) by lia.
    assert (Hstep :
              (if negb (Z.of_nat i =? 0)%Z && (Z.of_nat i mod c =? 0)%Z
               then 0%Z else fst (offsetsAt c dx dy i),
               if negb (Z.of_nat i =? 0)%Z && (Z.of_nat i mod c =? 0)%Z
               then (snd (offsetsAt c dx dy i) + dy)%Z
               else snd (offsetsAt c dx dy i))
              = place c dx dy i).
    { destruct i as [|j].
      - cbn [Z.of_nat Z.eqb negb andb offsetsAt fst snd]. unfold place.
        cbn [Z.of_nat]. rewrite Z.mod_0_l, Z.div_0_l by lia. reflexivity.
      - replace (Z.of_nat (S j) =? 0)%Z with false
          by (symmetry; apply Z.eqb_neq; lia).
        cbn [negb andb offsetsAt fst snd]. unfold place.
        rewrite Nat2Z.inj_succ. unfold Z.succ.
        destruct (next_place (Z.of_nat j) c ltac:(lia) Hc)
          as [[Hm Hq]|[Hne [Hm Hq]]].
        + rewrite Hm, Hq. simpl. f_equal. lia.
        + replace ((Z.of_nat j + 1) mod c =? 0)%Z with false
            by (symmetry; now apply Z.eqb_neq).
          rewrite Hm, Hq. reflexivity. }
    injection Hstep as Hleft Htop. rewrite Hleft, Htop.
    specialize (IH (S i) fuel ltac:(lia) ltac:(lia)).
    assert (Hnext : offsetsAt c dx dy (S i)
                    = ((Z.of_nat i mod c) * dx + dx, (Z.of_nat i / c) * dy)%Z).
    { simpl. f_equal. lia. }
    rewrite Hnext in IH. cbn [fst snd] in IH.
    replace (Z.of_nat i + 1)%Z with (Z.of_nat (S i)) by lia.
    rewrite IH. reflexivity.
Qed.

Lemma gt_comp (a a' b : Q) : a == a' -> gt a b = gt a' b.
Proof.
  intros H. destruct (gt a' b) eqn:E.
  - apply gt_true in E. apply gt_true. lra.
  - apply gt_false in E. apply gt_false. lra.
Qed.

Lemma itemsLoop_comp (N N' C : Q) (dx dy : Z) :
  N == N' ->
  forall fuel i x y,
    itemsLoop fuel N C dx dy i x y = itemsLoop fuel N' C dx dy i x y.
Proof.
  intros HN. induction fuel as [|fuel IH]; intros i x y; [reflexivity|].
  cbn [itemsLoop]. rewrite (gt_comp N N' _ HN).
  destruct (gt N' (inject_Z i)); [|reflexivity].
  cbv zeta. now rewrite IH.
Qed.

Lemma itemsLoop_done (fuel : nat) (N C : Q) (dx dy i x y : Z) :
  gt N (inject_Z i) = false ->
  itemsLoop (S fuel) N C dx dy i x y = Some [].
Proof. intros H. cbn [itemsLoop]. now rewrite H. Qed.

Lemma number_num (k : string) (o : object) (q : Q) :
  get k o = VNum q -> number k o = Some q.
Proof. unfold number. now intros ->. Qed.

(** The preview of a result of [js/app.js], field by field. *)
Lemma preview_of_result (o result : object) (fuel : nat) (identifier : string) :
  AppJs.optimizeStepAndRepeat fuel o = (Normal tt, result) ->
  exists (w h m iw ih : Q) (c r : Z),
    optimized result w h m iw ih c r /\
    (0 <= usable w m /\ 0 <= usable h m /\ 0 < absQ iw /\ 0 < absQ ih) /\
    inject_Z c * absQ iw <= usable w m < (inject_Z c + 1) * absQ iw /\
    inject_Z r * absQ ih <= usable h m < (inject_Z r + 1) * absQ ih /\
    generateDocumentPreview result (Some identifier)
    = Normal (Some
        {| docIdentifier := identifier;
           pxDocumentWidth := Qfloor (millimeterToPixel (absQ w));
           pxDocumentHeight := Qfloor (millimeterToPixel (absQ h));
           pxDocumentMargin := Qfloor (millimeterToPixel (absQ m));
           pxItemWidth := Qfloor (millimeterToPixel (absQ iw));
           pxItemHeight := Qfloor (millimeterToPixel (absQ ih));
           rowCount := inject_Z r;
           columnCount := inject_Z c;
           itemCount := inject_Z r * inject_Z c;
           translateMarginX :=
             Qfloor ((usable w m - inject_Z c * absQ iw) * (125 # 1000));
           translateMarginY :=
             Qfloor ((usable h m - inject_Z r * absQ ih) * (125 # 1000));
           docItems :=
             if (200 <? r * c)%Z then TooManyItems
             else Items (grid c (Z.to_nat (r * c))
                           (Qfloor (millimeterToPixel (absQ iw)))
                           (Qfloor (millimeterToPixel (absQ ih)))) |}).
Proof.
  intros Hrun.
  destruct (AppJs_returns_maximal o result fuel Hrun)
    as (w & h & m & iw & ih & c & r & _ & Hopt & P1 & P2 & Piw & Pih & HC & HR).
  exists w, h, m, iw, ih, c, r.
  split; [exact Hopt|]. split; [auto|]. split; [exact HC|]. split; [exact HR|].
  destruct Hopt.
  unfold generateDocumentPreview.
  rewrite (number_num _ _ _ opt_widthReal0), (number_num _ _ _ opt_heightReal0),
    (number_num _ _ _ opt_margin0), (number_num _ _ _ opt_itemWidth0),
    (number_num _ _ _ opt_itemHeight0), (number_num _ _ _ opt_maxColumns0),
    (number_num _ _ _ opt_maxRows0), (number_num _ _ _ opt_width0),
    (number_num _ _ _ opt_height0).
  cbv zeta.
  assert (Hprod : inject_Z r * inject_Z c == inject_Z (r * c))
    by (now rewrite inject_Z_mult).
  destruct (200 <? r * c)%Z eqn:Emany.
  - apply Z.ltb_lt in Emany.
    replace (gt (inject_Z r * inject_Z c) 200) with true; [reflexivity|].
    symmetry. apply gt_true. rewrite Hprod.
    change 200 with (inject_Z 200). now rewrite <- Zlt_Qlt.
  - apply Z.ltb_ge in Emany.
    replace (gt (inject_Z r * inject_Z c) 200) with false.
    2:{ symmetry. apply gt_false. rewrite Hprod.
        change 200 with (inject_Z 200). now rewrite <- Zle_Qle. }
    assert (Hitems :
              itemsLoop 201 (inject_Z r * inject_Z c) (inject_Z c)
                (Qfloor (millimeterToPixel (absQ iw)))
                (Qfloor (millimeterToPixel (absQ ih))) 0 0 0
              = Some (grid c (Z.to_nat (r * c))
                        (Qfloor (millimeterToPixel (absQ iw)))
                        (Qfloor (millimeterToPixel (absQ ih))))).
    { destruct (Z.eq_dec c 0) as [->|Hc].
      - rewrite Z.mul_0_r. change (Z.to_nat 0) with 0%nat.
        change (grid 0 0 (Qfloor (millimeterToPixel (absQ iw)))
                  (Qfloor (millimeterToPixel (absQ ih)))) with (@nil (Z * Z)).
        apply itemsLoop_done. apply gt_false.
        rewrite Qmult_0_r. apply Qle_refl.
      - assert (Hn : inject_Z r * inject_Z c
                     == inject_Z (Z.of_nat (Z.to_nat (r * c)))).
        { rewrite Hprod, Z2Nat.id by nia. reflexivity. }
        rewrite (itemsLoop_comp _ _ _ _ _ Hn).
        apply (itemsLoop_grid c (Z.to_nat (r * c)) _ _ ltac:(lia)
                 (Z.to_nat (r * c)) 0%nat 201%nat); lia. }
    rewrite Hitems. reflexivity.
Qed.

(** X15.  The preview of a result of [js/app.js].  It is always
    rendered (the loop over the items ends, no value is missing) under
    the identifier given, and shows [maxRows * maxColumns] as the item
    count.  With at most 200 items it has exactly that many items, laid
    row by row on a grid: item [i] stands in column [i mod maxColumns]
    and row [i / maxColumns], at steps of the item width and height in
    pixels.  With more than 200 items none is rendered. *)
Theorem preview_lays_items_on_grid (o result : object) (fuel : nat)
    (identifier : string) :
  AppJs.optimizeStepAndRepeat fuel o = (Normal tt, result) ->
  exists (p : preview) (c r : Z),
    generateDocumentPreview result (Some identifier) = Normal (Some p) /\
    get "maxColumns" result = VNum (inject_Z c) /\
    get "maxRows" result = VNum (inject_Z r) /\
    docIdentifier p = identifier /\
    itemCount p = inject_Z r * inject_Z c /\
    ((r * c <= 200)%Z ->
     docItems p
     = Items (map (fun i => ((Z.of_nat i mod c) * pxItemWidth p,
                             (Z.of_nat i / c) * pxItemHeight p)%Z)
                  (seq 0 (Z.to_nat (r * c))))) /\
    ((200 < r * c)%Z -> docItems p = TooManyItems).
Proof.
  intros Hrun.
  destruct (preview_of_result o result fuel identifier Hrun)
    as (w & h & m & iw & ih & c & r & Hopt & _ & _ & _ & Hp).
  destruct Hopt.
  eexists _, c, r. split; [exact Hp|].
  split; [assumption|]. split; [assumption|].
  cbn [docIdentifier itemCount docItems pxItemWidth pxItemHeight].
  split; [reflexivity|]. split; [reflexivity|]. split.
  - intros Hfew. replace (200 <? r * c)%Z with false
      by (symmetry; apply Z.ltb_ge; exact Hfew).
    reflexivity.
  - intros Hmany. replace (200 <? r * c)%Z with true
      by (symmetry; apply Z.ltb_lt; exact Hmany).
    reflexivity.
Qed.

Lemma pixels_nonneg (q : Q) : 0 <= q -> (0 <= Qfloor (millimeterToPixel q))%Z.
Proof.
  intros H. change 0%Z with (Qfloor 0). apply Qfloor_resp_le.
  unfold millimeterToPixel. apply Qmult_le_0_compat; [exact H|discriminate].
Qed.

(** Whole items of whole pixels fit where the items fit. *)
Lemma pixels_fit (n : Z) (s D : Q) :
  (0 <= n)%Z -> inject_Z n * s <= D ->
  (n * Qfloor (millimeterToPixel s) <= Qfloor (millimeterToPixel D))%Z.
Proof.
  intros Hn Hfit.
  rewrite <- (Qfloor_Z (n * Qfloor (millimeterToPixel s))).
  apply Qfloor_resp_le. rewrite inject_Z_mult.
  pose proof (Qfloor_le (millimeterToPixel s)) as Hfl.
  assert (Hn' : 0 <= inject_Z n)
    by (change 0 with (inject_Z 0); now rewrite <- Zle_Qle).
  apply Qle_trans with (inject_Z n * millimeterToPixel s).
  - rewrite !(Qmult_comm (inject_Z n)). now apply Qmult_le_compat_r.
  - unfold millimeterToPixel. rewrite Qmult_assoc.
    apply Qmult_le_compat_r; [exact Hfit|discriminate].
Qed.

Lemma usable_le (d m : Q) : usable d m <= absQ d.
Proof.
  unfold usable. pose proof (absQ_nonneg m).
  destruct (neq (absQ m) 0); lra.
Qed.

(** The geometry of the preview in exact arithmetic.  The two
    translations of the grid are not negative.  Every item rendered
    lies inside the usable area in pixels: its offsets are not
    negative, and its offsets plus the item size in pixels do not
    exceed the usable width and height in pixels, which in turn do not
    exceed the size of the document in pixels. *)
Lemma preview_geometry_in_exact_arithmetic (o result : object) (fuel : nat)
    (identifier : string) :
  AppJs.optimizeStepAndRepeat fuel o = (Normal tt, result) ->
  exists (p : preview) (W H : Q),
    generateDocumentPreview result (Some identifier) = Normal (Some p) /\
    get "documentWidth" result = VNum W /\
    get "documentHeight" result = VNum H /\
    (0 <= translateMarginX p)%Z /\
    (0 <= translateMarginY p)%Z /\
    (Qfloor (millimeterToPixel W) <= pxDocumentWidth p)%Z /\
    (Qfloor (millimeterToPixel H) <= pxDocumentHeight p)%Z /\
    forall positions x y,
      docItems p = Items positions ->
      In (x, y) positions ->
      (0 <= x /\ x + pxItemWidth p <= Qfloor (millimeterToPixel W) /\
       0 <= y /\ y + pxItemHeight p <= Qfloor (millimeterToPixel H))%Z.
Proof.
  intros Hrun.
  destruct (preview_of_result o result fuel identifier Hrun)
    as (w & h & m & iw & ih & c & r & Hopt & (P1 & P2 & Piw & Pih)
        & [C1 C2] & [R1 R2] & Hp).
  destruct Hopt.
  eexists _, (usable w m), (usable h m). split; [exact Hp|].
  split; [assumption|]. split; [assumption|].
  cbn [translateMarginX translateMarginY pxDocumentWidth pxDocumentHeight
       docItems pxItemWidth pxItemHeight].
  split.
  { change 0%Z with (Qfloor 0). apply Qfloor_resp_le.
    apply Qmult_le_0_compat; [lra|discriminate]. }
  split.
  { change 0%Z with (Qfloor 0). apply Qfloor_resp_le.
    apply Qmult_le_0_compat; [lra|discriminate]. }
  split.
  { apply Qfloor_resp_le. unfold millimeterToPixel.
    apply Qmult_le_compat_r; [apply usable_le|discriminate]. }
  split.
  { apply Qfloor_resp_le. unfold millimeterToPixel.
    apply Qmult_le_compat_r; [apply usable_le|discriminate]. }
  assert (Hdx : (0 <= Qfloor (millimeterToPixel (absQ iw)))%Z)
    by (apply pixels_nonneg; lra).
  assert (Hdy : (0 <= Qfloor (millimeterToPixel (absQ ih)))%Z)
    by (apply pixels_nonneg; lra).
  assert (Hcdx : (c * Qfloor (millimeterToPixel (absQ iw))
                  <= Qfloor (millimeterToPixel (usable w m)))%Z)
    by (now apply pixels_fit).
  assert (Hrdy : (r * Qfloor (millimeterToPixel (absQ ih))
                  <= Qfloor (millimeterToPixel (usable h m)))%Z)
    by (now apply pixels_fit).
  remember (Qfloor (millimeterToPixel (absQ iw))) as dx eqn:Edx.
  remember (Qfloor (millimeterToPixel (absQ ih))) as dy eqn:Edy.
  clear Edx Edy.
  intros positions x y Hitems Hin.
  destruct (200 <? r * c)%Z; [discriminate|].
  injection Hitems as <-.
  unfold grid in Hin. apply in_map_iff in Hin.
  destruct Hin as (i & Hxy & Hi). apply in_seq in Hi.
  injection Hxy as <- <-.
  assert (Hrc : (Z.of_nat i < r * c)%Z) by lia.
  assert (Hcpos : (0 < c)%Z).
  { destruct (Z.eq_dec c 0) as [Hc0|Hc0]; [|lia].
    rewrite Hc0, Z.mul_0_r in Hrc. lia. }
  assert (Hilt : (Z.of_nat i < c * r)%Z) by (rewrite Z.mul_comm; exact Hrc).
  pose proof (Z.mod_pos_bound (Z.of_nat i) c Hcpos) as Hmod.
  pose proof (Z.div_pos (Z.of_nat i) c ltac:(lia) Hcpos) as Hdiv0.
  pose proof (Z.div_lt_upper_bound (Z.of_nat i) c r Hcpos Hilt) as Hdiv.
  set (a := (Z.of_nat i mod c)%Z) in *. set (b := (Z.of_nat i / c)%Z) in *.
  assert (A1 : (0 <= a * dx)%Z) by (apply Z.mul_nonneg_nonneg; lia).
  assert (A2 : (0 <= b * dy)%Z) by (apply Z.mul_nonneg_nonneg; lia).
  assert (A3 : (a * dx + dx <= c * dx)%Z).
  { replace (a * dx + dx)%Z with ((a + 1) * dx)%Z by ring.
    apply Z.mul_le_mono_nonneg_r; lia. }
  assert (A4 : (b * dy + dy <= r * dy)%Z).
  { replace (b * dy + dy)%Z with ((b + 1) * dy)%Z by ring.
    apply Z.mul_le_mono_nonneg_r; lia. }
  split; [exact A1|]. split; [lia|]. split; [exact A2|]. lia.
Qed.

(** X16.  The geometry of the preview of a request of whole numbers,
    on which the arithmetic of the preview is exact on doubles as well
    (products of whole numbers below 2^53, and divisions by 4 and 8).
    The two translations of the grid are not negative, and every item
    rendered lies inside the usable area in pixels: its offsets are
    not negative, and its offsets plus the item size in pixels do not
    exceed the usable width and height in pixels, which in turn do not
    exceed the size of the document in pixels. *)
Theorem preview_of_whole_numbers_inside_usable_area (W H m iw ih : Z)
    (result : object) (fuel : nat) (identifier : string) :
  (0 <= m)%Z -> (2 * m < W)%Z -> (2 * m < H)%Z -> (0 < iw)%Z -> (0 < ih)%Z ->
  (W + iw < 2 ^ 53)%Z -> (H + ih < 2 ^ 53)%Z ->
  AppJs.optimizeStepAndRepeat fuel
    (request (inject_Z W) (inject_Z H) (inject_Z m) (inject_Z iw) (inject_Z ih))
  = (Normal tt, result) ->
  exists (p : preview) (U V : Q),
    generateDocumentPreview result (Some identifier) = Normal (Some p) /\
    get "documentWidth" result = VNum U /\
    get "documentHeight" result = VNum V /\
    U == inject_Z (W - 2 * m) /\
    V == inject_Z (H - 2 * m) /\
    (0 <= translateMarginX p)%Z /\
    (0 <= translateMarginY p)%Z /\
    (Qfloor (millimeterToPixel U) <= pxDocumentWidth p)%Z /\
    (Qfloor (millimeterToPixel V) <= pxDocumentHeight p)%Z /\
    forall positions x y,
      docItems p = Items positions ->
      In (x, y) positions ->
      (0 <= x /\ x + pxItemWidth p <= Qfloor (millimeterToPixel U) /\
       0 <= y /\ y + pxItemHeight p <= Qfloor (millimeterToPixel V))%Z.
Proof.
  intros Pm PW PH Piw Pih BW BH Hrun.
  destruct (preview_geometry_in_exact_arithmetic _ result fuel identifier Hrun)
    as (p & U & V & Hp & HU & HV & Hrest).
  exists p, U, V. split; [exact Hp|]. split; [exact HU|]. split; [exact HV|].
  destruct (optimizeWith_normal gt _ result fuel Hrun)
    as (w & h & m' & iw' & ih' & c & r & o3 & Hnum & Hopt & _).
  destruct (numeric_unique _ _ _ _ _ _ _ _ _ _ _ Hnum
              (numeric_request (inject_Z W) (inject_Z H) (inject_Z m)
                 (inject_Z iw) (inject_Z ih)))
    as (-> & -> & -> & _ & _).
  destruct Hopt as [OW OH _ _ _ _ _ _ _ _ _].
  rewrite OW in HU. rewrite OH in HV.
  injection HU as <-. injection HV as <-.
  assert (Hus : forall D, (2 * m < D)%Z ->
            usable (inject_Z D) (inject_Z m) == inject_Z (D - 2 * m)).
  { intros D HD. unfold usable.
    assert (A1 : absQ (inject_Z D) = inject_Z D).
    { apply absQ_of_nonneg. change 0 with (inject_Z 0). rewrite <- Zle_Qle. lia. }
    assert (A2 : absQ (inject_Z m) = inject_Z m).
    { apply absQ_of_nonneg. change 0 with (inject_Z 0). now rewrite <- Zle_Qle. }
    rewrite A1, A2.
    unfold Z.sub. rewrite inject_Z_plus, inject_Z_opp, inject_Z_mult.
    change (inject_Z 2) with 2.
    destruct (neq (inject_Z m) 0) eqn:E; [ring|].
    apply neq_false in E. rewrite E. ring. }
  split; [now apply Hus|]. split; [now apply Hus|]. exact Hrest.
Qed.

Lemma preview_of_whole_numbers_inside_usable_area_witness :
  let result :=
    snd (AppJs.optimizeStepAndRepeat 12
           (request (inject_Z 330) (inject_Z 488) (inject_Z 12) (inject_Z 90)
              (inject_Z 50))) in
  exists (p : preview) (U V : Q),
    generateDocumentPreview result (Some "portrait") = Normal (Some p) /\
    get "documentWidth" result = VNum U /\
    get "documentHeight" result = VNum V /\
    U == inject_Z (330 - 2 * 12) /\
    V == inject_Z (488 - 2 * 12) /\
    (0 <= translateMarginX p)%Z /\
    (0 <= translateMarginY p)%Z /\
    (Qfloor (millimeterToPixel U) <= pxDocumentWidth p)%Z /\
    (Qfloor (millimeterToPixel V) <= pxDocumentHeight p)%Z /\
    forall positions x y,
      docItems p = Items positions ->
      In (x, y) positions ->
      (0 <= x /\ x + pxItemWidth p <= Qfloor (millimeterToPixel U) /\
       0 <= y /\ y + pxItemHeight p <= Qfloor (millimeterToPixel V))%Z.
Proof.
  intros result.
  apply (preview_of_whole_numbers_inside_usable_area 330 488 12 90 50 result 12
           "portrait"); try lia.
  reflexivity.
Defined.

(** * The handler of the controls *)

(** The four checks, case by case. *)
Lemma checks_table (useThrow : bool) (evaluated : jsvalue) :
  checks useThrow evaluated =
  let reject message :=
    if useThrow then inl message else inr (JNumber (Finite 0)) in
  match evaluated with
  | JNumber (Finite q) =>
      if gt q 0 then inr (JNumber (Finite q))
      else reject "Negative or zero values not allowed"
  | JNumber Infinity => reject "Infinity value"
  | JNumber NaN => reject "NaN value"
  | JUndefined => reject "NaN value"
  | JNumber NegInfinity => reject "Negative or zero values not allowed"
  | JNull => reject "Negative or zero values not allowed"
  end.
Proof.
  assert (Hzero : ge 0 0 = true) by reflexivity.
  destruct useThrow, evaluated as [| |[| | |q]]; try reflexivity;
    unfold checks, check; cbn [equalsInfinity isNaN isUndefined zeroOrNegative];
    unfold gt, ge; destruct (Qle_bool q 0); reflexivity.
Qed.

(** X17.  The handler with throwing checks: every control of
    [js/app.js] but the margin, with the default [extra], and every
    control of the older variant.  On [Enter] in an input element the
    control is given the evaluated value only when the expression
    evaluates to a finite number greater than zero.  In every other
    case the original value is restored and selected, and the alert
    carries the message of the evaluator when it threw,
    ["Infinity value"] for infinity, ["NaN value"] for [NaN] and for
    [undefined], and ["Negative or zero values not allowed"] for
    [null], for minus infinity and for a number that is not positive;
    the message ["undefined"] is never used. *)
Theorem handler_accepts_positive_numbers_only (run : string -> outcome)
    (id currentValue : string) :
  id <> "documentMargin" ->
  let accepted v :=
    {| newValue := Some (Evaluated v); alerted := None;
       selected := false; bodyClass := None |} in
  let rejected message :=
    {| newValue := Some OriginalValue; alerted := Some message;
       selected := true; bodyClass := None |} in
  let expected :=
    match evaluateExpression run currentValue with
    | Throws message => rejected message
    | Returns (JNumber (Finite q)) =>
        if gt q 0 then accepted (JNumber (Finite q))
        else rejected "Negative or zero values not allowed"
    | Returns (JNumber Infinity) => rejected "Infinity value"
    | Returns (JNumber NaN) => rejected "NaN value"
    | Returns JUndefined => rejected "NaN value"
    | Returns (JNumber NegInfinity) =>
        rejected "Negative or zero values not allowed"
    | Returns JNull => rejected "Negative or zero values not allowed"
    end in
  inputMathExpressionEvaluation run id true "Enter" currentValue
    {| useAlert := None; useThrow := None; restoreOriginalValue := None |}
  = expected /\
  inputMathExpressionEvaluationOlder run true "Enter" currentValue = expected.
Proof.
  intros Hid. cbv zeta.
  unfold inputMathExpressionEvaluation, inputMathExpressionEvaluationOlder.
  apply String.eqb_neq in Hid. rewrite Hid. cbn [negb orTrue useAlert useThrow
    restoreOriginalValue String.eqb Ascii.eqb Bool.eqb].
  destruct (evaluateExpression run currentValue) as [message|v];
    [split; reflexivity|].
  rewrite checks_table. cbv zeta.
  destruct v as [| |[| | |q]]; try (split; reflexivity).
  destruct (gt q 0); split; reflexivity.
Qed.

Lemma handler_accepts_positive_numbers_only_witness :
  inputMathExpressionEvaluation (fun _ => Returns (JNumber (Finite 0)))
    "itemWidth" true "Enter" "0"
    {| useAlert := None; useThrow := None; restoreOriginalValue := None |}
  = {| newValue := Some OriginalValue;
       alerted := Some "Negative or zero values not allowed";
       selected := true; bodyClass := None |}.
Proof.
  apply (proj1 (handler_accepts_positive_numbers_only
                  (fun _ => Returns (JNumber (Finite 0))) "itemWidth" "0"
                  ltac:(discriminate))).
Defined.

(** X18.  The handler on the margin control of [js/app.js], whatever
    [extra] it is given: it never alerts.  When the evaluator throws,
    the original value is restored; otherwise the control is given the
    evaluated number when that is finite and greater than zero, and
    zero in every other case ([null], [undefined], [NaN], an infinity,
    a number that is not positive); the body gets the class
    [noPreviewMargin] exactly when the control is given zero. *)
Theorem handler_turns_bad_margins_into_zero (run : string -> outcome)
    (currentValue : string) (extra : extras) :
  let given v class :=
    {| newValue := Some (Evaluated v); alerted := None;
       selected := false; bodyClass := Some class |} in
  inputMathExpressionEvaluation run "documentMargin" true "Enter"
    currentValue extra
  = match evaluateExpression run currentValue with
    | Throws _ =>
        {| newValue := Some OriginalValue; alerted := None;
           selected := true; bodyClass := None |}
    | Returns (JNumber (Finite q)) =>
        if gt q 0 then given (JNumber (Finite q)) ""
        else given (JNumber (Finite 0)) "noPreviewMargin"
    | Returns _ => given (JNumber (Finite 0)) "noPreviewMargin"
    end.
Proof.
  cbv zeta. unfold inputMathExpressionEvaluation.
  cbn [negb String.eqb Ascii.eqb Bool.eqb].
  destruct (evaluateExpression run currentValue) as [message|v];
    [reflexivity|].
  rewrite checks_table. cbv zeta.
  destruct v as [| |[| | |q]]; try reflexivity.
  destruct (gt q 0) eqn:E; [|reflexivity].
  cbn [isZeroText]. replace (Qeq_bool q 0) with false; [reflexivity|].
  symmetry. apply not_true_iff_false. intros H.
  apply (proj1 (Qeq_bool_iff _ _)) in H. apply gt_true in E. lra.
Qed.

(** X19.  A text without any digit or other character of a
    mathematical expression is never evaluated: the evaluator returns
    [null] without calling [Function].  On a control other than the
    margin the handler then restores the original value with the
    alert ["Negative or zero values not allowed"]; on the margin
    control it sets the margin to zero. *)
Theorem handler_on_text_without_expression (run : string -> outcome)
    (id currentValue : string) :
  Forall (fun c => includes mathCharacters c = false)
    (list_ascii_of_string currentValue) ->
  evaluateExpression run currentValue = Returns JNull /\
  (id <> "documentMargin" ->
   inputMathExpressionEvaluation run id true "Enter" currentValue
     {| useAlert := None; useThrow := None; restoreOriginalValue := None |}
   = {| newValue := Some OriginalValue;
        alerted := Some "Negative or zero values not allowed";
        selected := true; bodyClass := None |}) /\
  inputMathExpressionEvaluation run "documentMargin" true "Enter" currentValue
    {| useAlert := None; useThrow := None; restoreOriginalValue := None |}
  = {| newValue := Some (Evaluated (JNumber (Finite 0)));
       alerted := None; selected := false;
       bodyClass := Some "noPreviewMargin" |}.
Proof.
  intros Hnone.
  assert (Heval : evaluateExpression run currentValue = Returns JNull).
  { unfold evaluateExpression, mathExpressionEvaluator. cbv zeta.
    rewrite filterMathExpr_kept.
    rewrite (proj2 (kept_nothing mathCharacters currentValue) Hnone).
    reflexivity. }
  split; [exact Heval|]. split.
  - intros Hid. unfold inputMathExpressionEvaluation.
    apply String.eqb_neq in Hid. rewrite Hid, Heval. reflexivity.
  - unfold inputMathExpressionEvaluation. rewrite Heval. reflexivity.
Qed.

Lemma handler_on_text_without_expression_witness :
  evaluateExpression (fun _ => Throws "never called") "abc" = Returns JNull.
Proof.
  apply (proj1 (handler_on_text_without_expression
                  (fun _ => Throws "never called") "itemWidth" "abc"
                  ltac:(repeat constructor))).
Defined.

(** * The other properties of the object *)

(** The names that the optimizer reads or writes. *)
Lemma other_property_kept (o : object) (k : string) :
  ~ In k ["documentWidth"; "documentHeight"; "documentMargin"; "itemWidth";
          "itemHeight"; "documentWidthReal"; "documentHeightReal"] ->
  get k (recorded (defaulted o)) = get k o.
Proof.
  intros Hk. rewrite get_recorded.
  repeat match goal with
         | |- context [String.eqb k ?s] =>
             let E := fresh "E" in
             destruct (String.eqb k s) eqn:E;
             [apply String.eqb_eq in E; subst k; exfalso; apply Hk;
              simpl; tauto|]
         end.
  rewrite get_defaulted.
  repeat match goal with
         | |- context [String.eqb k ?s] =>
             let E := fresh "E" in
             destruct (String.eqb k s) eqn:E;
             [apply String.eqb_eq in E; subst k; exfalso; apply Hk;
              simpl; tauto|]
         end.
  reflexivity.
Qed.

(** X20.  The loop over the keys does not stop at the fields of the
    request: every other property of the object given to the optimizer
    is turned positive as well.  In the result of a call that returns,
    a property that is not one of the nine that the optimizer reads or
    writes holds the value it had, with its sign removed when that was
    a negative number. *)
Theorem optimizer_turns_other_properties_positive (o o' : object) (fuel : nat)
    (k : string) :
  AppJs.optimizeStepAndRepeat fuel o = (Normal tt, o') ->
  ~ In k ["documentWidth"; "documentHeight"; "documentMargin"; "itemWidth";
          "itemHeight"; "documentWidthReal"; "documentHeightReal";
          "maxRows"; "maxColumns"] ->
  get k o' = absv (get k o).
Proof.
  intros Hrun Hk.
  destruct (optimizeWith_returns gt o o' fuel Hrun)
    as (w & h & m & iw & ih & c & r & o2 & Hnum & Hsan & Hrest).
  cbv zeta in Hrest.
  destruct Hrest as (_ & _ & _ & _ & _ & _ & _ & _ & _ & ->).
  destruct (prepared o w h m iw ih Hnum) as (o2' & Hsan' & _ & Hget).
  assert (o2' = o2) by congruence. subst o2'.
  assert (N1 : String.eqb k "maxColumns" = false)
    by (apply String.eqb_neq; intros ->; apply Hk; simpl; tauto).
  assert (N2 : String.eqb k "maxRows" = false)
    by (apply String.eqb_neq; intros ->; apply Hk; simpl; tauto).
  assert (N3 : String.eqb k "documentHeight" = false)
    by (apply String.eqb_neq; intros ->; apply Hk; simpl; tauto).
  assert (N4 : String.eqb k "documentWidth" = false)
    by (apply String.eqb_neq; intros ->; apply Hk; simpl; tauto).
  rewrite !get_set, N1, N2.
  assert (Hk2 : get k o2 = absv (get k o)).
  { rewrite Hget, other_property_kept; [reflexivity|].
    intros Hin. apply Hk. simpl in *. tauto. }
  destruct (neq (absQ m) 0); [|exact Hk2].
  now rewrite margined_fields, N3, N4.
Qed.

Lemma optimizer_turns_other_properties_positive_witness :
  get "bleed" (snd (AppJs.optimizeStepAndRepeat 10
                      (("bleed", VNum (-3)) :: defaultRequest)))
  = absv (get "bleed" (("bleed", VNum (-3)) :: defaultRequest)).
Proof.
  apply (optimizer_turns_other_properties_positive
           (("bleed", VNum (-3)) :: defaultRequest) _ 10 "bleed").
  - reflexivity.
  - simpl. intros H.
    repeat (destruct H as [H|H]; [discriminate H|]). exact H.
Defined.

(** X21.  A [null] in any other property makes the call fail.  When
    the object given has a property that is [null], other than the
    margin and the two real dimensions that the optimizer fills in
    itself, the call throws the error "Property ... is null" in either
    variant, whatever the five fields are, and the property named is
    one that is [null] when the loop over the keys starts. *)
Theorem null_property_fails_the_call (o : object) (k : string) (fuel : nat) :
  get k o = VNull ->
  ~ In k ["documentMargin"; "documentWidthReal"; "documentHeightReal"] ->
  exists k' o',
    AppJs.optimizeStepAndRepeat fuel o = (Throw (PropertyIsNull k'), o') /\
    Older.optimizeStepAndRepeat fuel o = (Throw (PropertyIsNull k'), o') /\
    get k' (recorded (defaulted o)) = VNull.
Proof.
  intros Hnull Hk.
  destruct (optimizeWith_classify gt o)
    as [(w & h & m & iw & ih & Hnum)|(k' & o' & Hsan & HthrowA)].
  { exfalso. destruct Hnum as [_ _ _ _ _ Hoth].
    apply Hk. simpl. destruct (Hoth k Hnull) as [->|[->| ->]]; tauto. }
  destruct (optimizeWith_classify ge o)
    as [(w & h & m & iw & ih & Hnum)|(k'' & o'' & Hsan' & HthrowB)].
  { exfalso. destruct Hnum as [_ _ _ _ _ Hoth].
    apply Hk. simpl. destruct (Hoth k Hnull) as [->|[->| ->]]; tauto. }
  assert (k'' = k' /\ o'' = o') as [-> ->].
  { rewrite Hsan in Hsan'. injection Hsan' as -> ->. auto. }
  exists k', o'. split; [apply HthrowA|]. split; [apply HthrowB|].
  unfold sanitizeAll, bind, ownKeys in Hsan.
  set (o1 := recorded (defaulted o)) in *.
  clear - Hsan. revert Hsan. generalize (keys o1). intros ks.
  assert (Hgen : forall ks a, sanitize ks a = (Throw (PropertyIsNull k'), o') ->
                              (forall j, get j a = VNull -> get j o1 = VNull) ->
                              get k' o1 = VNull).
  { clear. induction ks as [|k0 ks IH]; intros a Hrun Hinv; [discriminate|].
    rewrite sanitize_cons in Hrun.
    destruct (isNull (get k0 a)) eqn:E.
    - injection Hrun as Hk0 _. subst k0. apply Hinv.
      destruct (get k' a); try discriminate; reflexivity.
    - apply (IH _ Hrun). intros j Hj. apply Hinv.
      rewrite get_flipped in Hj.
      destruct (String.eqb j k0) eqn:Ej; [|exact Hj].
      apply String.eqb_eq in Ej. subst j.
      now apply (proj1 (absv_null _)) in Hj. }
  intros Hsan. apply (Hgen ks o1 Hsan). auto.
Qed.

Lemma null_property_fails_the_call_witness :
  exists k' o',
    AppJs.optimizeStepAndRepeat 10 (defaultRequest ++ [("bleed", VNull)])
    = (Throw (PropertyIsNull k'), o') /\
    Older.optimizeStepAndRepeat 10 (defaultRequest ++ [("bleed", VNull)])
    = (Throw (PropertyIsNull k'), o') /\
    get k' (recorded (defaulted (defaultRequest ++ [("bleed", VNull)]))) = VNull.
Proof.
  apply (null_property_fails_the_call _ "bleed" 10).
  - reflexivity.
  - simpl. intros H.
    repeat (destruct H as [H|H]; [discriminate H|]). exact H.
Defined.

(** * Examples *)

Lemma AppJs_counts_monotone_witness :
  exists (W1 W2 H1 H2 sw1 sw2 sh1 sh2 : Q) (c1 c2 n1 n2 : Z),
    (get "documentWidth" defaultResult = VNum W1 /\
     get "documentWidth"
       (snd (AppJs.optimizeStepAndRepeat 10 (request 400 488 (127 # 10) 90 50)))
     = VNum W2 /\
     get "documentHeight" defaultResult = VNum H1 /\
     get "documentHeight"
       (snd (AppJs.optimizeStepAndRepeat 10 (request 400 488 (127 # 10) 90 50)))
     = VNum H2) /\
    (get "itemWidth" defaultResult = VNum sw1 /\
     get "itemWidth"
       (snd (AppJs.optimizeStepAndRepeat 10 (request 400 488 (127 # 10) 90 50)))
     = VNum sw2 /\
     get "itemHeight" defaultResult = VNum sh1 /\
     get "itemHeight"
       (snd (AppJs.optimizeStepAndRepeat 10 (request 400 488 (127 # 10) 90 50)))
     = VNum sh2) /\
    (get "maxColumns" defaultResult = VNum (inject_Z c1) /\
     get "maxColumns"
       (snd (AppJs.optimizeStepAndRepeat 10 (request 400 488 (127 # 10) 90 50)))
     = VNum (inject_Z c2) /\
     get "maxRows" defaultResult = VNum (inject_Z n1) /\
     get "maxRows"
       (snd (AppJs.optimizeStepAndRepeat 10 (request 400 488 (127 # 10) 90 50)))
     = VNum (inject_Z n2)) /\
    (W1 <= W2 -> sw2 <= sw1 -> (c1 <= c2)%Z) /\
    (H1 <= H2 -> sh2 <= sh1 -> (n1 <= n2)%Z).
Proof.
  apply (AppJs_counts_monotone defaultRequest
           (request 400 488 (127 # 10) 90 50) _ _ 10 10).
  - reflexivity.
  - reflexivity.
Defined.

Lemma AppJs_second_call_shrinks_witness :
  exists W H M : Q,
    get "documentWidth" defaultResult = VNum W /\
    get "documentHeight" defaultResult = VNum H /\
    get "documentMargin" defaultResult = VNum M /\
    get "documentMargin" (snd (AppJs.optimizeStepAndRepeat 10 defaultResult))
    = VNum M /\
    get "documentWidthReal" (snd (AppJs.optimizeStepAndRepeat 10 defaultResult))
    = VNum W /\
    get "documentHeightReal" (snd (AppJs.optimizeStepAndRepeat 10 defaultResult))
    = VNum H /\
    get "documentWidth" (snd (AppJs.optimizeStepAndRepeat 10 defaultResult))
    = VNum (if neq M 0 then W - M * 2 else W) /\
    get "documentHeight" (snd (AppJs.optimizeStepAndRepeat 10 defaultResult))
    = VNum (if neq M 0 then H - M * 2 else H).
Proof.
  apply (AppJs_second_call_shrinks defaultRequest defaultResult _ 10 10).
  - reflexivity.
  - reflexivity.
Defined.

Lemma AppJs_margin_failure_leaves_reduced_witness :
  let o' := snd (AppJs.optimizeStepAndRepeat 5 (request 100 100 60 30 30)) in
  get "documentWidth" o' = VNum (absQ 100 - absQ 60 * 2) /\
  get "documentHeight" o' = VNum (absQ 100 - absQ 60 * 2) /\
  get "documentWidthReal" o' = VNum (absQ 100) /\
  get "documentHeightReal" o' = VNum (absQ 100).
Proof.
  apply (AppJs_margin_failure_leaves_reduced _ 100 100 60 30 30 5).
  - apply numeric_request.
  - intros H. discriminate H.
  - left. vm_compute. intros H. discriminate H.
Defined.

Lemma AppJs_commit_orientation_free_witness :
  AppJs.commitChanges 10 true
    {| documentWidth := 488; documentHeight := 330;
       documentMargin := 127 # 10; itemWidth := 90; itemHeight := 50;
       scrollToResult := true |} noResults
  = AppJs.commitChanges 10 true defaultState noResults.
Proof.
  apply (AppJs_commit_orientation_free 10 true defaultState noResults).
  simpl. intros H. discriminate H.
Defined.

Lemma AppJs_square_items_render_landscape_witness :
  itemsCount (snd (AppJs.optimizeStepAndRepeat 20 (request 100 300 0 30 30)))
  = itemsCount (snd (AppJs.optimizeStepAndRepeat 20 (request 300 100 0 30 30))) /\
  previews (snd (AppJs.commitChanges 20 true
                   {| documentWidth := 100; documentHeight := 300;
                      documentMargin := 0; itemWidth := 30; itemHeight := 30;
                      scrollToResult := true |} noResults))
  = [(snd (AppJs.optimizeStepAndRepeat 20 (request 300 100 0 30 30)),
      "landscape")].
Proof.
  apply (AppJs_square_items_render_landscape 20 true
           {| documentWidth := 100; documentHeight := 300;
              documentMargin := 0; itemWidth := 30; itemHeight := 30;
              scrollToResult := true |} noResults).
  - simpl. intros H. discriminate H.
  - reflexivity.
  - reflexivity.
  - reflexivity.
Defined.

Lemma commit_with_too_much_margin_witness :
  exists e props,
    (e = TooMuchMarginWidth \/ e = TooMuchMarginHeight) /\
    fst (fst (AppJs.commitChanges 10 true
                {| documentWidth := 100; documentHeight := 20;
                   documentMargin := 127 # 10; itemWidth := 10;
                   itemHeight := 10; scrollToResult := true |} noResults))
    = Normal tt /\
    snd (AppJs.commitChanges 10 true
           {| documentWidth := 100; documentHeight := 20;
              documentMargin := 127 # 10; itemWidth := 10;
              itemHeight := 10; scrollToResult := true |} noResults)
    = [Call props; Alert e; ClearDocumentPreview] /\
    fst (fst (Older.commitChanges 10
                {| documentWidth := 100; documentHeight := 20;
                   documentMargin := 127 # 10; itemWidth := 10;
                   itemHeight := 10; scrollToResult := true |} noResults))
    = Throw e /\
    snd (Older.commitChanges 10
           {| documentWidth := 100; documentHeight := 20;
              documentMargin := 127 # 10; itemWidth := 10;
              itemHeight := 10; scrollToResult := true |} noResults)
    = [Call props].
Proof.
  apply (commit_with_too_much_margin 10 true
           {| documentWidth := 100; documentHeight := 20;
              documentMargin := 127 # 10; itemWidth := 10;
              itemHeight := 10; scrollToResult := true |} noResults).
  - simpl. intros H. discriminate H.
  - right. vm_compute. intros H. discriminate H.
Defined.

Lemma preview_lays_items_on_grid_witness :
  exists (p : preview) (c r : Z),
    generateDocumentPreview defaultResult (Some "portrait") = Normal (Some p) /\
    get "maxColumns" defaultResult = VNum (inject_Z c) /\
    get "maxRows" defaultResult = VNum (inject_Z r) /\
    docIdentifier p = "portrait" /\
    itemCount p = inject_Z r * inject_Z c /\
    ((r * c <= 200)%Z ->
     docItems p
     = Items (map (fun i => ((Z.of_nat i mod c) * pxItemWidth p,
                             (Z.of_nat i / c) * pxItemHeight p)%Z)
                  (seq 0 (Z.to_nat (r * c))))) /\
    ((200 < r * c)%Z -> docItems p = TooManyItems).
Proof.
  apply (preview_lays_items_on_grid defaultRequest defaultResult 10 "portrait").
  reflexivity.
Defined.

(** * The optimizer on doubles *)

Section WholeNumbers.

Import Binary64.
Local Open Scope Z_scope.

(** X1.  On doubles, a request of whole numbers is packed as the
    specification says.  When the five fields are whole numbers below
    2^53, the margin leaves room on both axes and the item dimensions
    are positive, every sum, difference and product of the function is
    exact: [js/app.js] returns, the usable dimensions are the
    dimensions less twice the margin, and the counts are the whole
    quotients of the usable dimensions by the item dimensions, so that
    the items counted fit and one more does not. *)
Theorem whole_numbers_are_packed (W H m iw ih : Z) (fuel : nat) :
  0 <= m -> 2 * m < W -> 2 * m < H -> 0 < iw -> 0 < ih ->
  W + iw < 2 ^ 53 -> H + ih < 2 ^ 53 ->
  (Z.to_nat ((W - 2 * m) / iw) < fuel)%nat ->
  (Z.to_nat ((H - 2 * m) / ih) < fuel)%nat ->
  exists (result : object) (columns rows : Z),
    optimizeStepAndRepeat fuel
      (request (integer W) (integer H) (integer m) (integer iw) (integer ih))
    = (Normal tt, result) /\
    get "documentWidth" result = VNum (integer (W - 2 * m)) /\
    get "documentHeight" result = VNum (integer (H - 2 * m)) /\
    get "itemWidth" result = VNum (integer iw) /\
    get "itemHeight" result = VNum (integer ih) /\
    get "maxColumns" result = VNum (integer columns) /\
    get "maxRows" result = VNum (integer rows) /\
    columns = (W - 2 * m) / iw /\
    rows = (H - 2 * m) / ih /\
    columns * iw <= W - 2 * m < (columns + 1) * iw /\
    rows * ih <= H - 2 * m < (rows + 1) * ih.
Proof.
  intros Pm PW PH Piw Pih BW BH FW FH.
  destruct (whole_quotient (W - 2 * m) iw ltac:(lia) Piw) as (Q0 & Q1 & Q2).
  destruct (whole_quotient (H - 2 * m) ih ltac:(lia) Pih) as (R0 & R1 & R2).
  eexists _, ((W - 2 * m) / iw), ((H - 2 * m) / ih). split.
  - unfold optimizeStepAndRepeat.
    assert (Hout : forall x, 0 <= x < 2 ^ 53 ->
                     gt (integer x) (integer (H - 2 * m)) = (H - 2 * m <? x))
      by (intros x Hx; apply gt_integer; lia).
    assert (Hbefore : forall j, 0 <= j < (H - 2 * m) / ih ->
                        (H - 2 * m <? (j + 1) * ih) = false)
      by (intros j Hj; apply Z.ltb_ge; apply (sums_before j _ ih _ Hj Pih R1)).
    assert (Hexit : (H - 2 * m <? ((H - 2 * m) / ih + 1) * ih) = true)
      by (apply Z.ltb_lt; lia).
    apply (optimizeWith_whole gt (fun x d => d <? x) W H m iw ih
             ((H - 2 * m) / ih));
      try assumption; lia.
  - repeat split; try reflexivity; lia.
Qed.

(** X2.  On the same requests the older variant counts the same
    columns, and the rows up to the last one that leaves room: one row
    less than [js/app.js] exactly when the usable height is a multiple
    of the item height, and the same rows otherwise. *)
Theorem older_variant_on_whole_numbers (W H m iw ih : Z) (fuel : nat) :
  0 <= m -> 2 * m < W -> 2 * m < H -> 0 < iw -> 0 < ih ->
  W + iw < 2 ^ 53 -> H + ih < 2 ^ 53 ->
  (Z.to_nat ((W - 2 * m) / iw) < fuel)%nat ->
  (Z.to_nat ((H - 2 * m) / ih) < fuel)%nat ->
  exists (result : object) (columns rows : Z),
    optimizeStepAndRepeatOlder fuel
      (request (integer W) (integer H) (integer m) (integer iw) (integer ih))
    = (Normal tt, result) /\
    get "maxColumns" result = VNum (integer columns) /\
    get "maxRows" result = VNum (integer rows) /\
    columns = (W - 2 * m) / iw /\
    rows * ih < H - 2 * m <= (rows + 1) * ih /\
    ((H - 2 * m) mod ih = 0 -> rows = (H - 2 * m) / ih - 1) /\
    ((H - 2 * m) mod ih <> 0 -> rows = (H - 2 * m) / ih).
Proof.
  intros Pm PW PH Piw Pih BW BH FW FH.
  set (V := H - 2 * m) in *.
  destruct (whole_quotient (W - 2 * m) iw ltac:(lia) Piw) as (Q0 & Q1 & Q2).
  destruct (quotient_before V ih ltac:(lia) Pih) as (S0 & [S1 S2] & M0 & M1).
  assert (Hle : (V - 1) / ih <= V / ih) by (apply Z.div_le_mono; lia).
  eexists _, ((W - 2 * m) / iw), ((V - 1) / ih). split.
  - unfold optimizeStepAndRepeatOlder.
    assert (Hout : forall x, 0 <= x < 2 ^ 53 ->
                     ge (integer x) (integer V) = (V <=? x))
      by (intros x Hx; apply ge_integer; lia).
    assert (Hbefore : forall j, 0 <= j < (V - 1) / ih ->
                        (V <=? (j + 1) * ih) = false).
    { intros j Hj. apply Z.leb_gt.
      assert ((j + 1) * ih <= (V - 1) / ih * ih)
        by (apply Z.mul_le_mono_nonneg_r; lia).
      lia. }
    assert (Hexit : (V <=? ((V - 1) / ih + 1) * ih) = true)
      by (apply Z.leb_le; lia).
    assert (Hbound : ((V - 1) / ih + 1) * ih < 2 ^ 53) by lia.
    apply (optimizeWith_whole ge (fun x d => d <=? x) W H m iw ih
             ((V - 1) / ih));
      try assumption; lia.
  - split; [reflexivity|]. split; [reflexivity|]. split; [reflexivity|].
    split; [lia|]. split; assumption.
Qed.

(** X3.  The two variants on doubles, for any request.  When both
    return, they agree on every property of the result but [maxRows],
    and the row loop of the older variant makes no more iterations
    than that of [js/app.js]: its test [>=] holds whenever the test [>]
    does.  ([counter n] is the whole number [n] below 2^53, lemma
    [counter_whole].) *)
Theorem older_never_counts_more (o oA oB : object) (fuelA fuelB : nat) :
  optimizeStepAndRepeat fuelA o = (Normal tt, oA) ->
  optimizeStepAndRepeatOlder fuelB o = (Normal tt, oB) ->
  (forall k, k <> "maxRows" -> get k oB = get k oA) /\
  exists nA nB : nat,
    (nB <= nA)%nat /\
    get "maxRows" oA = VNum (counter nA) /\
    get "maxRows" oB = VNum (counter nB).
Proof.
  unfold optimizeStepAndRepeat, optimizeStepAndRepeatOlder, optimizeWith.
  intros HA HB. unfold bind at 1 in HA. unfold bind at 1 in HB.
  destruct (prepare o) as [[[]| | |] o3]; try discriminate.
  unfold bind at 1 in HA. unfold bind at 1 in HB.
  destruct (countLoop gt "documentWidth" "itemWidth" fuelA _ _ o3)
    as [rcA ocA] eqn:CA.
  destruct (countLoop gt "documentWidth" "itemWidth" fuelB _ _ o3)
    as [rcB ocB] eqn:CB.
  destruct (countLoop_result _ _ _ _ _ _ _ _ _ CA) as [-> [->|[cA ->]]];
    [discriminate|].
  destruct (countLoop_result _ _ _ _ _ _ _ _ _ CB) as [-> [->|[cB ->]]];
    [discriminate|].
  assert (cA = cB) by apply (countLoop_deterministic _ _ _ _ _ _ _ _ _ _ _ _ CA CB).
  subst cB.
  unfold bind at 1 in HA. unfold bind at 1 in HB.
  destruct (countLoop gt "documentHeight" "itemHeight" fuelA _ _ o3)
    as [rrA orA] eqn:RA.
  destruct (countLoop ge "documentHeight" "itemHeight" fuelB _ _ o3)
    as [rrB orB] eqn:RB.
  destruct (countLoop_result _ _ _ _ _ _ _ _ _ RA) as [-> [->|[rA ->]]];
    [discriminate|].
  destruct (countLoop_result _ _ _ _ _ _ _ _ _ RB) as [-> [->|[rB ->]]];
    [discriminate|].
  cbv [bind assign] in HA, HB.
  injection HA as <-. injection HB as <-.
  split.
  - intros k Hk. apply String.eqb_neq in Hk. rewrite !get_set64, Hk. reflexivity.
  - destruct (countLoop_weaker_test gt ge _ _ o3 gt_ge _ _ _ _ _ _ _ _ RA RB)
      as (nA & nB & Hle & -> & ->).
    exists nA, nB. split; [exact Hle|].
    rewrite !get_set64. split; reflexivity.
Qed.

Lemma whole_numbers_are_packed_witness :
  exists (result : object) (columns rows : Z),
    optimizeStepAndRepeat 12
      (request (integer 330) (integer 488) (integer 12) (integer 90) (integer 50))
    = (Normal tt, result) /\
    get "documentWidth" result = VNum (integer (330 - 2 * 12)) /\
    get "documentHeight" result = VNum (integer (488 - 2 * 12)) /\
    get "itemWidth" result = VNum (integer 90) /\
    get "itemHeight" result = VNum (integer 50) /\
    get "maxColumns" result = VNum (integer columns) /\
    get "maxRows" result = VNum (integer rows) /\
    columns = (330 - 2 * 12) / 90 /\
    rows = (488 - 2 * 12) / 50 /\
    columns * 90 <= 330 - 2 * 12 < (columns + 1) * 90 /\
    rows * 50 <= 488 - 2 * 12 < (rows + 1) * 50.
Proof.
  apply (whole_numbers_are_packed 330 488 12 90 50 12); try lia;
    vm_compute; lia.
Defined.

Lemma older_variant_on_whole_numbers_witness :
  exists (result : object) (columns rows : Z),
    optimizeStepAndRepeatOlder 5
      (request (integer 100) (integer 100) (integer 0) (integer 50) (integer 50))
    = (Normal tt, result) /\
    get "maxColumns" result = VNum (integer columns) /\
    get "maxRows" result = VNum (integer rows) /\
    columns = (100 - 2 * 0) / 50 /\
    rows * 50 < 100 - 2 * 0 <= (rows + 1) * 50 /\
    ((100 - 2 * 0) mod 50 = 0 -> rows = (100 - 2 * 0) / 50 - 1) /\
    ((100 - 2 * 0) mod 50 <> 0 -> rows = (100 - 2 * 0) / 50).
Proof.
  apply (older_variant_on_whole_numbers 100 100 0 50 50 5); try lia;
    vm_compute; lia.
Defined.

Lemma older_never_counts_more_witness :
  let props :=
    request (integer 100) (integer 100) (decimal 127 1) (integer 10)
      (decimal 3855 2) in
  let oA := snd (optimizeStepAndRepeat 12 props) in
  let oB := snd (optimizeStepAndRepeatOlder 12 props) in
  (forall k, k <> "maxRows" -> get k oB = get k oA) /\
  exists nA nB : nat,
    (nB <= nA)%nat /\
    get "maxRows" oA = VNum (counter nA) /\
    get "maxRows" oB = VNum (counter nB).
Proof.
  intros props oA oB.
  apply (older_never_counts_more props oA oB 12 12); vm_compute; reflexivity.
Defined.

End WholeNumbers.
